(** * mnemo-search: the document-to-vector pipeline, embedded and verified

    A shallow embedding of the core of [mnemo.v1]: the line classifier and
    whitespace normaliser ([parse_doc_utils.py]), the slide header extractor
    ([parse_ppt.py]), the summarisation step ([extract_and_summarize.py]),
    the vector index engine ([embedding_and_save.py]) and the search path
    ([search_files.py], [app_funcs.py]).

    Python strings are sequences of Unicode code points, so a text is a
    [list N]; the string literals of the sources are written as UTF-8
    literals and decoded by [u]. *)

From Stdlib Require Import ZArith NArith QArith Qabs String Ascii List Lia Bool Sorted.
From stdpp Require Import gmap list fin_maps.
Import ListNotations.

Local Open Scope N_scope.
Local Open Scope list_scope.

(** ** Texts *)

Module Text.

Abbreviation text := (list N).

Definition utf8_bytes (s : string) : list N :=
  List.map (fun b => N.of_nat (nat_of_ascii b)) (list_ascii_of_string s).

(** Decoder for the UTF-8 literals of this file (well-formed input). *)
Fixpoint utf8_decode (bs : list N) : text :=
  match bs with
  | [] => []
  | b0 :: r0 =>
    if b0 <? 0x80 then b0 :: utf8_decode r0
    else if b0 <? 0xE0 then
      match r0 with
      | b1 :: r1 => ((b0 - 0xC0) * 64 + (b1 - 0x80)) :: utf8_decode r1
      | _ => []
      end
    else if b0 <? 0xF0 then
      match r0 with
      | b1 :: b2 :: r2 =>
        ((b0 - 0xE0) * 4096 + (b1 - 0x80) * 64 + (b2 - 0x80)) :: utf8_decode r2
      | _ => []
      end
    else
      match r0 with
      | b1 :: b2 :: b3 :: r3 =>
        ((b0 - 0xF0) * 262144 + (b1 - 0x80) * 4096 + (b2 - 0x80) * 64 + (b3 - 0x80))
          :: utf8_decode r3
      | _ => []
      end
  end.

Definition u (s : string) : text := utf8_decode (utf8_bytes s).

(** [str.encode('utf-8')]. *)
Definition utf8_encode_char (c : N) : list N :=
  if c <? 0x80 then [c]
  else if c <? 0x800 then [0xC0 + c / 64; 0x80 + c mod 64]
  else if c <? 0x10000 then [0xE0 + c / 4096; 0x80 + (c / 64) mod 64; 0x80 + c mod 64]
  else [0xF0 + c / 262144; 0x80 + (c / 4096) mod 64; 0x80 + (c / 64) mod 64; 0x80 + c mod 64].

Definition utf8_encode (s : text) : list N := List.flat_map utf8_encode_char s.

Definition SPACE : N := 0x20.

(** [Py_UNICODE_ISSPACE]: what [str.strip()], [str.isspace()] and the
    pattern [\s] call whitespace. *)
Definition isspace (c : N) : bool :=
  ((0x09 <=? c) && (c <=? 0x0D)) || ((0x1C <=? c) && (c <=? 0x20))
  || (c =? 0x85) || (c =? 0xA0) || (c =? 0x1680)
  || ((0x2000 <=? c) && (c <=? 0x200A))
  || (c =? 0x2028) || (c =? 0x2029) || (c =? 0x202F) || (c =? 0x205F) || (c =? 0x3000).

(** First code points of the runs of ten decimal digits (general category
    Nd, Unicode 14.0); the run at U+1D7CE holds five such runs. *)
Definition decimal_runs : list N :=
  [ 48; 1632; 1776; 1984; 2406; 2534; 2662; 2790; 2918; 3046; 3174; 3302;
    3430; 3558; 3664; 3792; 3872; 4160; 4240; 6112; 6160; 6470; 6608; 6784;
    6800; 6992; 7088; 7232; 7248; 42528; 43216; 43264; 43472; 43504; 43600;
    44016; 65296; 66720; 68912; 69734; 69872; 69942; 70096; 70384; 70736;
    70864; 71248; 71360; 71472; 71904; 72016; 72784; 73040; 73120; 92768;
    92864; 93008; 120782; 120792; 120802; 120812; 120822; 123200; 123632;
    125264; 130032 ].

(** The value of a decimal digit, [None] for any other character. *)
Definition decimal_value (c : N) : option N :=
  match List.find (fun lo => (lo <=? c) && (c <=? lo + 9)) decimal_runs with
  | Some lo => Some (c - lo)
  | None => None
  end.

(** [str.isdecimal()] on one character, the pattern [\d]. *)
Definition isdecimal (c : N) : bool :=
  match decimal_value c with Some _ => true | None => false end.

(** [c.isascii() and c.isalpha()]. *)
Definition is_ascii_alpha (c : N) : bool :=
  ((0x41 <=? c) && (c <=? 0x5A)) || ((0x61 <=? c) && (c <=? 0x7A)).

Fixpoint lstrip (s : text) : text :=
  match s with
  | [] => []
  | c :: t => if isspace c then lstrip t else s
  end.

Fixpoint rstrip (s : text) : text :=
  match s with
  | [] => []
  | c :: t =>
    match rstrip t with
    | [] => if isspace c then [] else [c]
    | r => c :: r
    end
  end.

(** [str.strip()]: whitespace removed at both ends. *)
Definition strip (s : text) : text := rstrip (lstrip s).

Definition text_eqb (a b : text) : bool := bool_decide (a = b).

(** [s.startswith(p)]. *)
Fixpoint startswith (p s : text) : bool :=
  match p, s with
  | [], _ => true
  | a :: p', b :: s' => (a =? b) && startswith p' s'
  | _ :: _, [] => false
  end.

End Text.
Export Text.

(** ** Regular expressions, as the [re] module matches them

    A backtracking matcher in continuation-passing style: alternatives are
    tried in the order of the pattern and repetitions are greedy, so the
    first success is the match [re] reports. *)

Module Re.

Inductive regex : Type :=
| Eps
| Cls (p : N -> bool)        (* one character of a class *)
| Seq (r1 r2 : regex)
| Alt (r1 r2 : regex)
| Star (r : regex)           (* r*, greedy *)
| Bol                        (* ^ *)
| Eol.                       (* $ *)

Definition lit (c : N) : regex := Cls (N.eqb c).
Definition any : regex := Cls (fun _ => true).          (* . under DOTALL *)
Definition dot : regex := Cls (fun c => negb (c =? 10)). (* . *)
Definition digit : regex := Cls isdecimal.              (* \d *)
Definition space : regex := Cls isspace.                (* \s *)
Definition opt (r : regex) : regex := Alt r Eps.        (* r? *)
Definition plus (r : regex) : regex := Seq r (Star r).  (* r+ *)

Fixpoint seqs (rs : list regex) : regex :=
  match rs with
  | [] => Eps
  | [r] => r
  | r :: rs' => Seq r (seqs rs')
  end.

(** r{n} *)
Fixpoint times (n : nat) (r : regex) : regex :=
  match n with
  | O => Eps
  | S n' => Seq r (times n' r)
  end.

(** r{0,n}, greedy *)
Fixpoint upto (n : nat) (r : regex) : regex :=
  match n with
  | O => Eps
  | S n' => opt (Seq r (upto n' r))
  end.

(** r{lo,hi} and r{lo,} *)
Definition rep (lo hi : nat) (r : regex) : regex := Seq (times lo r) (upto (hi - lo) r).
Definition at_least (lo : nat) (r : regex) : regex := Seq (times lo r) (Star r).

(** A literal under [re.IGNORECASE], for the pattern characters of this
    program (ASCII, and ideographs, which have no case): the characters whose
    lower case is the lower case of the pattern character (among them U+0130
    for i and U+212A for k), and the letters the [re] module adds for i
    (U+0131) and s (U+017F). *)
Definition ascii_lower (c : N) : N :=
  if (0x41 <=? c) && (c <=? 0x5A) then c + 32 else c.

Definition ci_eq (p c : N) : bool :=
  let lp := ascii_lower p in
  (ascii_lower c =? lp)
  || ((lp =? 0x69) && ((c =? 0x130) || (c =? 0x131)))
  || ((lp =? 0x73) && (c =? 0x17F))
  || ((lp =? 0x6B) && (c =? 0x212A)).

Definition liti (c : N) : regex := Cls (ci_eq c).

Definition word (s : text) : regex := seqs (List.map lit s).
Definition wordi (s : text) : regex := seqs (List.map liti s).

Section Matcher.
Context {A : Type}.

(** The loop of a greedy repetition: [body] matches the repeated expression
    once; an iteration that consumes nothing is not repeated. *)
Fixpoint star_loop (body : text -> (text -> option A) -> option A)
         (k : text -> option A) (fuel : nat) (s0 : text) {struct fuel} : option A :=
  match fuel with
  | O => k s0
  | S fuel' =>
    match body s0 (fun s1 =>
            if (length s1 <? length s0)%nat then star_loop body k fuel' s1 else None) with
    | Some x => Some x
    | None => k s0
    end
  end.

(** [n] is the length of the whole subject, which [^] needs. *)
Variable n : nat.

Fixpoint run (r : regex) (s : text) (k : text -> option A) {struct r} : option A :=
  match r with
  | Eps => k s
  | Cls p =>
    match s with
    | c :: s' => if p c then k s' else None
    | [] => None
    end
  | Seq r1 r2 => run r1 s (fun s1 => run r2 s1 k)
  | Alt r1 r2 =>
    match run r1 s k with
    | Some x => Some x
    | None => run r2 s k
    end
  | Star r1 => star_loop (run r1) k (length s) s
  | Bol => if (length s =? n)%nat then k s else None
  | Eol =>
    match s with
    | [] => k s
    | [c] => if c =? 10 then k s else None
    | _ => None
    end
  end.
End Matcher.

(** The text a match consumed, given where it started and what was left. *)
Definition consumed (start rest : text) : text :=
  take (length start - length rest)%nat start.

(** [re.match(r, s)]: a match at the start of [s]; the result is the matched
    text, [match.group()]. *)
Definition re_match (r : regex) (s : text) : option text :=
  match run (length s) r s Some with
  | Some rest => Some (consumed s rest)
  | None => None
  end.

Fixpoint search_from (n : nat) (r : regex) (s : text) : option text :=
  match run n r s Some with
  | Some rest => Some (consumed s rest)
  | None =>
    match s with
    | [] => None
    | _ :: s' => search_from n r s'
    end
  end.

(** [re.search(r, s)]: the leftmost match. *)
Definition re_search (r : regex) (s : text) : option text :=
  search_from (length s) r s.

Definition matches (o : option text) : bool :=
  match o with Some _ => true | None => false end.

End Re.
Export Re.

(** ** The line classifier and the whitespace normaliser
    ([extract_file_text/parse_doc_utils.py]) *)

Module ParseDocUtils.

(** [REMOVE_PATTERNS], each searched with [re.IGNORECASE]. *)
Definition REMOVE_PATTERNS : list regex :=
  [ (* 第?\s*\d{1,3}\s*页 *)
    seqs [opt (liti 0x7B2C); Star space; rep 1 3 digit; Star space; liti 0x9875];
    (* Page\s*\d+ *)
    seqs [wordi (u "Page"); Star space; plus digit];
    (* \d+\s*/\s*\d+ *)
    seqs [plus digit; Star space; liti 0x2F; Star space; plus digit];
    (* 版权所有.* *)
    seqs [wordi (u "版权所有"); Star dot];
    (* 保密.* *)
    seqs [wordi (u "保密"); Star dot];
    (* Confidential.* *)
    seqs [wordi (u "Confidential"); Star dot];
    (* 免责声明.* *)
    seqs [wordi (u "免责声明"); Star dot] ].

(** [·•\.・\s] *)
Definition separator_class (c : N) : bool :=
  (c =? 0xB7) || (c =? 0x2022) || (c =? 0x2E) || (c =? 0x30FB) || isspace c.

(** [ixv\d] under [re.IGNORECASE] *)
Definition roman_or_digit_class (c : N) : bool :=
  ci_eq 0x69 c || ci_eq 0x78 c || ci_eq 0x76 c || isdecimal c.

Definition is_catalog_line (line : text) : bool :=
  let line := strip line in
  if (length line <? 10)%nat then false
  else if matches (re_search (at_least 6 (Cls separator_class)) line)
          && matches (re_search (Seq (rep 1 5 (Cls roman_or_digit_class)) Eol) line)
  then true
  else if matches (re_match
                     (seqs [Bol; plus digit; Star (Seq (lit 0x2E) (plus digit)); space])
                     line)
  then true
  else false.

(** [\d\s。，！——\.\,\=\-\%\&\^\#\@\!\*\(\)\+\_] *)
Definition digit_punct_class (c : N) : bool :=
  isdecimal c || isspace c
  || bool_decide (c ∈ [0x3002; 0xFF0C; 0xFF01; 0x2014])
  || bool_decide (c ∈ u ".,=-%&^#@!*()+_").

Definition check_line_validity (line : text) (min_line_len : nat) : bool :=
  let line := strip line in
  if (length line <=? min_line_len)%nat then false
  else if matches (re_match (seqs [Bol; plus (Cls digit_punct_class); Eol]) line) then false
  else if is_catalog_line line then false
  else if existsb (fun pat => matches (re_search pat line)) REMOVE_PATTERNS then false
  else true.

(** The default of [min_line_len]. *)
Definition DEFAULT_MIN_LINE_LEN : nat := 2.

Definition is_english (c : option N) : bool :=
  match c with
  | Some c => is_ascii_alpha c
  | None => false     (* the empty string is not alphabetic *)
  end.

(** The inner function of [clean_whitespace]; [idx] is an index of [s]. *)
Definition should_keep_space (s : text) (idx : nat) : bool :=
  match s !! idx with
  | Some c =>
    if negb (c =? SPACE) then true
    else
      let prev_char := if (0 <? idx)%nat then s !! (idx - 1)%nat else None in
      let next_char := if (idx + 1 <? length s)%nat then s !! (idx + 1)%nat else None in
      is_english prev_char || is_english next_char
  | None => true
  end.

(** [''.join(c if c != ' ' or should_keep_space(s, i) else '' for i, c in enumerate(s))] *)
Definition drop_spaces (s : text) : text :=
  List.flat_map
    (fun '(i, c) => if negb (c =? SPACE) || should_keep_space s i then [c] else [])
    (List.combine (seq 0 (length s)) s).

(** [re.sub(r' +', ' ', s)]: every maximal run of spaces becomes one space.
    [in_run] tells that the previous character was a space of the run being
    replaced. *)
Fixpoint merge_spaces_from (in_run : bool) (s : text) : text :=
  match s with
  | [] => []
  | c :: t =>
    if c =? SPACE then
      if in_run then merge_spaces_from true t else SPACE :: merge_spaces_from true t
    else c :: merge_spaces_from false t
  end.

Definition merge_spaces (s : text) : text := merge_spaces_from false s.

Definition clean_whitespace (line : text) : text :=
  let new_line := strip line in
  let new_line := drop_spaces new_line in
  merge_spaces new_line.

(** [drop_spaces] read from left to right: [prev] is the character before
    the current one in the text being scanned. *)
Fixpoint drop_spaces_from (prev : option N) (s : text) : text :=
  match s with
  | [] => []
  | c :: t =>
    if negb (c =? SPACE) || (is_english prev || is_english (head t))
    then c :: drop_spaces_from (Some c) t
    else drop_spaces_from (Some c) t
  end.

(** What a normalised text looks like after [prev]: a space is never
    followed by a space and has an ASCII letter on one side. *)
Fixpoint tidy (prev : option N) (s : text) : Prop :=
  match s with
  | [] => True
  | c :: t =>
    (c = SPACE ->
     head t <> Some SPACE /\ is_english prev || is_english (head t) = true)
    /\ tidy (Some c) t
  end.

End ParseDocUtils.
Export ParseDocUtils.


(** ** Exceptions and results *)

Module Py.

(** The exceptions this program can raise or catch. *)
Inductive exn : Type :=
| AssertionError | UnboundLocalError | IndexError | KeyError | TypeError
| AttributeError | ValueError | JSONDecodeError | FileNotFoundError.

(** A call either returns a value or raises. *)
Inductive outcome (A : Type) : Type :=
| Return (a : A)
| Raise (e : exn).
Arguments Return {A} a.
Arguments Raise {A} e.

Definition bind {A B : Type} (m : outcome A) (f : A -> outcome B) : outcome B :=
  match m with
  | Return a => f a
  | Raise e => Raise e
  end.

#[global] Instance outcome_bind : MBind outcome := fun A B f m => bind m f.
#[global] Instance outcome_ret : MRet outcome := fun A a => Return a.

(** [assert c] *)
Definition assert (c : bool) : outcome unit :=
  if c then Return tt else Raise AssertionError.

(** [sep.join(parts)] *)
Fixpoint join (sep : text) (parts : list text) : text :=
  match parts with
  | [] => []
  | [p] => p
  | p :: rest => p ++ sep ++ join sep rest
  end.

(** [str(n)] for a non-negative integer [n]: its decimal digits. *)
Fixpoint digits_of (fuel : nat) (n : N) (acc : text) : text :=
  match fuel with
  | O => acc
  | S fuel' =>
    let acc' := (0x30 + n mod 10) :: acc in
    if n <? 10 then acc' else digits_of fuel' (n / 10) acc'
  end.

Definition str_of_N (n : N) : text := digits_of (S (N.to_nat (N.log2 n))) n [].

(** [str(z)] for an integer. *)
Definition str_of_Z (z : Z) : text :=
  match z with
  | Zneg p => 0x2D :: str_of_N (Npos p)
  | _ => str_of_N (Z.to_N z)
  end.

(** The ASCII digits, the characters of [str(n)]. *)
Definition is_digit_char (c : N) : Prop := 0x30 <= c <= 0x39.

End Py.
Export Py.

(** ** The slide header extractor ([extract_file_text/parse_ppt.py]) *)

Module ParsePpt.

Local Open Scope Q_scope.

(** What [python-pptx] exposes of a deck: a run's [font.size] is a length in
    EMU or [None]; a shape has a vertical position [top], a length in EMU, or
    [None] when it has no position of its own and inherits none; when it has
    a text frame it has paragraphs. *)
Record paragraph : Type := {
  para_text : text;
  para_runs : list (option Z)      (* [run.font.size] of each run *)
}.

Record shape : Type := {
  has_text_frame : bool;
  top : option Z;
  paragraphs : list paragraph
}.

Abbreviation slide := (list shape).
Abbreviation presentation := (list slide).

(** [Length.pt]: 12700 EMU to the point. *)
Definition pt (emu : Z) : Q := Qmake emu 12700.

(** One entry of [shape_texts]. *)
Record shape_text : Type := {
  st_text : text;
  st_top : option Z;
  st_font_size : Q
}.

(** The loop over [para.runs]: the first run with a size gives it and ends
    the loop; a run without one sets 10 and the loop goes on.  The variable
    [font_size] keeps its value when a paragraph has no run. *)
Fixpoint scan_runs (runs : list (option Z)) (font_size : option Q) : option Q :=
  match runs with
  | [] => font_size
  | r :: rest =>
    match r with
    | Some emu => if negb (emu =? 0)%Z then Some (pt emu) else scan_runs rest (Some (10 # 1))
    | None => scan_runs rest (Some (10 # 1))
    end
  end.

(** The paragraphs of one shape; the state is ([font_size], [shape_texts]). *)
Fixpoint scan_paragraphs (sh_top : option Z) (ps : list paragraph)
         (font_size : option Q) (shape_texts : list shape_text)
  : outcome (option Q * list shape_text) :=
  match ps with
  | [] => Return (font_size, shape_texts)
  | para :: rest =>
    if negb (0 <? length (para_text para))%nat
       || negb (check_line_validity (para_text para) DEFAULT_MIN_LINE_LEN)
    then scan_paragraphs sh_top rest font_size shape_texts
    else
      let font_size := scan_runs (para_runs para) font_size in
      match font_size with
      | None => Raise UnboundLocalError
      | Some fs =>
        scan_paragraphs sh_top rest font_size
          (shape_texts ++ [ {| st_text := clean_whitespace (para_text para);
                               st_top := sh_top; st_font_size := fs |} ])
      end
  end.

Fixpoint scan_shapes (shapes : list shape)
         (font_size : option Q) (shape_texts : list shape_text)
  : outcome (option Q * list shape_text) :=
  match shapes with
  | [] => Return (font_size, shape_texts)
  | sh :: rest =>
    if negb (has_text_frame sh) then scan_shapes rest font_size shape_texts
    else
      '(font_size, shape_texts) ← scan_paragraphs (top sh) (paragraphs sh) font_size shape_texts;
      scan_shapes rest font_size shape_texts
  end.

(** [shape_texts.sort(key=lambda x: x['top'])]: a stable sort on the keys.
    A list of fewer than two items is left as it is, no key being compared;
    in a longer list every key takes part in a comparison, and a comparison
    with [None] raises [TypeError]. *)
Fixpoint with_keys (l : list shape_text) : option (list (Z * shape_text)) :=
  match l with
  | [] => Some []
  | x :: rest =>
    match st_top x, with_keys rest with
    | Some k, Some keyed => Some ((k, x) :: keyed)
    | _, _ => None
    end
  end.

Fixpoint insert_by_top (k : Z) (x : shape_text) (sorted : list (Z * shape_text))
  : list (Z * shape_text) :=
  match sorted with
  | [] => [(k, x)]
  | (k', y) :: ys =>
    if (k <=? k')%Z then (k, x) :: sorted else (k', y) :: insert_by_top k x ys
  end.

Definition sort_keyed (keyed : list (Z * shape_text)) : list (Z * shape_text) :=
  fold_right (fun kx sorted => insert_by_top (fst kx) (snd kx) sorted) [] keyed.

Definition sort_by_top (l : list shape_text) : outcome (list shape_text) :=
  if (length l <? 2)%nat then Return l
  else
    match with_keys l with
    | Some keyed => Return (List.map snd (sort_keyed keyed))
    | None => Raise TypeError
    end.

(** [re.match(r'^\d+[\.\s]', text)] *)
Definition numbered_prefix (t : text) : bool :=
  matches (re_match (seqs [Bol; plus digit; Cls (fun c => (c =? 0x2E)%N || isspace c)]) t).

(** [text.startswith(('• ', '- ', '◦ ', '▪ '))] *)
Definition BULLETS : list text := [u "• "; u "- "; u "◦ "; u "▪ "].

Definition bullet_prefix (t : text) : bool :=
  existsb (fun p => startswith p t) BULLETS.

(** The body of the loop [for i, item in enumerate(shape_texts)]. *)
Definition is_header (min_header_fontsize min_header_rank : Z)
           (i : nat) (item : shape_text) : bool :=
  if (Z.of_nat i <=? min_header_rank)%Z then
    if Qle_bool (inject_Z min_header_fontsize) (st_font_size item) then true else false
  else if numbered_prefix (st_text item) then true
  else if bullet_prefix (st_text item) then true
  else false.

Fixpoint slide_headers_from (min_header_fontsize min_header_rank : Z)
         (i : nat) (items : list shape_text) : list text :=
  match items with
  | [] => []
  | item :: rest =>
    if is_header min_header_fontsize min_header_rank i item
    then st_text item :: slide_headers_from min_header_fontsize min_header_rank (S i) rest
    else slide_headers_from min_header_fontsize min_header_rank (S i) rest
  end.

(** [slide_headers] of one slide, from its sorted [shape_texts]. *)
Definition slide_headers (min_header_fontsize min_header_rank : Z)
           (items : list shape_text) : list text :=
  slide_headers_from min_header_fontsize min_header_rank 0 items.

Fixpoint scan_slides (min_header_fontsize min_header_rank : Z)
         (slides : presentation) (font_size : option Q) (all_headers : list text)
  : outcome (list text) :=
  match slides with
  | [] => Return all_headers
  | sl :: rest =>
    '(font_size, shape_texts) ← scan_shapes sl font_size [];
    shape_texts ← sort_by_top shape_texts;
    let hs := slide_headers min_header_fontsize min_header_rank shape_texts in
    scan_slides min_header_fontsize min_header_rank rest font_size
      (match hs with
       | [] => all_headers
       | _ => all_headers ++ [join [0x0A%N] hs]
       end)
  end.

Definition parse_ppt_to_get_headers (prs : presentation)
           (min_header_fontsize min_header_rank : Z) : outcome (list text) :=
  scan_slides min_header_fontsize min_header_rank prs None [].

Definition DEFAULT_MIN_HEADER_FONTSIZE : Z := 14.
Definition DEFAULT_MIN_HEADER_RANK : Z := 3.

(** What the loops over the shapes and the paragraphs of a slide collect
    when every paragraph they keep has a run: for each kept paragraph, in
    the order of the document, its normalised text, the position of its
    shape, and the size of its first run that has one, 10 when none has. *)
Definition kept (para : paragraph) : bool :=
  (0 <? length (para_text para))%nat
  && check_line_validity (para_text para) DEFAULT_MIN_LINE_LEN.

Definition kept_items (sl : slide) : list shape_text :=
  List.flat_map
    (fun sh =>
       if has_text_frame sh then
         List.map
           (fun para =>
              {| st_text := clean_whitespace (para_text para);
                 st_top := top sh;
                 st_font_size := default (10 # 1) (scan_runs (para_runs para) None) |})
           (List.filter kept (paragraphs sh))
       else [])
    sl.

(** The order of two entries by position. *)
Definition top_le (x y : shape_text) : Prop :=
  exists a b : Z, st_top x = Some a /\ st_top y = Some b /\ (a <= b)%Z.

(** The bullet glyphs of the prefixes of [BULLETS]. *)
Definition BULLET_GLYPHS : list N := [0x2022; 0x2D; 0x25E6; 0x25AA]%N.

(** The classification as the specification words it: the rank of a
    paragraph is its place in the sorted list, the first paragraph having
    rank 1, and a bullet is one of the glyphs at the start of the text. *)
Definition is_header_of_spec (min_header_fontsize min_header_rank : Z)
           (rank : nat) (item : shape_text) : bool :=
  if (Z.of_nat rank <=? min_header_rank)%Z
  then Qle_bool (inject_Z min_header_fontsize) (st_font_size item)
  else numbered_prefix (st_text item)
       || match st_text item with
          | c :: _ => bool_decide (c ∈ BULLET_GLYPHS)
          | [] => false
          end.

End ParsePpt.
Export ParsePpt.

(** ** MD5, as [hashlib.md5] computes it (RFC 1321) *)

Module Md5.

Definition mask32 (x : N) : N := N.land x 0xFFFFFFFF.
Definition add32 (x y : N) : N := mask32 (x + y).
Definition not32 (x : N) : N := N.lxor (mask32 x) 0xFFFFFFFF.
Definition rotl32 (x : N) (c : N) : N :=
  mask32 (N.lor (N.shiftl x c) (N.shiftr (mask32 x) (32 - c))).

Definition K : list N :=
  [
    0xd76aa478; 0xe8c7b756; 0x242070db; 0xc1bdceee;
    0xf57c0faf; 0x4787c62a; 0xa8304613; 0xfd469501;
    0x698098d8; 0x8b44f7af; 0xffff5bb1; 0x895cd7be;
    0x6b901122; 0xfd987193; 0xa679438e; 0x49b40821;
    0xf61e2562; 0xc040b340; 0x265e5a51; 0xe9b6c7aa;
    0xd62f105d; 0x02441453; 0xd8a1e681; 0xe7d3fbc8;
    0x21e1cde6; 0xc33707d6; 0xf4d50d87; 0x455a14ed;
    0xa9e3e905; 0xfcefa3f8; 0x676f02d9; 0x8d2a4c8a;
    0xfffa3942; 0x8771f681; 0x6d9d6122; 0xfde5380c;
    0xa4beea44; 0x4bdecfa9; 0xf6bb4b60; 0xbebfbc70;
    0x289b7ec6; 0xeaa127fa; 0xd4ef3085; 0x04881d05;
    0xd9d4d039; 0xe6db99e5; 0x1fa27cf8; 0xc4ac5665;
    0xf4292244; 0x432aff97; 0xab9423a7; 0xfc93a039;
    0x655b59c3; 0x8f0ccc92; 0xffeff47d; 0x85845dd1;
    0x6fa87e4f; 0xfe2ce6e0; 0xa3014314; 0x4e0811a1;
    0xf7537e82; 0xbd3af235; 0x2ad7d2bb; 0xeb86d391 ].

Definition S : list N :=
  [ 7; 12; 17; 22; 7; 12; 17; 22; 7; 12; 17; 22; 7; 12; 17; 22;
    5; 9; 14; 20; 5; 9; 14; 20; 5; 9; 14; 20; 5; 9; 14; 20;
    4; 11; 16; 23; 4; 11; 16; 23; 4; 11; 16; 23; 4; 11; 16; 23;
    6; 10; 15; 21; 6; 10; 15; 21; 6; 10; 15; 21; 6; 10; 15; 21 ].

(** [n] as [k] bytes, least significant first. *)
Fixpoint le_bytes (k : nat) (n : N) : list N :=
  match k with
  | O => []
  | Datatypes.S k' => (n mod 256) :: le_bytes k' (n / 256)
  end.

Fixpoint le_word (bs : list N) : N :=
  match bs with
  | [] => 0
  | b :: rest => b + 256 * le_word rest
  end.

(** The message with its padding: a 1 bit, zeros up to 56 modulo 64, and the
    length in bits on 8 bytes. *)
Definition pad (msg : list N) : list N :=
  let len := length msg in
  let zeros := ((119 - len mod 64) mod 64)%nat in
  msg ++ [0x80] ++ repeat 0 zeros ++ le_bytes 8 (N.of_nat len * 8).

Fixpoint chunks (fuel : nat) (bs : list N) : list (list N) :=
  match fuel with
  | O => []
  | Datatypes.S fuel' =>
    match bs with
    | [] => []
    | _ => take 64 bs :: chunks fuel' (drop 64 bs)
    end
  end.

Fixpoint words (k : nat) (chunk : list N) : list N :=
  match k with
  | O => []
  | Datatypes.S k' => le_word (take 4 chunk) :: words k' (drop 4 chunk)
  end.

Definition round (M : list N) (st : N * N * N * N) (i : nat) : N * N * N * N :=
  let '(A, B, C, D) := st in
  let '(F, g) :=
    if (i <? 16)%nat then (N.lor (N.land B C) (N.land (not32 B) D), i)
    else if (i <? 32)%nat then
      (N.lor (N.land D B) (N.land (not32 D) C), ((5 * i + 1) mod 16)%nat)
    else if (i <? 48)%nat then (N.lxor (N.lxor B C) D, ((3 * i + 5) mod 16)%nat)
    else (N.lxor C (N.lor B (not32 D)), ((7 * i) mod 16)%nat) in
  let F := add32 (add32 (add32 F A) (nth i K 0)) (nth g M 0) in
  (D, add32 B (rotl32 F (nth i S 0)), B, C).

Definition process (st : N * N * N * N) (chunk : list N) : N * N * N * N :=
  let M := words 16 chunk in
  let '(A, B, C, D) := fold_left (round M) (seq 0 64) st in
  let '(a0, b0, c0, d0) := st in
  (add32 a0 A, add32 b0 B, add32 c0 C, add32 d0 D).

Definition digest (msg : list N) : list N :=
  let p := pad msg in
  let '(a, b, c, d) :=
    fold_left process (chunks (length p) p)
              (0x67452301, 0xefcdab89, 0x98badcfe, 0x10325476) in
  le_bytes 4 a ++ le_bytes 4 b ++ le_bytes 4 c ++ le_bytes 4 d.

Definition hex_digit (n : N) : N := if n <? 10 then 0x30 + n else 0x61 + (n - 10).

(** [hashlib.md5(msg).hexdigest()] *)
Definition hexdigest (msg : list N) : text :=
  List.flat_map (fun b => [hex_digit (b / 16); hex_digit (b mod 16)]) (digest msg).

Definition hex_value (c : N) : N :=
  if (0x30 <=? c) && (c <=? 0x39) then c - 0x30
  else if (0x61 <=? c) && (c <=? 0x66) then c - 0x61 + 10
  else c - 0x41 + 10.

(** [int(s, 16)] on a string of hexadecimal digits. *)
Definition int16 (s : text) : N := fold_left (fun acc c => acc * 16 + hex_value c) s 0.

End Md5.

(** ** The vector index engine ([embedding_and_save.py]) *)

Module EmbeddingAndSave.

(** One document's metadata: the dictionary with the keys [file_name],
    [file_path], [keywords] and [summary]. *)
Record doc_meta : Type := {
  file_name : text;
  file_path : text;
  keywords : list text;
  summary : text
}.

(** A component of a vector, as far as the program looks at it: not a
    number, infinite, or a finite value. *)
Inductive float : Type :=
| NaN
| Inf (negative : bool)
| Fin (q : Q).

Abbreviation vector := (list float).

(** [np.isnan] *)
Definition isnan (x : float) : bool :=
  match x with NaN => true | _ => false end.

(** The default absolute tolerance of [np.allclose], 1e-8, as the decimal
    it is written as.  The comparison of numpy is made with the double
    nearest to it, [ATOL_float64], or with that double rounded to single
    precision, [ATOL_float32]; on the components of a float32 vector the
    three give the same answer. *)
Definition ATOL : Q := 1 # 100000000.
Definition ATOL_float64 : Q := 3022314549036573 # (2 ^ 78).
Definition ATOL_float32 : Q := 11258999 # (2 ^ 50).

(** [np.isclose(x, 0)]: [|x - 0| <= atol + rtol * |0|], false for a value
    that is not finite. *)
Definition isclose0 (x : float) : bool :=
  match x with
  | Fin q => Qle_bool (Qabs q) ATOL
  | _ => false
  end.

(** [np.any(np.isnan(v)) or np.allclose(v, 0)] *)
Definition invalid_vector (v : vector) : bool :=
  existsb isnan v || forallb isclose0 v.

(** The embedding collaborator: its dimension and the vector it gives a text
    under the fixed parameters of [encode].  The record admits any function;
    what [encode] returns with [normalize_embeddings=True] is stated by
    [normalized_output] below. *)
Record SentenceTransformer : Type := {
  get_sentence_embedding_dimension : N;
  encode_text : text -> vector
}.

Definition encode (embedding_model : SentenceTransformer) (texts : list text) : list vector :=
  List.map (encode_text embedding_model) texts.

Definition get_model_fingerprint (embedding_model_name : text)
           (embedding_model : SentenceTransformer) : text :=
  let core_info :=
    embedding_model_name ++ u "_"
      ++ str_of_N (get_sentence_embedding_dimension embedding_model)
      ++ u "_normalize_True" in
  take 8 (Md5.hexdigest (utf8_encode core_info)).

(** The value for a path that UTF-8 can encode ([encodable] below);
    [file_path.encode('utf-8')] raises on a surrogate code point. *)
Definition compute_document_id (path : text) : Z :=
  Z.of_N (Md5.int16 (take 8 (Md5.hexdigest (utf8_encode path)))).

(** [s.split('.')[0]]: the text before the first dot. *)
Fixpoint before_first_dot (s : text) : text :=
  match s with
  | [] => []
  | c :: t => if c =? 0x2E then [] else c :: before_first_dot t
  end.

Definition build_text_for_embedding (metadata_dict : doc_meta) : text :=
  let file_name := file_name metadata_dict in
  let summary := summary metadata_dict in
  let keywords := keywords metadata_dict in
  let keywords :=
    List.map strip (List.filter (fun kw => (0 <? length (strip kw))%nat) keywords) in
  let keywords := take (Nat.min (length keywords) 5) keywords in
  let keywords_str := match keywords with [] => [] | _ => join (u ", ") keywords end in
  let file_name_str := before_first_dot file_name in
  u "passage: " ++ file_name_str ++ u " - " ++ keywords_str ++ u " - " ++ summary.

(** The filter loop of [encode_texts_lst]. *)
Fixpoint filter_vectors (i : nat) (vectors : list vector) : list vector * list nat :=
  match vectors with
  | [] => ([], [])
  | v :: rest =>
    let '(valid_vectors, valid_indices) := filter_vectors (S i) rest in
    if invalid_vector v then (valid_vectors, valid_indices)
    else (v :: valid_vectors, i :: valid_indices)
  end.

(** [None] stands for the pair [(None, None)]. *)
Definition encode_texts_lst (texts_lst : list text) (embedding_model : SentenceTransformer)
  : outcome (option (list vector * list nat)) :=
  _ ← assert (0 <? length texts_lst)%nat;
  let vectors := encode embedding_model texts_lst in
  let '(valid_vectors, valid_indices) := filter_vectors 0 vectors in
  match valid_vectors with
  | [] => Return None
  | _ => Return (Some (valid_vectors, valid_indices))
  end.

(** The vector store: an [IndexIDMap2] over a flat inner-product index is
    the sequence of the vectors added with their ids. *)
Record faiss_index : Type := {
  d : N;
  entries : list (Z * vector)
}.

Definition ntotal (index : faiss_index) : nat := length (entries index).

Definition IndexFlatIP (dim : N) : faiss_index := {| d := dim; entries := [] |}.

(** [index.add_with_ids(vectors, ids)], for vectors of the dimension [d] of
    the index, which faiss asserts. *)
Definition add_with_ids (index : faiss_index) (vectors : list vector) (ids : list Z)
  : faiss_index :=
  {| d := d index; entries := entries index ++ List.combine ids vectors |}.

(** The content of the fingerprint file: an object with the key
    [fingerprint], or any other JSON value. *)
Inductive fingerprint_json : Type :=
| FingerprintRecord (stored : text)
| OtherJson.

(** The three persisted artifacts; [None] for a file that does not exist. *)
Record disk : Type := {
  faiss_index_file : option faiss_index;
  metadata_with_id_file : option (gmap text doc_meta);
  model_fingerprint_file : option fingerprint_json
}.

Definition no_files : disk :=
  {| faiss_index_file := None; metadata_with_id_file := None;
     model_fingerprint_file := None |}.

Definition load_index (embedding_model_name : text) (embedding_model : SentenceTransformer)
           (index : faiss_index) (model_fingerprint : fingerprint_json)
  : faiss_index * text :=
  let model_consistency := u "consistent" in
  let model_consistency :=
    match model_fingerprint with
    | FingerprintRecord stored_fingerprint =>
      let current_fingerprint := get_model_fingerprint embedding_model_name embedding_model in
      if negb (text_eqb stored_fingerprint current_fingerprint)
      then u "changed" else model_consistency
    | OtherJson => model_consistency
    end in
  (index, model_consistency).

(** The three files once [save_index_and_metadata] has run to its end.  The
    code writes them one after the other, the index, the metadata and the
    fingerprint; [json.dump] with [ensure_ascii=False] cannot write a text
    with a surrogate code point to the UTF-8 file, so what is said of the
    files a call leaves is said for [serialisable] documents. *)
Definition save_index_and_metadata (index : faiss_index) (metadata_with_id : gmap text doc_meta)
           (embedding_model_name : text) (embedding_model : SentenceTransformer) : disk :=
  {| faiss_index_file := Some index;
     metadata_with_id_file := Some metadata_with_id;
     model_fingerprint_file :=
       Some (FingerprintRecord (get_model_fingerprint embedding_model_name embedding_model)) |}.

(** [int(k)] on a string: blanks around, a sign, decimal digits with single
    underscores between them.  The limit of CPython on the number of digits
    (4300 by default) is left out. *)
Fixpoint int_digits (acc : N) (after_digit : bool) (s : text) : option N :=
  match s with
  | [] => if after_digit then Some acc else None
  | c :: t =>
    if c =? 0x5F then (if after_digit then int_digits acc false t else None)
    else match decimal_value c with
         | Some v => int_digits (acc * 10 + v) true t
         | None => None
         end
  end.

Definition int (s : text) : outcome Z :=
  let r :=
    match strip s with
    | c :: t =>
      if c =? 0x2D then Z.opp <$> (Z.of_N <$> int_digits 0 false t)
      else if c =? 0x2B then Z.of_N <$> int_digits 0 false t
      else Z.of_N <$> int_digits 0 false (c :: t)
    | [] => None
    end in
  match r with
  | Some z => Return z
  | None => Raise ValueError
  end.

Fixpoint int_keys (ks : list text) : outcome (gset Z) :=
  match ks with
  | [] => Return ∅
  | k :: rest =>
    z ← int k;
    s ← int_keys rest;
    Return ({[ z ]} ∪ s)
  end.

(** The loop over the pending documents; the state is
    ([new_ebd_texts_lst], [new_doc_ids], [new_metadata_dict]). *)
Fixpoint process_documents (existing_doc_ids : gset Z) (docs : list doc_meta)
         (new_ebd_texts_lst : list text) (new_doc_ids : list Z)
         (new_metadata_dict : gmap Z doc_meta)
  : outcome (list text * list Z * gmap Z doc_meta) :=
  match docs with
  | [] => Return (new_ebd_texts_lst, new_doc_ids, new_metadata_dict)
  | doc_meta :: rest =>
    let doc_id := compute_document_id (file_path doc_meta) in
    _ ← assert (negb (bool_decide (doc_id ∈ existing_doc_ids)));
    let ebd_text := build_text_for_embedding doc_meta in
    process_documents existing_doc_ids rest
      (new_ebd_texts_lst ++ [ebd_text]) (new_doc_ids ++ [doc_id])
      (<[doc_id := doc_meta]> new_metadata_dict)
  end.

(** [[l[i] for i in indices]] *)
Fixpoint items_at {A : Type} (l : list A) (indices : list nat) : outcome (list A) :=
  match indices with
  | [] => Return []
  | i :: rest =>
    match l !! i with
    | Some x => xs ← items_at l rest; Return (x :: xs)
    | None => Raise IndexError
    end
  end.

(** [{str(doc_id): new_metadata_dict[doc_id] for doc_id in valid_doc_ids}] *)
Fixpoint metadata_by_str_id (new_metadata_dict : gmap Z doc_meta) (valid_doc_ids : list Z)
         (acc : gmap text doc_meta) : outcome (gmap text doc_meta) :=
  match valid_doc_ids with
  | [] => Return acc
  | doc_id :: rest =>
    match new_metadata_dict !! doc_id with
    | Some m => metadata_by_str_id new_metadata_dict rest (<[str_of_Z doc_id := m]> acc)
    | None => Raise KeyError
    end
  end.

(** [[doc_metadata_list[i]['file_name'] for i in range(len(doc_metadata_list))
      if i not in valid_indices]] *)
Definition names_not_at (docs : list doc_meta) (valid_indices : list nat) : list text :=
  List.flat_map
    (fun '(i, doc) => if bool_decide (i ∈ valid_indices) then [] else [file_name doc])
    (List.combine (seq 0 (length docs)) docs).

(** [index_files] after the store is loaded or created: from the loop over
    the documents to the return. *)
Definition index_loaded (doc_metadata_list : list doc_meta) (embedding_model_name : text)
           (embedding_model : SentenceTransformer) (faiss_index : faiss_index)
           (existing_metadata_dict : gmap text doc_meta) (existing_doc_ids : gset Z)
  : outcome (text * list text * option disk) :=
  '(new_ebd_texts_lst, new_doc_ids, new_metadata_dict) ←
    process_documents existing_doc_ids doc_metadata_list [] [] ∅;
  _ ← assert (length new_ebd_texts_lst =? length doc_metadata_list)%nat;
  encoded ← encode_texts_lst new_ebd_texts_lst embedding_model;
  match encoded with
  | None =>
    Return (u "no_valid_vectors_error", List.map file_name doc_metadata_list, None)
  | Some (valid_vectors, valid_indices) =>
    let invalid_files :=
      if (length valid_vectors <? length doc_metadata_list)%nat
      then names_not_at doc_metadata_list valid_indices else [] in
    valid_doc_ids ← items_at new_doc_ids valid_indices;
    valid_metadata_dict ← metadata_by_str_id new_metadata_dict valid_doc_ids ∅;
    let faiss_index := add_with_ids faiss_index valid_vectors valid_doc_ids in
    let existing_metadata_dict_str_keys := existing_metadata_dict in
    let combined_metadata_dict := valid_metadata_dict ∪ existing_metadata_dict_str_keys in
    _ ← assert (ntotal faiss_index =? size combined_metadata_dict)%nat;
    Return (u "valid_output", invalid_files,
            Some (save_index_and_metadata faiss_index combined_metadata_dict
                    embedding_model_name embedding_model))
  end.

(** [index_files]: the result of the call and the files after it.  The
    files are written by [save_index_and_metadata] only, the last step of a
    successful call. *)
Definition index_files (doc_metadata_list : list doc_meta) (embedding_model_name : text)
           (embedding_model : SentenceTransformer) (files : disk)
  : outcome (text * list text) * disk :=
  if negb (0 <? length doc_metadata_list)%nat then (Raise AssertionError, files)
  else
    let loaded :=
      match faiss_index_file files, metadata_with_id_file files,
            model_fingerprint_file files with
      | Some index, Some existing_metadata_dict, Some model_fingerprint =>
        let '(faiss_index, model_consistency) :=
          load_index embedding_model_name embedding_model index model_fingerprint in
        if text_eqb model_consistency (u "changed")
        then Return (u "model_changed_error", List.map file_name doc_metadata_list, None)
        else
          existing_doc_ids ← int_keys (List.map fst (map_to_list existing_metadata_dict));
          index_loaded doc_metadata_list embedding_model_name embedding_model
            faiss_index existing_metadata_dict existing_doc_ids
      | _, _, _ =>
        let dim := get_sentence_embedding_dimension embedding_model in
        let faiss_index := IndexFlatIP dim in
        index_loaded doc_metadata_list embedding_model_name embedding_model
          faiss_index ∅ ∅
      end in
    match loaded with
    | Return (status, invalid_files, Some written) => (Return (status, invalid_files), written)
    | Return (status, invalid_files, None) => (Return (status, invalid_files), files)
    | Raise e => (Raise e, files)
    end.

(** The stores [index_files] can leave behind, starting without files. *)
Inductive reachable : disk -> Prop :=
| reachable_no_files : reachable no_files
| reachable_index_files (files : disk) (docs : list doc_meta) (name : text)
    (model : SentenceTransformer) :
    reachable files -> reachable (snd (index_files docs name model files)).

(** The number of entries of the store, 0 without a metadata file. *)
Definition entry_count (files : disk) : nat :=
  match metadata_with_id_file files with
  | Some m => size m
  | None => 0
  end.

Definition stored_metadata (files : disk) : gmap text doc_meta :=
  default ∅ (metadata_with_id_file files).

(** The id of a document, the key of its entry in the metadata file, its
    vector, and whether the vector passes the filter of [encode_texts_lst]. *)
Definition doc_id (doc : doc_meta) : Z := compute_document_id (file_path doc).
Definition doc_key (doc : doc_meta) : text := str_of_Z (doc_id doc).
Definition doc_vector (model : SentenceTransformer) (doc : doc_meta) : vector :=
  encode_text model (build_text_for_embedding doc).
Definition survives (model : SentenceTransformer) (doc : doc_meta) : bool :=
  negb (invalid_vector (doc_vector model doc)).
Definition discarded (model : SentenceTransformer) (doc : doc_meta) : bool :=
  invalid_vector (doc_vector model doc).

(** [new_metadata_dict] after the loop over the documents. *)
Definition docs_map (acc : gmap Z doc_meta) (docs : list doc_meta) : gmap Z doc_meta :=
  fold_left (fun m doc => <[doc_id doc := doc]> m) docs acc.

(** What holds of the files [index_files] leaves: none, or all three with as
    many vectors as metadata entries, every key the decimal form of an id. *)
Definition store_inv (files : disk) : Prop :=
  files = no_files \/
  exists index md fp,
    files = {| faiss_index_file := Some index; metadata_with_id_file := Some md;
               model_fingerprint_file := Some (FingerprintRecord fp) |} /\
    ntotal index = size md /\
    forall k, is_Some (md !! k) -> exists z, k = str_of_Z z.

(** The index [index_files] works on: the one it loads when the three files
    exist, a new one otherwise. *)
Definition working_index (model : SentenceTransformer) (files : disk) : faiss_index :=
  match faiss_index_file files, metadata_with_id_file files,
        model_fingerprint_file files with
  | Some index, Some _, Some _ => index
  | _, _, _ => IndexFlatIP (get_sentence_embedding_dimension model)
  end.

(** The stored fingerprint, where there is one, is that of the model. *)
Definition same_model (name : text) (model : SentenceTransformer) (files : disk) : Prop :=
  forall stored, model_fingerprint_file files = Some (FingerprintRecord stored) ->
                 stored = get_model_fingerprint name model.

(** The file name without its extension, as the specification words it: the
    name up to its last dot. *)
Fixpoint file_stem (name : text) : text :=
  match name with
  | [] => []
  | c :: t =>
    if (c =? 0x2E) && negb (existsb (N.eqb 0x2E) t) then [] else c :: file_stem t
  end.

(** The canonical embedding text as the specification words it. *)
Definition canonical_text_of_spec (metadata_dict : doc_meta) : text :=
  let cleaned :=
    List.filter (fun kw => (0 <? length kw)%nat) (List.map strip (keywords metadata_dict)) in
  u "passage: " ++ file_stem (file_name metadata_dict) ++ u " - "
    ++ join (u ", ") (take 5 cleaned) ++ u " - " ++ summary metadata_dict.

End EmbeddingAndSave.
Export EmbeddingAndSave.

(** ** Concrete inputs *)

Module Examples.

(** A model of dimension 2 that sends a text ending in "!" to the zero
    vector and any other text to a unit vector. *)
Definition demo_model : SentenceTransformer :=
  {| get_sentence_embedding_dimension := 2;
     encode_text := fun t =>
       if bool_decide (last t = Some 0x21) then [Fin 0; Fin 0] else [Fin 1; Fin 0] |}.

(** A model of another dimension. *)
Definition other_model : SentenceTransformer :=
  {| get_sentence_embedding_dimension := 3;
     encode_text := fun _ => [Fin 0; Fin 1; Fin 0] |}.

Definition demo_name : text := u "multilingual-e5-small".

Definition doc (name path summary : string) : doc_meta :=
  {| file_name := u name; file_path := u path;
     keywords := [u "plan"; u " budget "]; summary := u summary |}.

Definition batch_A : list doc_meta :=
  [ doc "a.pdf" "/docs/a.pdf" "Plan for the first quarter";
    doc "b.pdf" "/docs/b.pdf" "Budget of the second quarter";
    doc "c.pptx" "/docs/c.pptx" "Slides of the review" ].

Definition batch_B : list doc_meta :=
  [ doc "d.pdf" "/docs/d.pdf" "Minutes of the board";
    doc "e.pptx" "/docs/e.pptx" "Slides of the kickoff" ].

(** The second text of this batch ends in "!". *)
Definition batch_with_zero : list doc_meta :=
  [ doc "a.pdf" "/docs/a.pdf" "Plan for the first quarter";
    doc "b.pdf" "/docs/b.pdf" "Budget!";
    doc "c.pptx" "/docs/c.pptx" "Slides of the review" ].

(** A batch that names one document twice. *)
Definition batch_twice : list doc_meta :=
  [ doc "d.pdf" "/docs/d.pdf" "Minutes of the board";
    doc "d.pdf" "/docs/d.pdf" "Minutes of the board" ].

Definition files_after_A : disk := snd (index_files batch_A demo_name demo_model no_files).

(** The three files, left by a model with another fingerprint. *)
Definition stale_files : disk :=
  {| faiss_index_file := Some (IndexFlatIP 2);
     metadata_with_id_file := Some ∅;
     model_fingerprint_file := Some (FingerprintRecord (u "00000000")) |}.

End Examples.

(** ** The summarisation step ([extract_and_summarize.py]) *)

Module Prompt.

(** [prompt_template], stripped, around its two fields. *)
Definition template_head : text :=
  u "你是文档分析专家。请根据下面标记为“原文内容”的部分, 提取3-5个**关键词**, 并分别生成一段高质量的**中文摘要**。

        要求如下：

        - 内容需**忠实于原文，不要编造**
        - 摘要为**一段连贯自然的话**, 讲述核心内容**不要用套话**, 不要重复文件名
        - 参考文件名，但**不要仅凭文件名判断内容**
        - **不要基于文件作者或机构介绍写摘要**（如公司历史、机构信息、埃森哲、麦肯锡）

        ---

        现在内容如下：

        文件名：".

Definition template_middle : text :=
  u "

        原文内容：▋
        ".

Definition template_tail : text :=
  u "
        ▋

        ⚠️ 输出格式要求：
        仅返回有效的 JSON 格式内容，格式如下：
        {
        " ++ [0x22] ++ u "keywords" ++ [0x22] ++ u ": [" ++ [0x22] ++ u "" ++ [0x22] ++ u ", " ++ [0x22] ++ u "" ++ [0x22] ++ u ", " ++ [0x22] ++ u "" ++ [0x22] ++ u "],
        " ++ [0x22] ++ u "summary" ++ [0x22] ++ u ": " ++ [0x22] ++ u "" ++ [0x22] ++ u "
        }

        ❌ 不要加入解释、markdown、标题
        ❌ 不要重复 instructions 中的内容
        ❌ 摘要中不要包含文件名或机构介绍".

End Prompt.

(** ** JSON values and [json.loads] *)

Module Json.

Inductive json : Type :=
| JNull
| JBool (b : bool)
| JNumber (literal : text)      (* a number, by its literal *)
| JString (s : text)
| JArray (items : list json)
| JObject (members : list (text * json)).   (* in the order of the document *)

Definition is_ws (c : N) : bool :=
  (c =? 0x20) || (c =? 0x09) || (c =? 0x0A) || (c =? 0x0D).

Fixpoint skip_ws (s : text) : text :=
  match s with
  | c :: t => if is_ws c then skip_ws t else s
  | [] => []
  end.

Definition is_ascii_digit (c : N) : bool := (0x30 <=? c) && (c <=? 0x39).

Fixpoint span_digits (s : text) : text * text :=
  match s with
  | c :: t =>
    if is_ascii_digit c then let '(ds, rest) := span_digits t in (c :: ds, rest)
    else ([], s)
  | [] => ([], [])
  end.

(** A number: an optional minus, 0 or a digit string without leading 0, an
    optional fraction, an optional exponent. *)
Definition parse_number (s : text) : option (text * text) :=
  let '(sign, s1) :=
    match s with
    | c :: t => if c =? 0x2D then ([c], t) else ([], s)
    | [] => ([], s)
    end in
  let int_part :=
    match s1 with
    | c :: t =>
      if c =? 0x30 then Some ([c], t)
      else if is_ascii_digit c then let '(ds, rest) := span_digits s1 in Some (ds, rest)
      else None
    | [] => None
    end in
  match int_part with
  | None => None
  | Some (ip, s2) =>
    let '(frac, s3) :=
      match s2 with
      | c :: t =>
        if c =? 0x2E then
          match span_digits t with
          | ([], _) => ([], s2)
          | (ds, rest) => (c :: ds, rest)
          end
        else ([], s2)
      | [] => ([], s2)
      end in
    let '(ex, s4) :=
      match s3 with
      | c :: t =>
        if (c =? 0x65) || (c =? 0x45) then
          let '(sg, t') :=
            match t with
            | c' :: t'' => if (c' =? 0x2B) || (c' =? 0x2D) then ([c'], t'') else ([], t)
            | [] => ([], t)
            end in
          match span_digits t' with
          | ([], _) => ([], s3)
          | (ds, rest) => (c :: sg ++ ds, rest)
          end
        else ([], s3)
      | [] => ([], s3)
      end in
    Some (sign ++ ip ++ frac ++ ex, s4)
  end.

Definition hex_digit_value (c : N) : option N :=
  if (0x30 <=? c) && (c <=? 0x39) then Some (c - 0x30)
  else if (0x61 <=? c) && (c <=? 0x66) then Some (c - 0x61 + 10)
  else if (0x41 <=? c) && (c <=? 0x46) then Some (c - 0x41 + 10)
  else None.

Definition parse_hex4 (s : text) : option (N * text) :=
  match s with
  | a :: b :: c :: d :: rest =>
    match hex_digit_value a, hex_digit_value b, hex_digit_value c, hex_digit_value d with
    | Some x, Some y, Some z, Some w => Some (((x * 16 + y) * 16 + z) * 16 + w, rest)
    | _, _, _, _ => None
    end
  | _ => None
  end.

(** The body of a string, after its opening quote, up to the closing one;
    control characters are refused and a surrogate pair is joined. *)
Fixpoint parse_string_body (fuel : nat) (s : text) (acc : text) : option (text * text) :=
  match fuel with
  | O => None
  | S fuel' =>
    match s with
    | [] => None
    | c :: t =>
      if c =? 0x22 then Some (acc, t)
      else if c <? 0x20 then None
      else if c =? 0x5C then
        match t with
        | [] => None
        | e :: t' =>
          if e =? 0x22 then parse_string_body fuel' t' (acc ++ [0x22])
          else if e =? 0x5C then parse_string_body fuel' t' (acc ++ [0x5C])
          else if e =? 0x2F then parse_string_body fuel' t' (acc ++ [0x2F])
          else if e =? 0x62 then parse_string_body fuel' t' (acc ++ [0x08])
          else if e =? 0x66 then parse_string_body fuel' t' (acc ++ [0x0C])
          else if e =? 0x6E then parse_string_body fuel' t' (acc ++ [0x0A])
          else if e =? 0x72 then parse_string_body fuel' t' (acc ++ [0x0D])
          else if e =? 0x74 then parse_string_body fuel' t' (acc ++ [0x09])
          else if e =? 0x75 then
            match parse_hex4 t' with
            | None => None
            | Some (hi, t'') =>
              if (0xD800 <=? hi) && (hi <=? 0xDBFF) then
                match t'' with
                | b :: v :: t3 =>
                  if (b =? 0x5C) && (v =? 0x75) then
                    match parse_hex4 t3 with
                    | Some (lo, t4) =>
                      if (0xDC00 <=? lo) && (lo <=? 0xDFFF)
                      then parse_string_body fuel' t4
                             (acc ++ [0x10000 + (hi - 0xD800) * 1024 + (lo - 0xDC00)])
                      else parse_string_body fuel' t'' (acc ++ [hi])
                    | None => parse_string_body fuel' t'' (acc ++ [hi])
                    end
                  else parse_string_body fuel' t'' (acc ++ [hi])
                | _ => parse_string_body fuel' t'' (acc ++ [hi])
                end
              else parse_string_body fuel' t'' (acc ++ [hi])
            end
          else None
        end
      else parse_string_body fuel' t (acc ++ [c])
    end
  end.

Definition parse_string (s : text) : option (text * text) :=
  parse_string_body (S (length s)) s [].

(** One value at the head of [s], and what follows it. *)
Fixpoint parse_value (fuel : nat) (s : text) {struct fuel} : option (json * text) :=
  match fuel with
  | O => None
  | S fuel' =>
    match s with
    | [] => None
    | c :: t =>
      if c =? 0x22 then
        match parse_string t with
        | Some (str, rest) => Some (JString str, rest)
        | None => None
        end
      else if c =? 0x7B then
        match skip_ws t with
        | c' :: t' =>
          if c' =? 0x7D then Some (JObject [], t')
          else parse_members fuel' (c' :: t') []
        | [] => None
        end
      else if c =? 0x5B then
        match skip_ws t with
        | c' :: t' =>
          if c' =? 0x5D then Some (JArray [], t')
          else parse_elements fuel' (c' :: t') []
        | [] => None
        end
      else if startswith (u "null") s then Some (JNull, drop 4 s)
      else if startswith (u "true") s then Some (JBool true, drop 4 s)
      else if startswith (u "false") s then Some (JBool false, drop 5 s)
      else if startswith (u "NaN") s then Some (JNumber (u "NaN"), drop 3 s)
      else if startswith (u "Infinity") s then Some (JNumber (u "Infinity"), drop 8 s)
      else if startswith (u "-Infinity") s then Some (JNumber (u "-Infinity"), drop 9 s)
      else
        match parse_number s with
        | Some (lit, rest) => Some (JNumber lit, rest)
        | None => None
        end
    end
  end
with parse_members (fuel : nat) (s : text) (acc : list (text * json)) {struct fuel}
  : option (json * text) :=
  match fuel with
  | O => None
  | S fuel' =>
    match s with
    | c :: t =>
      if c =? 0x22 then
        match parse_string t with
        | Some (key, rest) =>
          match skip_ws rest with
          | c1 :: t1 =>
            if c1 =? 0x3A then
              match parse_value fuel' (skip_ws t1) with
              | Some (v, rest') =>
                match skip_ws rest' with
                | c2 :: t2 =>
                  if c2 =? 0x7D then Some (JObject (acc ++ [(key, v)]), t2)
                  else if c2 =? 0x2C then parse_members fuel' (skip_ws t2) (acc ++ [(key, v)])
                  else None
                | [] => None
                end
              | None => None
              end
            else None
          | [] => None
          end
        | None => None
        end
      else None
    | [] => None
    end
  end
with parse_elements (fuel : nat) (s : text) (acc : list json) {struct fuel}
  : option (json * text) :=
  match fuel with
  | O => None
  | S fuel' =>
    match parse_value fuel' s with
    | Some (v, rest) =>
      match skip_ws rest with
      | c :: t =>
        if c =? 0x5D then Some (JArray (acc ++ [v]), t)
        else if c =? 0x2C then parse_elements fuel' (skip_ws t) (acc ++ [v])
        else None
      | [] => None
      end
    | None => None
    end
  end.

(** [json.loads(s)]: one value with blanks around it; anything else raises
    [JSONDecodeError].  The limits of CPython are left out: a text nested
    deeper than the recursion limit raises [RecursionError] there, and an
    integer literal of more than 4300 digits [ValueError]. *)
Definition loads (s : text) : outcome json :=
  match parse_value (S (length s)) (skip_ws s) with
  | Some (v, rest) =>
    match skip_ws rest with
    | [] => Return v
    | _ => Raise JSONDecodeError
    end
  | None => Raise JSONDecodeError
  end.

(** [d[key]] on the dictionary of an object: the last member with that key. *)
Fixpoint member (key : text) (members : list (text * json)) : option json :=
  match members with
  | [] => None
  | (k, v) :: rest =>
    match member key rest with
    | Some v' => Some v'
    | None => if text_eqb k key then Some v else None
    end
  end.

Fixpoint distinct_keys (members : list (text * json)) : list text :=
  match members with
  | [] => []
  | (k, _) :: rest =>
    if existsb (text_eqb k) (List.map fst rest) then distinct_keys rest
    else k :: distinct_keys rest
  end.

(** [info[key]] *)
Definition getitem (info : json) (key : text) : outcome json :=
  match info with
  | JObject members =>
    match member key members with
    | Some v => Return v
    | None => Raise KeyError
    end
  | _ => Raise TypeError
  end.

(** [len(v)] *)
Definition len (v : json) : outcome nat :=
  match v with
  | JString s => Return (length s)
  | JArray items => Return (length items)
  | JObject members => Return (length (distinct_keys members))
  | _ => Raise TypeError
  end.

(** [v.strip()]: only a string has the method. *)
Definition strip_method (v : json) : outcome text :=
  match v with
  | JString s => Return (strip s)
  | _ => Raise AttributeError
  end.

(** The first top-level JSON object found anywhere in a text, as the
    specification words it: at the leftmost position where an object can be
    decoded, the text of that object. *)
Fixpoint first_top_level_json_object (s : text) : option text :=
  match s with
  | [] => None
  | c :: t =>
    match (if c =? 0x7B then parse_value (S (length s)) s else None) with
    | Some (JObject _, rest) => Some (take (length s - length rest) s)
    | _ => first_top_level_json_object t
    end
  end.

End Json.

Module ExtractAndSummarize.

Import Json.

(** What one request to the text-generation service comes to:
    [requests.post] or [response.json()] raises a [RequestException], or
    something else is raised, or the body is decoded and holds the field
    [response] or not. *)
Inductive http_reply : Type :=
| RequestException
| OtherException
| Body (response : option text).

(** The service: the reply to the [i]-th request of a run, given its prompt. *)
Abbreviation service := (nat -> text -> http_reply).

Definition prompt_of (file_name : text) (text_blocks : list text) : text :=
  let blocks_str := join [0x0A] (List.map (fun b => u "- " ++ b) text_blocks) in
  Prompt.template_head ++ file_name ++ Prompt.template_middle ++ blocks_str
    ++ Prompt.template_tail.

(** The text [call_ollama_for_summarization] returns for a reply. *)
Definition output_of (reply : http_reply) : text :=
  match reply with
  | RequestException => u "http_request_error"
  | OtherException => u "unknown_ollama_error"
  | Body (Some response) => strip response
  | Body None => strip []
  end.

Definition max_retries : nat := 3.

(** The loop [while retry_count < max_retries]; [remaining] is
    [max_retries - retry_count], [log] the replies received so far. *)
Fixpoint retry_loop (ollama : service) (prompt : text) (remaining : nat)
         (llm_output : text) (log : list http_reply) : text * list http_reply :=
  match remaining with
  | O => (llm_output, log)
  | S remaining' =>
    let reply := ollama (length log) prompt in
    let llm_output := output_of reply in
    let log := log ++ [reply] in
    if (0 <? length llm_output)%nat && (100 <=? length llm_output)%nat
    then (llm_output, log)
    else retry_loop ollama prompt remaining' llm_output log
  end.

(** [s.replace(old, '')]; [skip] counts the characters of an occurrence
    still to drop. *)
Fixpoint remove_from (old : text) (skip : nat) (s : text) : text :=
  match s with
  | [] => []
  | c :: t =>
    match skip with
    | S skip' => remove_from old skip' t
    | O =>
      match old with
      | [] => c :: remove_from old 0 t
      | _ :: old' =>
        if startswith old s then remove_from old (length old') t
        else c :: remove_from old 0 t
      end
    end
  end.

Definition remove_all (old s : text) : text := remove_from old 0 s.

(** [\{.*\}] under [re.DOTALL] *)
Definition BRACES : regex := seqs [lit 0x7B; Star any; lit 0x7D].

(** What is left after the closing brace a greedy [.*] backtracks to: the
    continuation of [.*\}]. *)
Definition closing_brace (s : text) : option text :=
  match s with
  | c :: rest => if 0x7D =? c then Some rest else None
  | [] => None
  end.

(** The greedy [.*] under [re.DOTALL] followed by [k]: the longest prefix is
    tried first. *)
Fixpoint greedy_any (k : text -> option text) (s : text) : option text :=
  match s with
  | [] => k []
  | _ :: t =>
    match greedy_any k t with
    | Some x => Some x
    | None => k s
    end
  end.

(** What the [try] block catches. *)
Definition caught (e : exn) : bool :=
  match e with
  | KeyError | TypeError | JSONDecodeError => true
  | _ => false
  end.

(** The body of the [try] block. *)
Definition read_info (info : json) (file_name : text)
  : outcome (text * option json * option text) :=
  v ← getitem info (u "summary");
  summary ← strip_method v;
  keywords ← getitem info (u "keywords");
  let summary := strip (remove_all file_name summary) in
  if (length summary <? 50)%nat then Return (u "invalid_output_error", None, None)
  else
    n ← len keywords;
    if (n <? 1)%nat then Return (u "invalid_output_error", None, None)
    else Return (u "valid_output", Some keywords, Some summary).

(** [summarize_file_by_llm] after the loop: from the last output to the
    returned triple. *)
Definition read_output (llm_output : text) (file_name : text)
  : outcome (text * option json * option text) :=
  if text_eqb llm_output (u "http_request_error")
     || text_eqb llm_output (u "unknown_ollama_error")
  then Return (llm_output, None, None)
  else
    match re_search BRACES llm_output with
    | None => Return (u "json_parse_error", None, None)
    | Some json_str =>
      info ← loads json_str;
      match read_info info file_name with
      | Raise e => if caught e then Return (u "json_parse_error", None, None) else Raise e
      | r => r
      end
    end.

(** The result of the call and the replies of the service, one for each
    request made. *)
Definition summarize_file_by_llm (ollama : service) (text_blocks : list text)
           (file_name : text)
  : outcome (text * option json * option text) * list http_reply :=
  let prompt := prompt_of file_name text_blocks in
  let '(llm_output, log) := retry_loop ollama prompt max_retries [] [] in
  (read_output llm_output file_name, log).

(** An output that is not one of the two texts [call_ollama_for_summarization]
    returns for a failed request. *)
Definition not_sentinel (out : text) : Prop :=
  out <> u "http_request_error" /\ out <> u "unknown_ollama_error".

End ExtractAndSummarize.
Export ExtractAndSummarize.

(** ** The search path ([search_files.py], [scripts/app_funcs.py]) *)

Module SearchFiles.

(** What a run does to its collaborators, in order. *)
Inductive event : Type :=
| Encode (texts : list text)                    (* [embedding_model.encode] *)
| ReadIndex                                     (* [faiss.read_index] *)
| Search (query_vec : vector) (top_k : nat)     (* [index.search] *)
| ReadMetadata                                  (* [json.load] of the metadata *)
| ShowError.                                    (* [st.error] *)

Section Search.

(** The top-k inner-product search of the vector store: the scores and the
    ids of the first row of its answer, -1 standing for no match. *)
Variable index_search : faiss_index -> vector -> nat -> list float * list Z.

(** The loop over [zip(doc_ids[0], scores[0])]. *)
Fixpoint collect_results (metadata_with_id : gmap text doc_meta)
         (pairs : list (Z * float)) : outcome (list (doc_meta * float)) :=
  match pairs with
  | [] => Return []
  | (doc_id, score) :: rest =>
    if (doc_id =? -1)%Z then collect_results metadata_with_id rest
    else
      match metadata_with_id !! str_of_Z doc_id with
      | Some result =>
        searched_result ← collect_results metadata_with_id rest;
        Return ((result, score) :: searched_result)
      | None => Raise KeyError
      end
  end.

(** [search_by_embedding], for files that [faiss.read_index] and [json.load]
    can read and a query vector of the dimension of the index: the
    exceptions of the collaborators (the dimension assert of faiss, a
    metadata file that does not parse) are left out. *)
Definition search_by_embedding (query : text) (embedding_model : SentenceTransformer)
           (files : disk) (top_k : nat)
  : outcome (list (doc_meta * float)) * list event :=
  match faiss_index_file files, metadata_with_id_file files with
  | Some index, Some metadata_with_id =>
    let query_vec := encode_text embedding_model query in
    let '(scores, doc_ids) := index_search index query_vec top_k in
    (collect_results metadata_with_id (List.combine doc_ids scores),
     [Encode [query]; ReadIndex; Search query_vec top_k; ReadMetadata])
  | _, _ => (Raise FileNotFoundError, [])
  end.

(** [search_files] of [app_funcs.py], the entry point of a search. *)
Definition search_files (query : text) (top_k : nat) (embedding_model : SentenceTransformer)
           (files : disk) : outcome (list (doc_meta * float)) * list event :=
  match metadata_with_id_file files, faiss_index_file files with
  | Some _, Some _ =>
    let query := u "query: " ++ strip query in
    search_by_embedding query embedding_model files top_k
  | _, _ => (Return [], [ShowError])
  end.

End Search.

End SearchFiles.
Export SearchFiles.

(** ** Concrete replies of the text-generation service *)

Module Replies.

Definition quoted (s : string) : text := [0x22] ++ u s ++ [0x22].

(** A well-formed answer, 124 characters long. *)
Definition good_response : text :=
  u "{" ++ quoted "keywords" ++ u ": [" ++ quoted "plan" ++ u ", " ++ quoted "budget"
    ++ u "], " ++ quoted "summary" ++ u ": "
    ++ quoted "The document sets out the plan and the budget of the first quarter in detail."
    ++ u "}".

(** The same answer with a remark in braces after it. *)
Definition response_with_remark : text := good_response ++ u " {see the note}".

(** A service whose first request fails at the transport level and whose
    later requests succeed. *)
Definition flaky : nat -> text -> http_reply :=
  fun i _ => match i with O => RequestException | _ => Body (Some good_response) end.

(** A service that is never reachable. *)
Definition unreachable : nat -> text -> http_reply := fun _ _ => RequestException.

(** A service that answers at once. *)
Definition steady : nat -> text -> http_reply := fun _ _ => Body (Some good_response).

End Replies.

(** ** The other extractors ([parse_ppt.py], [parse_pdf.py]) *)

Module Extractors.

Local Open Scope Q_scope.

(** What the two text loops of [parse_ppt.py] keep of a paragraph:
    [text = para.text.strip()], kept when it is not empty and valid, then
    normalised. *)
Definition kept_paragraph (para : paragraph) : option text :=
  let text := strip (para_text para) in
  if (0 <? length text)%nat && check_line_validity text DEFAULT_MIN_LINE_LEN
  then Some (clean_whitespace text) else None.

(** [silde_text] of one slide. *)
Definition slide_paragraphs (sl : slide) : list text :=
  List.flat_map
    (fun sh => if has_text_frame sh then omap kept_paragraph (paragraphs sh) else [])
    sl.

Definition parse_ppt_by_slide (prs : presentation) : list text :=
  List.flat_map
    (fun sl => match slide_paragraphs sl with
               | [] => []
               | silde_text => [join [0x0A%N] silde_text]
               end)
    prs.

(** A text block of a PDF page as [page.get_text("dict")] gives it: its
    type, the vertical bounds of its box, and the texts of the spans of each
    of its lines.  Coordinates are taken as rationals. *)
Record pdf_block : Type := {
  block_type : Z;
  y0 : Q;
  y1 : Q;
  block_lines : list (list text)
}.

Record pdf_page : Type := {
  page_height : Q;
  page_blocks : list pdf_block
}.

Abbreviation pdf_document := (list pdf_page).

Definition Qlt_bool (a b : Q) : bool := negb (Qle_bool b a).

(** The lines of a block that are kept. *)
Definition block_kept_lines (b : pdf_block) : list text :=
  List.filter
    (fun line_text =>
       (0 <? length line_text)%nat && check_line_validity line_text DEFAULT_MIN_LINE_LEN)
    (List.map (join [SPACE]) (block_lines b)).

(** The text a block contributes, if any. *)
Definition block_text (page_height : Q) (min_block_len header_height footer_height : Z)
           (b : pdf_block) : option text :=
  if negb (block_type b =? 0)%Z then None
  else if Qlt_bool (y0 b) (inject_Z header_height)
          || Qlt_bool (page_height - inject_Z footer_height) (y1 b)
  then None
  else
    match block_kept_lines b with
    | [] => None
    | lines =>
      let block_text := join [SPACE] lines in
      let block_text := clean_whitespace block_text in
      let block_text := strip block_text in
      if (Z.of_nat (length block_text) <? min_block_len)%Z then None else Some block_text
    end.

(** [parse_pdf_to_block_info] with [only_text=True], as [parse_document]
    calls it. *)
Definition parse_pdf_to_block_info (doc : pdf_document)
           (min_block_len header_height footer_height : Z) : list text :=
  List.flat_map
    (fun page =>
       omap (block_text (page_height page) min_block_len header_height footer_height)
            (page_blocks page))
    doc.

(** Every paragraph that is kept has a run. *)
Definition kept_have_runs (prs : presentation) : Prop :=
  Forall (fun sl =>
    Forall (fun sh =>
      has_text_frame sh = true ->
      Forall (fun para =>
        negb (0 <? length (para_text para))%nat
        || negb (check_line_validity (para_text para) DEFAULT_MIN_LINE_LEN) = false ->
        para_runs para <> []) (paragraphs sh)) sl) prs.

End Extractors.
Export Extractors.

(** ** Dispatch on the file ([document_parser.py]) and the helpers of the
    front end ([scripts/app_funcs.py]) *)

Module DocumentParser.

(** [s.endswith(suffix)] *)
Definition endswith (suffix s : text) : bool := startswith (rev suffix) (rev s).

(** [os.path.basename]: what follows the last slash. *)
Fixpoint basename (path : text) : text :=
  match path with
  | [] => []
  | c :: t => if existsb (N.eqb 0x2F) path then basename t else path
  end.

(** The source files: which paths exist, and what the two readers make of a
    path ([None] when the reader raises). *)
Record world : Type := {
  path_exists : text -> bool;
  open_pdf : text -> option pdf_document;
  open_pptx : text -> option presentation
}.

Definition load_existing_file_names (files : disk) : option (list text) :=
  match metadata_with_id_file files with
  | None => None
  | Some metadata_with_id =>
    match List.map (fun kv => file_name (snd kv)) (map_to_list metadata_with_id) with
    | [] => None
    | existing_files => Some existing_files
    end
  end.

Definition parse_by_type (w : world) (file_path file_name : text)
  : outcome (option (list text)) :=
  if endswith (u ".pdf") file_name then
    match open_pdf w file_path with
    | Some doc => Return (Some (parse_pdf_to_block_info doc 10 100 100))
    | None => Raise ValueError
    end
  else if endswith (u ".pptx") file_name then
    match open_pptx w file_path with
    | Some prs =>
      match parse_ppt_to_get_headers prs DEFAULT_MIN_HEADER_FONTSIZE DEFAULT_MIN_HEADER_RANK with
      | Return headers => Return (Some headers)
      | Raise _ => Raise ValueError
      end
    | None => Raise ValueError
    end
  else Return None.

Definition parse_document (w : world) (file_path : text) (files : disk)
  : outcome (option (list text)) :=
  if negb (path_exists w file_path) then Return None
  else
    let file_name := basename file_path in
    match load_existing_file_names files with
    | Some existing_file_names =>
      if bool_decide (file_name ∈ existing_file_names) then Return None
      else parse_by_type w file_path file_name
    | None => parse_by_type w file_path file_name
    end.

(** [cut_text] of [app_funcs.py]. *)
Definition char_length (c : N) : Z := if 127 <? c then 2%Z else 1%Z.

Definition calculate_length (s : text) : Z :=
  fold_right (fun c acc => (char_length c + acc)%Z) 0%Z s.

(** The loop of [cut_text]: the characters added to [truncated_text]. *)
Fixpoint cut_loop (max_length current_length : Z) (s : text) : text :=
  match s with
  | [] => []
  | c :: t =>
    if (max_length <? current_length + char_length c)%Z then []
    else c :: cut_loop max_length (current_length + char_length c)%Z t
  end.

Definition cut_text (s : text) (max_length : Z) : text :=
  if (calculate_length s <=? max_length)%Z then s
  else cut_loop max_length 0 s ++ u "...".

End DocumentParser.
Export DocumentParser.

(** ** Predicates of the further properties *)

Module Further.

(** The lower-case hexadecimal digits. *)
Definition is_hex_char (c : N) : Prop := 0x30 <= c <= 0x39 \/ 0x61 <= c <= 0x66.

(** Every vector of the index has its metadata entry. *)
Definition index_ids_stored (index : faiss_index) (md : gmap text doc_meta) : Prop :=
  forall z v, (z, v) ∈ entries index -> is_Some (md !! str_of_Z z).

(** [np.isfinite] *)
Definition isfinite (x : float) : bool :=
  match x with Fin _ => true | _ => false end.

(** The finite values of single precision: a significand of 24 bits scaled
    by a power of two between 2^-149 and 2^104. *)
Definition float32 (q : Q) : Prop :=
  exists m k : Z,
    (Z.abs m < 2 ^ 24)%Z /\ (0 <= k <= 253)%Z /\ (q == (m * 2 ^ k) # (2 ^ 149))%Q.

(** What [encode] returns for a text with [convert_to_numpy=True] and
    [normalize_embeddings=True]: a row of a float32 array of the model's
    dimension, divided by its norm.  A component is a finite value or, where
    the embedding overflowed or its norm was not finite, NaN; an infinite
    component does not come out of the normalisation. *)
Definition normalized_output (model : SentenceTransformer) : Prop :=
  forall t : text,
    length (encode_text model t) = N.to_nat (get_sentence_embedding_dimension model) /\
    Forall (fun x => match x with NaN => True | Inf _ => False | Fin q => float32 q end)
           (encode_text model t).

(** A text UTF-8 can encode: every code point is a Unicode scalar value, none
    a surrogate. *)
Definition encodable (s : text) : bool :=
  forallb (fun c => (c <? 0xD800) || ((0xDFFF <? c) && (c <=? 0x10FFFF))) s.

(** A document whose texts the tokenizer and the metadata file can take. *)
Definition serialisable (doc : doc_meta) : bool :=
  encodable (file_name doc) && encodable (file_path doc)
  && forallb encodable (keywords doc) && encodable (summary doc).

Definition serialisable_store (files : disk) : Prop :=
  forall k m, stored_metadata files !! k = Some m -> serialisable m = true.

(** The calls of [index_files] that this development describes to their
    end: the documents are serialisable, the encoder returns normalised
    vectors, of the dimension of the index the call works on. *)
Definition modelled_call (docs : list doc_meta) (model : SentenceTransformer)
           (files : disk) : Prop :=
  forallb serialisable docs = true /\ normalized_output model /\
  d (working_index model files) = get_sentence_embedding_dimension model.

(** The stores such calls build, starting without files. *)
Inductive built : disk -> Prop :=
| built_no_files : built no_files
| built_index_files (files : disk) (docs : list doc_meta) (name : text)
    (model : SentenceTransformer) :
    built files -> modelled_call docs model files ->
    built (snd (index_files docs name model files)).

(** The shape of the files a run of [index_files] calls leaves. *)
Definition well_formed_store (files : disk) : Prop :=
  files = no_files \/
  exists index md fp,
    files = {| faiss_index_file := Some index; metadata_with_id_file := Some md;
               model_fingerprint_file := Some (FingerprintRecord fp) |} /\
    ntotal index = size md /\
    (forall k, is_Some (md !! k) -> exists z, k = str_of_Z z /\ int k = Return z) /\
    index_ids_stored index md.

End Further.
Export Further.

(** ** One file from parsing to summary ([summarize_file] of
    [scripts/app_funcs.py]) *)

Module AppFuncs.

(** [os.path.join(a, b)] of [posixpath]. *)
Definition os_path_join (a b : text) : text :=
  if startswith [0x2F] b then b
  else if (length a =? 0)%nat || endswith [0x2F] a then a ++ b
  else a ++ [0x2F] ++ b.

Section SummarizeFile.

(** The readers of the source files, [select_top_text_blocks], which
    ranks the blocks with the embedding model, and the text-generation
    service. *)
Variable w : world.
Variable select_top_text_blocks : list text -> nat -> outcome (list text).
Variable ollama : nat -> text -> http_reply.

Definition summarize_file (file_folder file_name : text) (files : disk)
  : outcome (text * option Json.json * option text) * list http_reply :=
  match parse_document w (os_path_join file_folder file_name) files with
  | Raise e => (Raise e, [])
  | Return None => (Return (u "text_blocks_error", None, None), [])
  | Return (Some text_blocks) =>
    let selected :=
      if endswith (u ".pptx") file_name then Some (select_top_text_blocks text_blocks 10)
      else if endswith (u ".pdf") file_name then Some (select_top_text_blocks text_blocks 20)
      else None in
    match selected with
    | None => (Return (u "file_type_error", None, None), [])
    | Some (Raise ValueError) => (Return (u "top_text_blocks_error", None, None), [])
    | Some (Raise e) => (Raise e, [])
    | Some (Return selected_blocks) => summarize_file_by_llm ollama selected_blocks file_name
    end
  end.

End SummarizeFile.

End AppFuncs.
Export AppFuncs.

(** ** Concrete slides *)

Module Decks.

(** A paragraph of one run of the given size in points. *)
Definition para (s : string) (size_pt : Z) : paragraph :=
  {| para_text := u s; para_runs := [Some (size_pt * 12700)%Z] |}.

(** A text box at the given height. *)
Definition text_box (y : Z) (ps : list paragraph) : shape :=
  {| has_text_frame := true; top := Some y; paragraphs := ps |}.

(** Five paragraphs, not in the order of their positions; in that order
    their sizes are 20, 20, 10, 10, 10. *)
Definition review_slide : slide :=
  [ text_box 300 [para "Revenue grew in all regions" 10];
    text_box 100 [para "Annual review" 20];
    text_box 500 [para "Closing remarks" 10];
    text_box 200 [para "Market overview" 20];
    text_box 400 [para "Costs were flat" 10] ].

(** The same slide with a fifth paragraph that starts with a bullet glyph
    and no space after it. *)
Definition bullet_slide : slide :=
  [ text_box 100 [para "Annual review" 20];
    text_box 200 [para "Market overview" 20];
    text_box 300 [para "Revenue grew in all regions" 10];
    text_box 400 [para "Costs were flat" 10];
    text_box 500 [para "•Closing remarks" 10] ].

(** Five paragraphs of size 20. *)
Definition large_slide : slide :=
  [ text_box 100 [para "Annual review" 20];
    text_box 200 [para "Market overview" 20];
    text_box 300 [para "Revenue grew in all regions" 20];
    text_box 400 [para "Costs were flat" 20];
    text_box 500 [para "Closing remarks" 20] ].

(** Two text boxes, the second without a position. *)
Definition unplaced_slide : slide :=
  [ text_box 100 [para "Annual review" 20];
    {| has_text_frame := true; top := None;
       paragraphs := [para "Market overview" 20] |} ].

End Decks.
Export Decks.

(** * Properties *)

(** ** The line classifier *)

Section LineClassifier.

Lemma utf8_literal_example : u "第3页" = [0x7B2C; 0x33; 0x9875].
Proof. vm_compute. reflexivity. Qed.

Lemma catalog_line_dotted_leader : is_catalog_line (u "Introduction ........ 12") = true.
Proof. vm_compute. reflexivity. Qed.

Lemma catalog_line_outline_prefix : is_catalog_line (u "1.2 Background and more") = true.
Proof. vm_compute. reflexivity. Qed.

(** C9: with the default minimum length the classifier rejects the page
    markers "Page 12", "第3页", "1/10" and the banner "Confidential — internal
    use only", and accepts the sentence about quarterly revenue. *)
Theorem check_line_validity_literals :
  check_line_validity (u "Page 12") DEFAULT_MIN_LINE_LEN = false /\
  check_line_validity (u "第3页") DEFAULT_MIN_LINE_LEN = false /\
  check_line_validity (u "1/10") DEFAULT_MIN_LINE_LEN = false /\
  check_line_validity (u "Confidential — internal use only") DEFAULT_MIN_LINE_LEN = false /\
  check_line_validity
    (u "The quarterly revenue grew by 12% driven by new store openings")
    DEFAULT_MIN_LINE_LEN = true.
Proof. repeat split; vm_compute; reflexivity. Qed.

End LineClassifier.

(** ** The whitespace normaliser *)

Section CleanWhitespace.

Lemma should_keep_space_at (p t : text) (c : N) :
  negb (c =? SPACE) || should_keep_space (p ++ c :: t) (length p)
  = negb (c =? SPACE) || (is_english (last p) || is_english (head t)).
Proof.
  unfold should_keep_space.
  rewrite list_lookup_middle by reflexivity.
  destruct (c =? SPACE) eqn:Hc; simpl; [|reflexivity].
  f_equal.
  - destruct p as [|a p] using rev_ind; [reflexivity|].
    rewrite length_app. simpl.
    replace (0 <? length p + 1)%nat with true by (symmetry; apply Nat.ltb_lt; lia).
    replace (length p + 1 - 1)%nat with (length p) by lia.
    rewrite <- app_assoc. simpl.
    rewrite list_lookup_middle by reflexivity.
    now rewrite last_snoc.
  - rewrite length_app. simpl.
    destruct t as [|b t]; simpl.
    + replace (length p + 1 <? length p + 1)%nat with false
        by (symmetry; apply Nat.ltb_ge; lia).
      reflexivity.
    + replace (length p + 1 <? length p + S (S (length t)))%nat with true
        by (symmetry; apply Nat.ltb_lt; lia).
      replace (p ++ c :: b :: t) with ((p ++ [c]) ++ b :: t) by now rewrite <- app_assoc.
      rewrite list_lookup_middle by (rewrite length_app; simpl; lia).
      reflexivity.
Qed.

Lemma drop_spaces_scan (p t : text) :
  List.flat_map
    (fun '(i, c) =>
       if negb (c =? SPACE) || should_keep_space (p ++ t) i then [c] else [])
    (List.combine (seq (length p) (length t)) t)
  = drop_spaces_from (last p) t.
Proof.
  revert p. induction t as [|c t IH]; intros p; [reflexivity|].
  simpl. rewrite should_keep_space_at.
  specialize (IH (p ++ [c])).
  rewrite <- app_assoc, length_app, last_snoc in IH. simpl in IH.
  replace (length p + 1)%nat with (S (length p)) in IH by lia.
  rewrite IH.
  destruct (negb (c =? SPACE) || (is_english (last p) || is_english (head t)));
    reflexivity.
Qed.

Lemma drop_spaces_structural (s : text) : drop_spaces s = drop_spaces_from None s.
Proof. exact (drop_spaces_scan [] s). Qed.

Lemma tidy_any_prev (p q : option N) (s : text) :
  is_english p = false -> tidy p s -> tidy q s.
Proof.
  destruct s as [|c t]; simpl; [tauto|].
  intros Hp [H1 H2]. split; [|exact H2].
  intros Hc. destruct (H1 Hc) as [Hn He]. split; [exact Hn|].
  rewrite Hp in He. simpl in He. rewrite He. apply orb_true_r.
Qed.

Lemma tidy_drop_spaces (prev : option N) (s : text) :
  tidy prev s -> drop_spaces_from prev s = s.
Proof.
  revert prev. induction s as [|c t IH]; intros prev; simpl; [reflexivity|].
  intros [H1 H2]. rewrite (IH _ H2).
  destruct (c =? SPACE) eqn:Hc; simpl; [|reflexivity].
  apply N.eqb_eq in Hc. destruct (H1 Hc) as [_ He]. now rewrite He.
Qed.

Lemma tidy_merge_spaces (prev : option N) (b : bool) (s : text) :
  tidy prev s -> (b = true -> head s <> Some SPACE) -> merge_spaces_from b s = s.
Proof.
  revert prev b. induction s as [|c t IH]; intros prev b; simpl; [reflexivity|].
  intros [H1 H2] Hb.
  destruct (c =? SPACE) eqn:Hc.
  - apply N.eqb_eq in Hc. subst c.
    destruct b; [exfalso; now apply Hb|].
    f_equal. apply (IH (Some SPACE)); [exact H2|]. intros _. now apply H1.
  - f_equal. apply (IH (Some c)); [exact H2|]. discriminate.
Qed.

Lemma is_english_head_letter (t : text) :
  is_english (head t) = true ->
  exists l t', t = l :: t' /\ is_ascii_alpha l = true /\ (l =? SPACE) = false.
Proof.
  destruct t as [|l t']; simpl; [discriminate|].
  intros H. exists l, t'. repeat split; [exact H|].
  apply N.eqb_neq. intros ->. vm_compute in H. discriminate.
Qed.

(** The invariant of the two passes run one after the other. *)
Lemma merge_drop_tidy (s : text) : forall (prev : option N) (b : bool),
  (b = true -> prev = Some SPACE) ->
  let X := merge_spaces_from b (drop_spaces_from prev s) in
  if b then head X <> Some SPACE /\ tidy (Some SPACE) X else tidy prev X.
Proof.
  induction s as [|c t IH]; intros prev b Hb; simpl.
  { destruct b; simpl; [split; [discriminate|exact I]|exact I]. }
  destruct (c =? SPACE) eqn:Hc; simpl.
  - apply N.eqb_eq in Hc. subst c.
    destruct (is_english prev || is_english (head t)) eqn:Hk; simpl.
    + destruct b.
      * (* a second space of a run: merged away *)
        apply (IH (Some SPACE) true). intros _. reflexivity.
      * pose proof (IH (Some SPACE) true (fun _ => eq_refl)) as [Hh Ht]. simpl.
        split; [|exact Ht]. intros _. split; [exact Hh|].
        destruct (is_english prev) eqn:Hp; [reflexivity|]. simpl in Hk |- *.
        destruct (is_english_head_letter t Hk) as (l & t' & -> & Hl & Hs).
        simpl. rewrite Hs. simpl. rewrite Hs. simpl. exact Hl.
    + destruct b.
      * apply (IH (Some SPACE) true). intros _. reflexivity.
      * apply (tidy_any_prev (Some SPACE)); [reflexivity|].
        apply (IH (Some SPACE) false). discriminate.
  - pose proof (IH (Some c) false) as Ht. simpl in Ht.
    assert (Hne : c <> SPACE) by now apply N.eqb_neq.
    destruct b; simpl; rewrite ?Hc; simpl.
    + split; [intros [= E]; now apply Hne|]. split; [intros; contradiction|].
      apply Ht. discriminate.
    + split; [intros; contradiction|]. apply Ht. discriminate.
Qed.

Lemma merge_drop_head (c : N) (t : text) :
  (c =? SPACE) = false ->
  head (merge_spaces_from false (drop_spaces_from None (c :: t))) = Some c.
Proof. intros Hc. simpl. rewrite Hc. simpl. rewrite Hc. reflexivity. Qed.

Lemma merge_drop_last (s : text) : forall (prev : option N) (b : bool) (c : N),
  last s = Some c -> (c =? SPACE) = false ->
  last (merge_spaces_from b (drop_spaces_from prev s)) = Some c.
Proof.
  induction s as [|x t IH]; intros prev b c Hl Hc; [discriminate|].
  destruct t as [|y t].
  - simpl in Hl. injection Hl as ->. simpl. rewrite Hc. simpl. rewrite Hc. reflexivity.
  - rewrite last_cons_cons in Hl.
    assert (Hnil : forall p b', merge_spaces_from b' (drop_spaces_from p (y :: t)) <> []).
    { intros p b' E. specialize (IH p b' c Hl Hc). rewrite E in IH. discriminate. }
    change (drop_spaces_from prev (x :: y :: t)) with
      (if negb (x =? SPACE) || (is_english prev || is_english (Some y))
       then x :: drop_spaces_from (Some x) (y :: t)
       else drop_spaces_from (Some x) (y :: t)).
    destruct (negb (x =? SPACE) || (is_english prev || is_english (Some y)));
      [|now apply IH].
    change (merge_spaces_from b (x :: drop_spaces_from (Some x) (y :: t))) with
      (if x =? SPACE
       then if b then merge_spaces_from true (drop_spaces_from (Some x) (y :: t))
            else SPACE :: merge_spaces_from true (drop_spaces_from (Some x) (y :: t))
       else x :: merge_spaces_from false (drop_spaces_from (Some x) (y :: t))).
    destruct (x =? SPACE); [destruct b|]; try now apply IH.
    + specialize (Hnil (Some x) true).
      destruct (merge_spaces_from true (drop_spaces_from (Some x) (y :: t))) eqn:E;
        [contradiction|].
      rewrite last_cons_cons. rewrite <- E. now apply IH.
    + specialize (Hnil (Some x) false).
      destruct (merge_spaces_from false (drop_spaces_from (Some x) (y :: t))) eqn:E;
        [contradiction|].
      rewrite last_cons_cons. rewrite <- E. now apply IH.
Qed.

Lemma isspace_SPACE (c : N) : isspace c = false -> (c =? SPACE) = false.
Proof.
  intros H. apply N.eqb_neq. intros ->. vm_compute in H. discriminate.
Qed.

Lemma lstrip_head (s : text) :
  lstrip s = [] \/ exists c t, lstrip s = c :: t /\ isspace c = false.
Proof.
  induction s as [|c t IH]; simpl; [now left|].
  destruct (isspace c) eqn:Hc; [exact IH|]. right. now exists c, t.
Qed.

Lemma rstrip_last (s : text) :
  rstrip s = [] \/ exists c, last (rstrip s) = Some c /\ isspace c = false.
Proof.
  induction s as [|c t IH]; simpl; [now left|].
  destruct (rstrip t) as [|y r] eqn:E.
  - destruct (isspace c) eqn:Hc; [now left|]. right. now exists c.
  - right. destruct IH as [IH|(d & Hd & Hs)]; [discriminate|].
    exists d. now rewrite last_cons_cons.
Qed.

Lemma rstrip_keeps_head (c : N) (t : text) :
  isspace c = false -> exists t', rstrip (c :: t) = c :: t'.
Proof.
  intros Hc. simpl. destruct (rstrip t) as [|y r].
  - rewrite Hc. now exists [].
  - now exists (y :: r).
Qed.

Lemma lstrip_fixed (c : N) (t : text) : isspace c = false -> lstrip (c :: t) = c :: t.
Proof. intros Hc. simpl. now rewrite Hc. Qed.

Lemma rstrip_fixed (s : text) (c : N) :
  last s = Some c -> isspace c = false -> rstrip s = s.
Proof.
  induction s as [|x t IH]; intros Hl Hc; [reflexivity|].
  destruct t as [|y t].
  - simpl in Hl. injection Hl as ->. simpl. now rewrite Hc.
  - rewrite last_cons_cons in Hl.
    change (rstrip (x :: y :: t)) with
      (match rstrip (y :: t) with
       | [] => if isspace x then [] else [x]
       | r => x :: r
       end).
    now rewrite (IH Hl Hc).
Qed.

(** The shape of a stripped text. *)
Lemma strip_shape (s : text) :
  strip s = [] \/
  exists a t b, strip s = a :: t /\ isspace a = false /\
                last (strip s) = Some b /\ isspace b = false.
Proof.
  unfold strip. destruct (lstrip_head s) as [->|(a & t & -> & Ha)]; [now left|].
  right. destruct (rstrip_keeps_head a t Ha) as [t' Ht'].
  destruct (rstrip_last (a :: t)) as [E|(b & Hb & Hs)]; [congruence|].
  exists a, t', b. now rewrite <- Ht'.
Qed.

Lemma strip_fixed (s : text) (a b : N) (t : text) :
  s = a :: t -> isspace a = false -> last s = Some b -> isspace b = false ->
  strip s = s.
Proof.
  intros -> Ha Hl Hb. unfold strip. rewrite (lstrip_fixed _ _ Ha).
  now apply (rstrip_fixed _ b).
Qed.

Lemma clean_whitespace_unfold (s : text) :
  clean_whitespace s = merge_spaces_from false (drop_spaces_from None (strip s)).
Proof. unfold clean_whitespace, merge_spaces. now rewrite drop_spaces_structural. Qed.

Lemma clean_whitespace_tidy (s : text) : tidy None (clean_whitespace s).
Proof.
  rewrite clean_whitespace_unfold.
  apply (merge_drop_tidy (strip s) None false). discriminate.
Qed.

(** The ends of a normalised text are not whitespace. *)
Lemma clean_whitespace_ends (s : text) :
  clean_whitespace s = [] \/
  exists a t b, clean_whitespace s = a :: t /\ isspace a = false /\
                last (clean_whitespace s) = Some b /\ isspace b = false.
Proof.
  rewrite clean_whitespace_unfold.
  destruct (strip_shape s) as [->|(a & t & b & E & Ha & Hl & Hb)]; [now left|].
  right. rewrite E in *.
  pose proof (merge_drop_head a t (isspace_SPACE _ Ha)) as Hh.
  pose proof (merge_drop_last (a :: t) None false b Hl (isspace_SPACE _ Hb)) as Hl'.
  destruct (merge_spaces_from false (drop_spaces_from None (a :: t))) as [|a' t'];
    [discriminate|].
  injection Hh as ->. now exists a, t', b.
Qed.

(** The index-based reading of [tidy]. *)
Lemma tidy_lookup (s : text) : forall (prev : option N) (i : nat),
  tidy prev s -> s !! i = Some SPACE ->
  s !! S i <> Some SPACE /\
  (is_english (match i with O => prev | S j => s !! j end)
   || is_english (s !! S i) = true).
Proof.
  induction s as [|c t IH]; intros prev i Ht Hi; [discriminate|].
  destruct Ht as [H1 H2]. destruct i as [|i]; simpl in *.
  - injection Hi as ->. destruct (H1 eq_refl) as [Hn He].
    rewrite <- head_lookup. split; assumption.
  - destruct (IH (Some c) i H2 Hi) as [Hn He]. split; [exact Hn|].
    destruct i; exact He.
Qed.

End CleanWhitespace.

(** C10: [clean_whitespace] is idempotent; one application already yields a
    text whose ends are not spaces, in which no space follows a space and in
    which every space has an ASCII letter just before or just after it. *)
Theorem clean_whitespace_idempotent (s : text) :
  clean_whitespace (clean_whitespace s) = clean_whitespace s /\
  head (clean_whitespace s) <> Some SPACE /\
  last (clean_whitespace s) <> Some SPACE /\
  (forall i, clean_whitespace s !! i = Some SPACE ->
     clean_whitespace s !! S i <> Some SPACE /\
     exists l, is_ascii_alpha l = true /\
       ((exists j, i = S j /\ clean_whitespace s !! j = Some l) \/
        clean_whitespace s !! S i = Some l)).
Proof.
  pose proof (clean_whitespace_tidy s) as Ht.
  pose proof (clean_whitespace_ends s) as He.
  split; [|split; [|split]].
  - destruct He as [E|(a & t & b & E & Ha & Hl & Hb)]; [now rewrite E|].
    rewrite (clean_whitespace_unfold (clean_whitespace s)).
    rewrite (strip_fixed _ a b t E Ha Hl Hb).
    rewrite (tidy_drop_spaces _ _ Ht).
    apply (tidy_merge_spaces None); [exact Ht|discriminate].
  - destruct He as [E|(a & t & b & E & Ha & Hl & Hb)]; rewrite E; [discriminate|].
    simpl. intros [= ->]. vm_compute in Ha. discriminate.
  - destruct He as [E|(a & t & b & E & Ha & Hl & Hb)]; [rewrite E; discriminate|].
    rewrite Hl. intros [= ->]. vm_compute in Hb. discriminate.
  - intros i Hi. destruct (tidy_lookup _ None i Ht Hi) as [Hn Hor].
    split; [exact Hn|].
    apply orb_true_iff in Hor. destruct Hor as [Hp|Hx].
    + destruct i as [|j]; [discriminate|].
      destruct (clean_whitespace s !! j) as [l|] eqn:El; [|discriminate].
      exists l. split; [exact Hp|]. left. now exists j.
    + destruct (clean_whitespace s !! S i) as [l|] eqn:El; [|discriminate].
      exists l. split; [exact Hx|]. now right.
Qed.

(** ** Results and exceptions *)

Lemma bind_return {A B : Type} (a : A) (f : A -> outcome B) : (Return a ≫= f) = f a.
Proof. reflexivity. Qed.

(** ** The slide header extractor *)

Section SlideHeaders.

Local Open Scope Z_scope.

Lemma is_header_early (fs rk : Z) (i : nat) (item : shape_text) :
  Z.of_nat i <= rk ->
  is_header fs rk i item = Qle_bool (inject_Z fs) (st_font_size item).
Proof.
  intros H. unfold is_header. apply Z.leb_le in H. rewrite H.
  now destruct (Qle_bool _ _).
Qed.

Lemma is_header_late (fs rk : Z) (i : nat) (item : shape_text) :
  rk < Z.of_nat i ->
  is_header fs rk i item = numbered_prefix (st_text item) || bullet_prefix (st_text item).
Proof.
  intros H. unfold is_header. apply Z.leb_gt in H. rewrite H.
  destruct (numbered_prefix _), (bullet_prefix _); reflexivity.
Qed.

(** A text that starts with digits and a dot or a blank has a numbered
    prefix, whatever follows. *)
Lemma numbered_prefix_2_dot (t : text) : numbered_prefix (u "2. " ++ t) = true.
Proof.
  change (u "2. ") with [0x32; 0x2E; 0x20]%N.
  unfold numbered_prefix, re_match. simpl. now rewrite Nat.eqb_refl.
Qed.

Lemma slide_headers_from_spec (fs rk : Z) (items : list shape_text) :
  forall (i0 : nat) (t : text),
    t ∈ slide_headers_from fs rk i0 items <->
    exists j item, items !! j = Some item /\ st_text item = t /\
                   is_header fs rk (i0 + j) item = true.
Proof.
  induction items as [|x rest IH]; intros i0 t; simpl.
  - split; [intros H; inversion H|intros (j & item & H & _); discriminate].
  - assert (Hrest : t ∈ slide_headers_from fs rk (S i0) rest <->
              exists j item, (x :: rest) !! S j = Some item /\ st_text item = t /\
                             is_header fs rk (i0 + S j) item = true).
    { rewrite IH. split; intros (j & item & H1 & H2 & H3); exists j, item;
        (split; [exact H1|split; [exact H2|]]);
        now replace (i0 + S j)%nat with (S i0 + j)%nat in * by lia. }
    destruct (is_header fs rk i0 x) eqn:Hx.
    + rewrite elem_of_cons, Hrest. split.
      * intros [->|(j & item & H)].
        -- exists 0%nat, x. rewrite Nat.add_0_r. now repeat split.
        -- exists (S j), item. exact H.
      * intros ([|j] & item & H1 & H2 & H3).
        -- left. simpl in H1. injection H1 as ->. now symmetry.
        -- right. now exists j, item.
    + rewrite Hrest. split.
      * intros (j & item & H). now exists (S j), item.
      * intros ([|j] & item & H1 & H2 & H3).
        -- simpl in H1. injection H1 as ->. rewrite Nat.add_0_r in H3. congruence.
        -- now exists j, item.
Qed.

(** The headers come in the order of the list. *)
Lemma slide_headers_from_sublist (fs rk : Z) (items : list shape_text) : forall i0 : nat,
  sublist (slide_headers_from fs rk i0 items) (List.map st_text items).
Proof.
  induction items as [|x rest IH]; intros i0; [constructor|].
  cbn [slide_headers_from List.map]. destruct (is_header _ _ _ _).
  - apply sublist_skip, IH.
  - apply sublist_cons, IH.
Qed.

End SlideHeaders.

Section SortByTop.

Local Open Scope Z_scope.

Lemma insert_by_top_perm (k : Z) (x : shape_text) (s : list (Z * shape_text)) :
  Permutation (insert_by_top k x s) ((k, x) :: s).
Proof.
  induction s as [|[k' y] s IH]; [reflexivity|].
  cbn [insert_by_top]. destruct (k <=? k'); [reflexivity|].
  etransitivity; [apply perm_skip, IH|apply perm_swap].
Qed.

Lemma insert_by_top_sorted (k : Z) (x : shape_text) (s : list (Z * shape_text)) :
  StronglySorted (fun a b => fst a <= fst b) s ->
  StronglySorted (fun a b => fst a <= fst b) (insert_by_top k x s).
Proof.
  induction 1 as [|[k' y] s Hs IH Hall]; cbn [insert_by_top].
  - repeat constructor.
  - destruct (Z.leb_spec k k') as [Hle|Hgt].
    + constructor; [now constructor|]. constructor; [exact Hle|].
      eapply Forall_impl; [exact Hall|]. cbn. intros a Ha. lia.
    + constructor; [exact IH|].
      apply (Permutation_Forall (Permutation_sym (insert_by_top_perm k x s))).
      constructor; [cbn; lia|exact Hall].
Qed.

(** An entry goes before the entries of the same key: the sort is stable. *)
Lemma insert_by_top_filter (key k : Z) (x : shape_text) (s : list (Z * shape_text)) :
  List.filter (fun kx => fst kx =? key) (insert_by_top k x s)
  = List.filter (fun kx => fst kx =? key) ((k, x) :: s).
Proof.
  induction s as [|[k' y] s IH]; [reflexivity|].
  cbn [insert_by_top]. destruct (Z.leb_spec k k') as [Hle|Hgt]; [reflexivity|].
  cbn [List.filter fst] in *. rewrite IH.
  destruct (Z.eqb_spec k key) as [E1|]; destruct (Z.eqb_spec k' key) as [E2|];
    try reflexivity.
  exfalso. lia.
Qed.

Lemma sort_keyed_perm (keyed : list (Z * shape_text)) : Permutation (sort_keyed keyed) keyed.
Proof.
  induction keyed as [|[k x] keyed IH]; [reflexivity|].
  cbn [sort_keyed fold_right fst snd]. fold (sort_keyed keyed).
  etransitivity; [apply insert_by_top_perm|now apply perm_skip].
Qed.

Lemma sort_keyed_sorted (keyed : list (Z * shape_text)) :
  StronglySorted (fun a b => fst a <= fst b) (sort_keyed keyed).
Proof.
  induction keyed as [|[k x] keyed IH]; [constructor|].
  cbn [sort_keyed fold_right fst snd]. fold (sort_keyed keyed).
  now apply insert_by_top_sorted.
Qed.

Lemma sort_keyed_filter (key : Z) (keyed : list (Z * shape_text)) :
  List.filter (fun kx => fst kx =? key) (sort_keyed keyed)
  = List.filter (fun kx => fst kx =? key) keyed.
Proof.
  induction keyed as [|[k x] keyed IH]; [reflexivity|].
  cbn [sort_keyed fold_right fst snd]. fold (sort_keyed keyed).
  rewrite insert_by_top_filter. cbn [List.filter fst]. now rewrite IH.
Qed.

Lemma with_keys_spec (l : list shape_text) : forall keyed,
  with_keys l = Some keyed ->
  List.map snd keyed = l /\
  Forall (fun kx => st_top (snd kx) = Some (fst kx)) keyed.
Proof.
  induction l as [|x rest IH]; intros keyed H; cbn [with_keys] in H.
  - injection H as <-. split; constructor.
  - destruct (st_top x) as [k|] eqn:Hk; [|discriminate].
    destruct (with_keys rest) as [kl|]; [|discriminate].
    injection H as <-. destruct (IH kl eq_refl) as [Hm Hf].
    split; [cbn; now rewrite Hm|now constructor].
Qed.

Lemma with_keys_some (l : list shape_text) :
  Forall (fun x => is_Some (st_top x)) l -> exists keyed, with_keys l = Some keyed.
Proof.
  induction 1 as [|x rest [k Hk] _ [kl IH]]; [now exists []|].
  exists ((k, x) :: kl). cbn [with_keys]. now rewrite Hk, IH.
Qed.

Lemma with_keys_none (l : list shape_text) :
  Exists (fun x => st_top x = None) l -> with_keys l = None.
Proof.
  induction 1 as [x rest Hx|x rest _ IH]; cbn [with_keys].
  - now rewrite Hx.
  - rewrite IH. now destruct (st_top x).
Qed.

Lemma filter_by_key (key : Z) (keyed : list (Z * shape_text)) :
  Forall (fun kx => st_top (snd kx) = Some (fst kx)) keyed ->
  List.filter (fun x => bool_decide (st_top x = Some key)) (List.map snd keyed)
  = List.map snd (List.filter (fun kx => fst kx =? key) keyed).
Proof.
  induction 1 as [|[k x] keyed Hk _ IH]; [reflexivity|].
  cbn [List.map List.filter fst snd] in *. rewrite IH, Hk.
  destruct (Z.eqb_spec k key) as [->|Hne].
  - now rewrite bool_decide_eq_true_2.
  - rewrite bool_decide_eq_false_2; [reflexivity|congruence].
Qed.

Lemma sorted_by_key (keyed : list (Z * shape_text)) :
  Forall (fun kx => st_top (snd kx) = Some (fst kx)) keyed ->
  StronglySorted (fun a b => fst a <= fst b) keyed ->
  StronglySorted top_le (List.map snd keyed).
Proof.
  intros Hf Hs. induction Hs as [|[k x] keyed Hs IH Hall]; [constructor|].
  apply Forall_cons in Hf. destruct Hf as [Hk Hf]. cbn [List.map snd fst] in *.
  constructor; [now apply IH|].
  apply Forall_forall. intros y Hy. apply list_elem_of_In, in_map_iff in Hy.
  destruct Hy as ([k' y'] & <- & Hin). cbn [snd].
  exists k, k'. split; [exact Hk|]. split.
  - apply (proj1 (Forall_forall _ _) Hf (k', y')). now apply list_elem_of_In.
  - apply (proj1 (Forall_forall _ _) Hall (k', y')). now apply list_elem_of_In.
Qed.

Lemma sort_by_top_outcomes (l : list shape_text) :
  (exists sorted, sort_by_top l = Return sorted) \/ sort_by_top l = Raise TypeError.
Proof.
  unfold sort_by_top. destruct (_ <? _)%nat; [left; eauto|].
  destruct (with_keys l); [left; eauto|now right].
Qed.

(** Where every entry has a position the sort returns the entries in the
    order of their positions, those of one position in their first order. *)
Lemma sort_by_top_spec (l : list shape_text) :
  Forall (fun x => is_Some (st_top x)) l ->
  exists sorted,
    sort_by_top l = Return sorted /\
    Permutation sorted l /\
    StronglySorted top_le sorted /\
    forall key, List.filter (fun x => bool_decide (st_top x = Some key)) sorted
                = List.filter (fun x => bool_decide (st_top x = Some key)) l.
Proof.
  intros Hl. destruct (with_keys_some l Hl) as [keyed Hk].
  destruct (with_keys_spec l keyed Hk) as [Hm Hf].
  assert (Hfs : Forall (fun kx => st_top (snd kx) = Some (fst kx)) (sort_keyed keyed))
    by exact (Permutation_Forall (Permutation_sym (sort_keyed_perm keyed)) Hf).
  exists (List.map snd (sort_keyed keyed)). split; [|split; [|split]].
  - unfold sort_by_top. rewrite Hk.
    destruct (Nat.ltb_spec (length l) 2) as [Hlt|_]; [|reflexivity].
    f_equal. rewrite <- Hm.
    destruct keyed as [|kx [|ky keyed]]; [reflexivity|now destruct kx|].
    rewrite <- Hm in Hlt. cbn in Hlt. lia.
  - rewrite <- Hm. apply Permutation_map, sort_keyed_perm.
  - apply sorted_by_key; [exact Hfs|apply sort_keyed_sorted].
  - intros key. rewrite <- Hm.
    rewrite !filter_by_key by assumption. now rewrite sort_keyed_filter.
Qed.

Lemma sort_by_top_unplaced (l : list shape_text) :
  (2 <= length l)%nat -> Exists (fun x => st_top x = None) l ->
  sort_by_top l = Raise TypeError.
Proof.
  intros Hlen Hex. unfold sort_by_top.
  replace (length l <? 2)%nat with false by (symmetry; apply Nat.ltb_ge; exact Hlen).
  now rewrite (with_keys_none l Hex).
Qed.

End SortByTop.

Section ScanSlide.

Local Open Scope nat_scope.

Lemma scan_runs_restart (runs : list (option Z)) (font_size : option Q) :
  runs <> [] -> scan_runs runs font_size = scan_runs runs None.
Proof. destruct runs as [|r rest]; [contradiction|reflexivity]. Qed.

Lemma scan_runs_some (runs : list (option Z)) : forall font_size,
  runs <> [] \/ is_Some font_size -> is_Some (scan_runs runs font_size).
Proof.
  induction runs as [|r rest IH]; intros font_size H.
  - destruct H as [H|H]; [contradiction|exact H].
  - cbn [scan_runs]. destruct r as [emu|]; [destruct (negb _); [eauto|]|];
      apply IH; right; eauto.
Qed.

Lemma skipped_iff_not_kept (para : paragraph) :
  negb (0 <? length (para_text para))
  || negb (check_line_validity (para_text para) DEFAULT_MIN_LINE_LEN)
  = negb (kept para).
Proof. unfold kept. now rewrite negb_andb. Qed.

Lemma scan_paragraphs_items (sh_top : option Z) (ps : list paragraph) :
  Forall (fun para =>
            negb (0 <? length (para_text para))
            || negb (check_line_validity (para_text para) DEFAULT_MIN_LINE_LEN) = false ->
            para_runs para <> []) ps ->
  forall font_size shape_texts,
    exists font_size',
      scan_paragraphs sh_top ps font_size shape_texts
      = Return (font_size',
                shape_texts ++
                List.map
                  (fun para =>
                     {| st_text := clean_whitespace (para_text para);
                        st_top := sh_top;
                        st_font_size :=
                          default (10 # 1)%Q (scan_runs (para_runs para) None) |})
                  (List.filter kept ps)).
Proof.
  induction 1 as [|para rest Hp _ IH]; intros font_size shape_texts.
  - exists font_size. cbn. now rewrite app_nil_r.
  - cbn [scan_paragraphs List.filter]. rewrite skipped_iff_not_kept in *.
    destruct (kept para) eqn:Hk; cbn [negb] in *; [|apply IH]. cbv zeta.
    destruct (scan_runs_some (para_runs para) font_size (or_introl (Hp eq_refl))) as [q Hq].
    rewrite Hq.
    destruct (IH (Some q)
                 (shape_texts ++ [ {| st_text := clean_whitespace (para_text para);
                                      st_top := sh_top; st_font_size := q |} ]))
      as [f' ->].
    exists f'. rewrite <- app_assoc. cbn [List.map app].
    rewrite <- (scan_runs_restart _ font_size (Hp eq_refl)), Hq. reflexivity.
Qed.

Lemma scan_shapes_items (sl : slide) :
  Forall (fun sh =>
    has_text_frame sh = true ->
    Forall (fun para =>
      negb (0 <? length (para_text para))
      || negb (check_line_validity (para_text para) DEFAULT_MIN_LINE_LEN) = false ->
      para_runs para <> []) (paragraphs sh)) sl ->
  forall font_size shape_texts,
    exists font_size',
      scan_shapes sl font_size shape_texts = Return (font_size', shape_texts ++ kept_items sl).
Proof.
  induction 1 as [|sh rest Hsh _ IH]; intros font_size shape_texts.
  - exists font_size. cbn. now rewrite app_nil_r.
  - cbn [scan_shapes kept_items List.flat_map].
    destruct (has_text_frame sh) eqn:Hf; cbn [negb].
    + destruct (scan_paragraphs_items (top sh) (paragraphs sh) (Hsh eq_refl)
                  font_size shape_texts) as [f1 ->].
      rewrite bind_return.
      destruct (IH f1 (shape_texts ++
                       List.map
                         (fun para =>
                            {| st_text := clean_whitespace (para_text para);
                               st_top := top sh;
                               st_font_size :=
                                 default (10 # 1)%Q (scan_runs (para_runs para) None) |})
                         (List.filter kept (paragraphs sh)))) as [f2 ->].
      exists f2. now rewrite <- app_assoc.
    + apply IH.
Qed.

Lemma kept_items_placed (sl : slide) :
  Forall (fun sh => has_text_frame sh = true -> is_Some (top sh)) sl ->
  Forall (fun x => is_Some (st_top x)) (kept_items sl).
Proof.
  induction 1 as [|sh rest Hsh _ IH]; [constructor|].
  cbn [kept_items List.flat_map]. apply Forall_app. split; [|exact IH].
  destruct (has_text_frame sh); [|constructor].
  apply Forall_forall. intros x Hx. apply list_elem_of_In, in_map_iff in Hx.
  destruct Hx as (para & <- & _). now apply Hsh.
Qed.

End ScanSlide.

Section Prefixes.

Local Open Scope nat_scope.

Lemma star_class_inv {A : Type} (n : nat) (p : N -> bool) (k : text -> option A) :
  forall (fuel : nat) (s : text) (x : A),
    star_loop (run n (Cls p)) k fuel s = Some x ->
    exists sp t, s = sp ++ t /\ Forall (fun c => p c = true) sp /\ k t = Some x.
Proof.
  induction fuel as [|fuel IH]; intros s x H.
  - exists [], s. now repeat split.
  - cbn [star_loop run] in H. destruct s as [|c s'].
    + exists [], []. now repeat split.
    + destruct (p c) eqn:Hc.
      * destruct (length s' <? length (c :: s')).
        -- destruct (star_loop _ k fuel s') as [y|] eqn:E.
           ++ injection H as <-. apply IH in E. destruct E as (sp & t & -> & Hsp & Hk).
              exists (c :: sp), t. repeat split; [now constructor|exact Hk].
           ++ exists [], (c :: s'). now repeat split.
        -- exists [], (c :: s'). now repeat split.
      * exists [], (c :: s'). now repeat split.
Qed.

Lemma star_class_reaches {A : Type} (n : nat) (p : N -> bool) (k : text -> option A)
      (sp t : text) : forall fuel,
  Forall (fun c => p c = true) sp -> length (sp ++ t) <= fuel ->
  is_Some (k t) ->
  is_Some (star_loop (run n (Cls p)) k fuel (sp ++ t)).
Proof.
  induction sp as [|c sp IH]; intros fuel Hsp Hf Hk.
  - cbn [app]. destruct fuel as [|fuel]; [exact Hk|].
    cbn [star_loop]. destruct (run n (Cls p) t _); [eauto|exact Hk].
  - destruct fuel as [|fuel]; [simpl in Hf; lia|].
    apply Forall_cons in Hsp. destruct Hsp as [Hc Hsp].
    cbn [app star_loop run]. rewrite Hc.
    replace (length (sp ++ t) <? length (c :: sp ++ t)) with true
      by (symmetry; apply Nat.ltb_lt; simpl; lia).
    destruct (IH fuel Hsp ltac:(simpl in Hf; lia) Hk) as [x Hx].
    cbn [run] in Hx. rewrite Hx. eauto.
Qed.

(** [^\d+[\.\s]] matches the texts that start with digits and then a dot or
    a blank. *)
Lemma numbered_prefix_iff (t : text) :
  numbered_prefix t = true <->
  exists ds c rest,
    ds <> [] /\ Forall (fun x => isdecimal x = true) ds /\
    (c = 0x2E%N \/ isspace c = true) /\ t = ds ++ c :: rest.
Proof.
  unfold numbered_prefix, re_match. split.
  - destruct (run _ _ t Some) as [x|] eqn:E; [intros _|discriminate].
    cbn [seqs plus run digit] in E. rewrite Nat.eqb_refl in E.
    destruct t as [|d t']; [discriminate|].
    destruct (isdecimal d) eqn:Hd; [|discriminate].
    apply (star_class_inv 0 isdecimal) in E. destruct E as (sp & t'' & -> & Hsp & Hk).
    destruct t'' as [|c rest]; [discriminate|].
    destruct ((c =? 0x2E)%N || isspace c) eqn:Hc; [|discriminate].
    exists (d :: sp), c, rest. split; [discriminate|]. split; [now constructor|].
    split; [|reflexivity].
    apply orb_true_iff in Hc. destruct Hc as [Hc|Hc]; [left; now apply N.eqb_eq|now right].
  - intros (ds & c & rest & Hne & Hds & Hc & ->).
    destruct ds as [|d ds]; [contradiction|].
    apply Forall_cons in Hds. destruct Hds as [Hd Hds].
    assert (Hrun : is_Some (run (length ((d :: ds) ++ c :: rest))
                              (seqs [Bol; plus digit;
                                     Cls (fun c => (c =? 0x2E)%N || isspace c)])
                              ((d :: ds) ++ c :: rest) Some)).
    { cbn [seqs plus run digit app]. rewrite Nat.eqb_refl, Hd.
      pose proof (star_class_reaches (length (d :: ds ++ c :: rest)) isdecimal
                    (fun s1 => run (length (d :: ds ++ c :: rest))
                                   (Cls (fun c => (c =? 0x2E)%N || isspace c)) s1 Some)
                    ds (c :: rest) (length (ds ++ c :: rest)) Hds (Nat.le_refl _)) as H.
      cbn [run] in H. apply H.
      replace ((c =? 0x2E)%N || isspace c) with true; [now exists rest|].
      symmetry. apply orb_true_iff.
      destruct Hc as [->|Hc]; [now left|now right]. }
    destruct Hrun as [x ->]. reflexivity.
Qed.

Lemma BULLETS_value :
  BULLETS = [[0x2022; 0x20]; [0x2D; 0x20]; [0x25E6; 0x20]; [0x25AA; 0x20]]%N.
Proof. vm_compute. reflexivity. Qed.

Lemma startswith_two (g sp : N) (t : text) :
  startswith [g; sp] t = true <-> exists rest, t = g :: sp :: rest.
Proof.
  split.
  - destruct t as [|a [|b rest]]; cbn [startswith]; intros H; try discriminate.
    + apply andb_true_iff in H. destruct H as [_ H]. discriminate.
    + apply andb_true_iff in H. destruct H as [Ha H].
      apply andb_true_iff in H. destruct H as [Hb _].
      apply N.eqb_eq in Ha, Hb. subst. now exists rest.
  - intros [rest ->]. cbn [startswith]. now rewrite !N.eqb_refl.
Qed.

(** A bullet prefix is one of the four glyphs and a space. *)
Lemma bullet_prefix_iff (t : text) :
  bullet_prefix t = true <->
  exists g rest, g ∈ BULLET_GLYPHS /\ t = g :: 0x20%N :: rest.
Proof.
  unfold bullet_prefix. rewrite BULLETS_value, existsb_exists. unfold BULLET_GLYPHS. split.
  - intros (p & Hin & Hp). cbn [In] in Hin.
    destruct Hin as [<-|[<-|[<-|[<-|[]]]]]; apply startswith_two in Hp;
      destruct Hp as [rest ->]; eexists _, rest; (split; [|reflexivity]);
      repeat first [left | right].
  - intros (g & rest & Hg & ->). exists [g; 0x20%N].
    split; [|apply startswith_two; now exists rest].
    repeat (apply elem_of_cons in Hg; destruct Hg as [->|Hg]);
      [| | | |inversion Hg]; cbn [In]; auto 8.
Qed.

End Prefixes.

(** C8, as amended: the headers of a slide whose kept paragraphs have a run
    and whose text shapes have a position.  The kept paragraphs are sorted
    by the position of their shape, paragraphs of one position staying in
    the order of the document; the result of [parse_ppt_to_get_headers] is
    the headers of the sorted list, in that order, joined by newlines.  The
    paragraph at place [i] of the sorted list, places counted from 0, is a
    header exactly when [i <= min_header_rank] and its font size is at least
    [min_header_fontsize], or [i > min_header_rank] and its text starts with
    digits followed by a dot or a blank, or with one of the glyphs •, -, ◦,
    ▪ followed by a space.  With sizes 20, 20, 10, 10, 10 in the sorted
    list, rank 3 and size 14, the headers are the first two paragraphs, and
    a fifth paragraph that starts with "2. " is a header whatever its
    size. *)
Theorem header_classification :
  (forall (sl : slide) (fs rk : Z),
     kept_have_runs [sl] ->
     Forall (fun sh => has_text_frame sh = true -> is_Some (top sh)) sl ->
     exists sorted : list shape_text,
       Permutation sorted (kept_items sl) /\
       StronglySorted top_le sorted /\
       (forall y, List.filter (fun x => bool_decide (st_top x = Some y)) sorted
                  = List.filter (fun x => bool_decide (st_top x = Some y)) (kept_items sl)) /\
       parse_ppt_to_get_headers [sl] fs rk
       = Return (match slide_headers fs rk sorted with
                 | [] => []
                 | hs => [join [0x0A] hs]
                 end) /\
       sublist (slide_headers fs rk sorted) (List.map st_text sorted) /\
       (forall t,
          t ∈ slide_headers fs rk sorted <->
          exists i item,
            sorted !! i = Some item /\ st_text item = t /\
            (((Z.of_nat i <= rk)%Z /\ (inject_Z fs <= st_font_size item)%Q) \/
             ((rk < Z.of_nat i)%Z /\
              ((exists ds c rest,
                  ds <> [] /\ Forall (fun x => isdecimal x = true) ds /\
                  (c = 0x2E \/ isspace c = true) /\ t = ds ++ c :: rest) \/
               (exists g rest, g ∈ BULLET_GLYPHS /\ t = g :: 0x20 :: rest)))))) /\
  (forall (t1 t2 t3 t4 t5 : text) (y1 y2 y3 y4 y5 : option Z),
     numbered_prefix t5 = false -> bullet_prefix t5 = false ->
     slide_headers 14 3
       [ {| st_text := t1; st_top := y1; st_font_size := 20 # 1 |};
         {| st_text := t2; st_top := y2; st_font_size := 20 # 1 |};
         {| st_text := t3; st_top := y3; st_font_size := 10 # 1 |};
         {| st_text := t4; st_top := y4; st_font_size := 10 # 1 |};
         {| st_text := t5; st_top := y5; st_font_size := 10 # 1 |} ]
     = [t1; t2]) /\
  (forall (t1 t2 t3 t4 t : text) (y1 y2 y3 y4 y5 : option Z) (size5 : Q),
     slide_headers 14 3
       [ {| st_text := t1; st_top := y1; st_font_size := 20 # 1 |};
         {| st_text := t2; st_top := y2; st_font_size := 20 # 1 |};
         {| st_text := t3; st_top := y3; st_font_size := 10 # 1 |};
         {| st_text := t4; st_top := y4; st_font_size := 10 # 1 |};
         {| st_text := u "2. " ++ t; st_top := y5; st_font_size := size5 |} ]
     = [t1; t2; u "2. " ++ t]).
Proof.
  split; [|split].
  - intros sl fs rk Hruns Hplaced.
    apply Forall_cons in Hruns. destruct Hruns as [Hruns _].
    destruct (scan_shapes_items sl Hruns None []) as [font Hscan]. cbn [app] in Hscan.
    destruct (sort_by_top_spec (kept_items sl) (kept_items_placed sl Hplaced))
      as (sorted & Hsort & Hperm & Hsorted & Hstable).
    exists sorted. split; [exact Hperm|]. split; [exact Hsorted|]. split; [exact Hstable|].
    split; [|split].
    + unfold parse_ppt_to_get_headers. cbn [scan_slides].
      rewrite Hscan, bind_return, Hsort, bind_return. cbv zeta.
      now destruct (slide_headers fs rk sorted).
    + apply slide_headers_from_sublist.
    + intros t. unfold slide_headers. rewrite slide_headers_from_spec.
      split; intros (i & item & Hi & Ht & Hh); exists i, item;
        (split; [exact Hi|split; [exact Ht|]]); cbn [Nat.add] in *.
      * destruct (Z_le_gt_dec (Z.of_nat i) rk) as [Hle|Hgt].
        -- rewrite (is_header_early _ _ _ _ Hle) in Hh. left.
           split; [exact Hle|now apply Qle_bool_iff].
        -- assert (Hlt : (rk < Z.of_nat i)%Z) by lia.
           rewrite (is_header_late _ _ _ _ Hlt), Ht in Hh. right. split; [exact Hlt|].
           apply orb_true_iff in Hh. destruct Hh as [Hh|Hh].
           ++ left. now apply numbered_prefix_iff.
           ++ right. now apply bullet_prefix_iff.
      * destruct Hh as [[Hle Hsize]|[Hlt Hpre]].
        -- rewrite (is_header_early _ _ _ _ Hle). now apply Qle_bool_iff.
        -- rewrite (is_header_late _ _ _ _ Hlt), Ht. apply orb_true_iff.
           destruct Hpre as [Hn|Hb]; [left; now apply numbered_prefix_iff|].
           right. now apply bullet_prefix_iff.
  - intros t1 t2 t3 t4 t5 y1 y2 y3 y4 y5 Hn Hb.
    unfold slide_headers, slide_headers_from.
    rewrite !is_header_early by (simpl; lia).
    rewrite is_header_late by (simpl; lia).
    cbn [st_text st_font_size]. rewrite Hn, Hb.
    reflexivity.
  - intros t1 t2 t3 t4 t y1 y2 y3 y4 y5 size5.
    unfold slide_headers, slide_headers_from.
    rewrite !is_header_early by (simpl; lia).
    rewrite is_header_late by (simpl; lia).
    cbn [st_text st_font_size]. rewrite numbered_prefix_2_dot.
    reflexivity.
Qed.

Lemma header_classification_witness :
  exists sorted : list shape_text,
    Permutation sorted (kept_items review_slide) /\
    StronglySorted top_le sorted /\
    (forall y, List.filter (fun x => bool_decide (st_top x = Some y)) sorted
               = List.filter (fun x => bool_decide (st_top x = Some y))
                             (kept_items review_slide)) /\
    parse_ppt_to_get_headers [review_slide] 14 3
    = Return (match slide_headers 14 3 sorted with
              | [] => []
              | hs => [join [0x0A] hs]
              end).
Proof.
  destruct (proj1 header_classification review_slide 14%Z 3%Z)
    as (sorted & H1 & H2 & H3 & H4 & _).
  - repeat constructor; intros _; discriminate.
  - repeat constructor; intros _; eexists; reflexivity.
  - exists sorted. repeat split; assumption.
Defined.

(** The slide whose paragraphs are given out of order: the two headers are
    the paragraphs highest on the slide. *)
Lemma review_slide_headers :
  parse_ppt_to_get_headers [review_slide] 14 3
  = Return [u "Annual review" ++ [0x0A] ++ u "Market overview"].
Proof. vm_compute. reflexivity. Qed.

(** C8 as stated fails in two places.  A fifth paragraph that starts with a
    bullet glyph and no space is no header, and of five paragraphs of size
    20 the first four are headers, the fourth having rank 4 where ranks are
    counted from 1. *)
Lemma bullet_glyph_alone_is_no_header :
  parse_ppt_to_get_headers [bullet_slide] 14 3
  = Return [u "Annual review" ++ [0x0A] ++ u "Market overview"] /\
  is_header_of_spec 14 3 5
    {| st_text := u "•Closing remarks"; st_top := Some 500%Z; st_font_size := 10 # 1 |}
  = true /\
  parse_ppt_to_get_headers [large_slide] 14 3
  = Return [u "Annual review" ++ [0x0A] ++ u "Market overview" ++ [0x0A]
              ++ u "Revenue grew in all regions" ++ [0x0A] ++ u "Costs were flat"] /\
  is_header_of_spec 14 3 4
    {| st_text := u "Costs were flat"; st_top := Some 400%Z; st_font_size := 20 # 1 |}
  = false.
Proof. repeat split; vm_compute; reflexivity. Qed.

(** ** The canonical embedding text *)

Section EmbeddingText.

Lemma before_first_dot_is_stem (name : text) :
  (count_occ N.eq_dec name 0x2E%N <= 1)%nat -> before_first_dot name = file_stem name.
Proof.
  induction name as [|c t IH]; simpl; [reflexivity|].
  destruct (N.eq_dec c 0x2E) as [->|Hne].
  - intros H. simpl.
    assert (Hno : existsb (N.eqb 0x2E) t = false).
    { apply not_true_is_false. intros Hex. apply existsb_exists in Hex.
      destruct Hex as (x & Hin & Hx). apply N.eqb_eq in Hx. subst x.
      apply (count_occ_In N.eq_dec) in Hin. lia. }
    now rewrite Hno.
  - intros H. apply N.eqb_neq in Hne. rewrite Hne. simpl. now rewrite IH.
Qed.

Lemma cleaned_keywords_agree (kws : list text) :
  List.map strip (List.filter (fun kw => (0 <? length (strip kw))%nat) kws)
  = List.filter (fun kw => (0 <? length kw)%nat) (List.map strip kws).
Proof.
  induction kws as [|k rest IH]; simpl; [reflexivity|].
  destruct (0 <? length (strip k))%nat; simpl; now rewrite IH.
Qed.

(** Where the name has at most one dot the program builds the text the
    specification describes. *)
Lemma build_text_for_embedding_single_dot (m : doc_meta) :
  (count_occ N.eq_dec (file_name m) 0x2E%N <= 1)%nat ->
  build_text_for_embedding m = canonical_text_of_spec m.
Proof.
  intros H. unfold build_text_for_embedding, canonical_text_of_spec.
  rewrite (before_first_dot_is_stem _ H), cleaned_keywords_agree.
  set (ks := List.filter _ _).
  assert (Ht : take (Nat.min (length ks) 5) ks = take 5 ks).
  { destruct (Nat.le_ge_cases (length ks) 5) as [Hl|Hl].
    - rewrite Nat.min_l by exact Hl. now rewrite !take_ge by lia.
    - now rewrite Nat.min_r by exact Hl. }
  rewrite Ht. now destruct (take 5 ks).
Qed.

End EmbeddingText.

(** C7: for the file name "annual.report.2024.pdf" the program builds the
    text from "annual", the name up to its first dot, where the file name
    without its extension is "annual.report.2024". *)
Theorem build_text_for_embedding_cuts_at_first_dot :
  let m := {| file_name := u "annual.report.2024.pdf";
              file_path := u "/docs/annual.report.2024.pdf";
              keywords := [u " revenue "; u ""; u "stores"; u "growth"];
              summary := u "Revenue grew on new store openings." |} in
  build_text_for_embedding m
    = u "passage: annual - revenue, stores, growth - Revenue grew on new store openings." /\
  canonical_text_of_spec m
    = u "passage: annual.report.2024 - revenue, stores, growth - Revenue grew on new store openings." /\
  build_text_for_embedding m <> canonical_text_of_spec m.
Proof.
  cbv zeta. split; [vm_compute; reflexivity|]. split; [vm_compute; reflexivity|].
  intros H. apply (f_equal (fun t => t !! 15%nat)) in H. vm_compute in H. discriminate.
Qed.

(** ** The vector index engine *)

Section DecimalKeys.

Lemma decimal_value_ascii (v : N) : v < 10 -> decimal_value (0x30 + v) = Some v.
Proof.
  intros H. unfold decimal_value, decimal_runs. cbn [List.find].
  replace ((48 <=? 0x30 + v) && (0x30 + v <=? 48 + 9)) with true.
  - f_equal. lia.
  - symmetry. apply andb_true_iff. split; apply N.leb_le; lia.
Qed.

Lemma int_digits_digits_of (f : nat) : forall (n : N) (rest : text),
  n < 2 ^ N.of_nat (S f) ->
  int_digits 0 false (digits_of (S f) n rest) = int_digits n true rest.
Proof.
  assert (Hstep : forall n a rest,
            int_digits a true ((0x30 + n mod 10) :: rest)
            = int_digits (a * 10 + n mod 10) true rest).
  { intros n a rest. cbn [int_digits].
    replace (0x30 + n mod 10 =? 0x5F) with false
      by (symmetry; apply N.eqb_neq; pose proof (N.mod_upper_bound n 10); lia).
    rewrite decimal_value_ascii by (apply N.mod_upper_bound; lia). reflexivity. }
  assert (Hfirst : forall n rest, n < 10 ->
            int_digits 0 false ((0x30 + n mod 10) :: rest) = int_digits n true rest).
  { intros n rest Hn. cbn [int_digits]. rewrite N.mod_small by exact Hn.
    replace (0x30 + n =? 0x5F) with false by (symmetry; apply N.eqb_neq; lia).
    rewrite decimal_value_ascii by exact Hn. reflexivity. }
  induction f as [|f IH]; intros n rest Hn.
  - cbn [digits_of]. change (2 ^ N.of_nat 1) with 2 in Hn.
    replace (n <? 10) with true by (symmetry; apply N.ltb_lt; lia).
    apply Hfirst. lia.
  - change (digits_of (S (S f)) n rest) with
      (if n <? 10 then (0x30 + n mod 10) :: rest
       else digits_of (S f) (n / 10) ((0x30 + n mod 10) :: rest)).
    destruct (n <? 10) eqn:Hlt.
    + apply Hfirst. now apply N.ltb_lt.
    + rewrite IH.
      * rewrite Hstep. f_equal. pose proof (N.div_mod n 10). lia.
      * replace (N.of_nat (S (S f))) with (N.succ (N.of_nat (S f))) in Hn by lia.
        rewrite N.pow_succ_r' in Hn.
        apply N.Div0.div_lt_upper_bound. lia.
Qed.

Lemma digits_of_Forall (P : N -> Prop) (f : nat) : forall (n : N) (rest : text),
  (forall v, v < 10 -> P (0x30 + v)) -> Forall P rest -> Forall P (digits_of f n rest).
Proof.
  induction f as [|f IH]; intros n rest HP Hrest; [exact Hrest|].
  cbn [digits_of].
  assert (Forall P ((0x30 + n mod 10) :: rest)).
  { constructor; [apply HP, N.mod_upper_bound; lia|exact Hrest]. }
  destruct (n <? 10); [assumption|]. now apply IH.
Qed.

Lemma digits_of_not_nil (f : nat) (n : N) (rest : text) :
  digits_of (S f) n rest <> [].
Proof.
  revert n rest. induction f as [|f IH]; intros n rest.
  - cbn [digits_of]. destruct (n <? 10); discriminate.
  - change (digits_of (S (S f)) n rest) with
      (if n <? 10 then (0x30 + n mod 10) :: rest
       else digits_of (S f) (n / 10) ((0x30 + n mod 10) :: rest)).
    destruct (n <? 10); [discriminate|apply IH].
Qed.

Lemma lstrip_no_space (s : text) :
  Forall (fun c => isspace c = false) s -> lstrip s = s.
Proof. destruct 1 as [|c t Hc _]; simpl; [reflexivity|now rewrite Hc]. Qed.

Lemma rstrip_no_space (s : text) :
  Forall (fun c => isspace c = false) s -> rstrip s = s.
Proof.
  induction 1 as [|c t Hc _ IH]; simpl; [reflexivity|].
  rewrite IH. destruct t; [now rewrite Hc|reflexivity].
Qed.

Lemma strip_no_space (s : text) :
  Forall (fun c => isspace c = false) s -> strip s = s.
Proof. intros H. unfold strip. now rewrite (lstrip_no_space _ H), rstrip_no_space. Qed.

Lemma str_of_N_digits (n : N) : Forall is_digit_char (str_of_N n).
Proof.
  unfold str_of_N. apply digits_of_Forall; [|constructor].
  intros v Hv. unfold is_digit_char. lia.
Qed.

Lemma digit_char_no_space (s : text) :
  Forall is_digit_char s -> Forall (fun c => isspace c = false) s.
Proof.
  intros H. eapply Forall_impl; [exact H|]. clear s H.
  intros c [H1 H2]. unfold isspace.
  repeat match goal with
         | |- context [?a <=? ?b] =>
           first [ replace (a <=? b) with true by (symmetry; apply N.leb_le; lia)
                 | replace (a <=? b) with false by (symmetry; apply N.leb_gt; lia) ]
         | |- context [?a =? ?b] =>
           replace (a =? b) with false by (symmetry; apply N.eqb_neq; lia)
         end.
  reflexivity.
Qed.

Lemma int_digits_str_of_N (n : N) : int_digits 0 false (str_of_N n) = Some n.
Proof.
  unfold str_of_N. rewrite int_digits_digits_of; [reflexivity|].
  destruct (N.eq_dec n 0) as [->|Hn]; [reflexivity|].
  replace (N.of_nat (S (N.to_nat (N.log2 n)))) with (N.succ (N.log2 n)) by lia.
  apply N.log2_spec. lia.
Qed.

(** [int(str(z)) == z] *)
Lemma int_str_of_Z (z : Z) : int (str_of_Z z) = Return z.
Proof.
  assert (Hpos : forall n, int (str_of_N n) = Return (Z.of_N n)).
  { intros n. unfold int.
    rewrite (strip_no_space _ (digit_char_no_space _ (str_of_N_digits n))).
    pose proof (str_of_N_digits n) as Hd. pose proof (int_digits_str_of_N n) as Hi.
    destruct (str_of_N n) as [|c t] eqn:E.
    { exfalso. revert E. unfold str_of_N. apply digits_of_not_nil. }
    inversion Hd as [|? ? [H1 H2] _]; subst.
    replace (c =? 0x2D) with false by (symmetry; apply N.eqb_neq; lia).
    replace (c =? 0x2B) with false by (symmetry; apply N.eqb_neq; lia).
    now rewrite Hi. }
  destruct z as [|p|p].
  - apply (Hpos 0).
  - apply (Hpos (Npos p)).
  - unfold str_of_Z, int.
    assert (Hs : Forall (fun c => isspace c = false) (0x2D :: str_of_N (N.pos p))).
    { constructor; [reflexivity|apply digit_char_no_space, str_of_N_digits]. }
    rewrite (strip_no_space _ Hs). cbn [N.eqb Pos.eqb].
    change (0x2D =? 0x2D) with true. cbv iota.
    now rewrite int_digits_str_of_N.
Qed.

Lemma str_of_Z_inj (a b : Z) : str_of_Z a = str_of_Z b -> a = b.
Proof.
  intros H. pose proof (int_str_of_Z a) as Ha. rewrite H, int_str_of_Z in Ha.
  now injection Ha.
Qed.

Lemma int_keys_spec (ks : list text) (E : gset Z) :
  int_keys ks = Return E ->
  forall z, z ∈ E <-> exists k, k ∈ ks /\ int k = Return z.
Proof.
  revert E. induction ks as [|k rest IH]; intros E; simpl.
  - intros [= <-] z. split; [set_solver|]. intros (k & Hk & _). inversion Hk.
  - destruct (int k) as [zk|] eqn:Hk; [|discriminate]. simpl.
    destruct (int_keys rest) as [E'|] eqn:Hr; [|discriminate]. simpl.
    intros [= <-] z. rewrite elem_of_union, elem_of_singleton, (IH E' eq_refl). split.
    + intros [->|(k' & Hin & Hk')].
      * exists k. split; [left|exact Hk].
      * exists k'. split; [now right|exact Hk'].
    + intros (k' & Hin & Hk'). apply elem_of_cons in Hin. destruct Hin as [->|Hin].
      * left. congruence.
      * right. now exists k'.
Qed.

Lemma int_keys_canonical (ks : list text) :
  (forall k, k ∈ ks -> exists z, k = str_of_Z z) ->
  exists E, int_keys ks = Return E /\ forall z, z ∈ E <-> str_of_Z z ∈ ks.
Proof.
  intros Hc.
  assert (Hok : exists E, int_keys ks = Return E).
  { induction ks as [|k rest IH]; simpl; [now exists ∅|].
    destruct (Hc k) as [z ->]; [left|]. rewrite int_str_of_Z. simpl.
    destruct IH as [E' ->]; [intros k' Hk'; apply Hc; now right|].
    simpl. eauto. }
  destruct Hok as [E HE]. exists E. split; [exact HE|].
  intros z. rewrite (int_keys_spec _ _ HE). split.
  - intros (k & Hin & Hk). destruct (Hc k Hin) as [z' ->].
    rewrite int_str_of_Z in Hk. now injection Hk as ->.
  - intros Hin. exists (str_of_Z z). split; [exact Hin|apply int_str_of_Z].
Qed.

End DecimalKeys.

Ltac unbind := unfold mbind, outcome_bind, Py.bind, Py.assert in *.

Section IndexLists.

Context {D : Type} (v : D -> vector).

Lemma filter_vectors_fst (ds : list D) : forall i,
  fst (filter_vectors i (List.map v ds))
  = List.map v (List.filter (fun x => negb (invalid_vector (v x))) ds).
Proof.
  induction ds as [|x rest IH]; intros i; simpl; [reflexivity|].
  specialize (IH (S i)). destruct (filter_vectors (S i) (List.map v rest)) as [vs ixs].
  simpl in IH. destruct (invalid_vector (v x)); simpl; now rewrite IH.
Qed.

Lemma filter_vectors_snd_elem (vs : list vector) : forall i0 i,
  i ∈ snd (filter_vectors i0 vs) <->
  exists j x, i = (i0 + j)%nat /\ vs !! j = Some x /\ invalid_vector x = false.
Proof.
  induction vs as [|x rest IH]; intros i0 i; simpl.
  - split; [intros H; inversion H|intros (j & y & _ & H & _); discriminate].
  - specialize (IH (S i0) i).
    destruct (filter_vectors (S i0) rest) as [ws ixs]. simpl in IH.
    assert (Hrest : i ∈ ixs <->
              exists j y, i = (i0 + S j)%nat /\ (x :: rest) !! S j = Some y
                          /\ invalid_vector y = false).
    { rewrite IH. split; intros (j & y & -> & H); exists j, y; (split; [lia|exact H]). }
    destruct (invalid_vector x) eqn:Hx; simpl.
    + rewrite Hrest. split.
      * intros (j & y & H). now exists (S j), y.
      * intros ([|j] & y & H1 & H2 & H3).
        -- simpl in H2. injection H2 as ->. congruence.
        -- now exists j, y.
    + rewrite elem_of_cons, Hrest. split.
      * intros [->|(j & y & H)].
        -- exists 0%nat, x. repeat split; [lia|exact Hx].
        -- now exists (S j), y.
      * intros ([|j] & y & H1 & H2 & H3).
        -- left. lia.
        -- right. now exists j, y.
Qed.

Lemma items_at_filter {B : Type} (g : D -> B) (ds : list D) : forall (pre : list B) (l : list B),
  l = pre ++ List.map g ds ->
  items_at l (snd (filter_vectors (length pre) (List.map v ds)))
  = Return (List.map g (List.filter (fun x => negb (invalid_vector (v x))) ds)).
Proof.
  induction ds as [|x rest IH]; intros pre l Hl; simpl; [reflexivity|].
  assert (Hl' : l = (pre ++ [g x]) ++ List.map g rest)
    by (rewrite <- app_assoc; exact Hl).
  specialize (IH (pre ++ [g x]) l Hl'). rewrite length_app, Nat.add_1_r in IH.
  destruct (filter_vectors (S (length pre)) (List.map v rest)) as [ws ixs].
  simpl in IH |- *. destruct (invalid_vector (v x)); simpl; [exact IH|].
  assert (Hlk : l !! length pre = Some (g x))
    by (rewrite Hl; apply list_lookup_middle; reflexivity).
  rewrite Hlk, IH. reflexivity.
Qed.

End IndexLists.

Section IndexEngine.

Variable model : SentenceTransformer.

Lemma encode_docs (docs : list doc_meta) :
  encode model (List.map build_text_for_embedding docs) = List.map (doc_vector model) docs.
Proof. unfold encode. now rewrite List.map_map. Qed.

Lemma survivors_filter (docs : list doc_meta) :
  List.filter (fun x => negb (invalid_vector (doc_vector model x))) docs
  = List.filter (survives model) docs.
Proof. reflexivity. Qed.

Lemma names_not_at_scan (ds pre all : list doc_meta) :
  all = pre ++ ds ->
  List.flat_map
    (fun '(i, doc) =>
       if bool_decide (i ∈ snd (filter_vectors 0 (List.map (doc_vector model) all)))
       then [] else [file_name doc])
    (List.combine (seq (length pre) (length ds)) ds)
  = List.map file_name (List.filter (discarded model) ds).
Proof.
  revert pre. induction ds as [|x rest IH]; intros pre Hall; simpl; [reflexivity|].
  specialize (IH (pre ++ [x])). rewrite length_app, Nat.add_1_r, <- app_assoc in IH.
  rewrite (IH Hall).
  assert (Hmem : length pre ∈ snd (filter_vectors 0 (List.map (doc_vector model) all))
                 <-> discarded model x = false).
  { rewrite filter_vectors_snd_elem. subst all. split.
    - intros (j & y & Hj & Hy & Hv). simpl in Hj. subst j.
      rewrite List.map_app in Hy. cbn [List.map] in Hy.
      rewrite list_lookup_middle in Hy by now rewrite length_map.
      injection Hy as <-. exact Hv.
    - intros Hd. exists (length pre), (doc_vector model x). repeat split; [|exact Hd].
      rewrite List.map_app. cbn [List.map].
      apply list_lookup_middle. now rewrite length_map. }
  destruct (discarded model x) eqn:Hd.
  - rewrite bool_decide_eq_false_2; [reflexivity|]. intros H. apply Hmem in H. discriminate.
  - rewrite bool_decide_eq_true_2; [reflexivity|]. now apply Hmem.
Qed.

Lemma names_not_at_spec (docs : list doc_meta) :
  names_not_at docs (snd (filter_vectors 0 (List.map (doc_vector model) docs)))
  = List.map file_name (List.filter (discarded model) docs).
Proof. exact (names_not_at_scan docs [] docs eq_refl). Qed.

Lemma filter_partition_length (docs : list doc_meta) :
  (length (List.filter (survives model) docs)
   + length (List.filter (discarded model) docs) = length docs)%nat.
Proof.
  induction docs as [|x rest IH]; simpl; [reflexivity|].
  unfold survives at 1. fold (discarded model x).
  destruct (discarded model x); simpl; lia.
Qed.

Lemma process_documents_spec (E : gset Z) (docs : list doc_meta) :
  forall (ts : list text) (ids : list Z) (m : gmap Z doc_meta),
  process_documents E docs ts ids m =
  if forallb (fun doc => negb (bool_decide (doc_id doc ∈ E))) docs
  then Return (ts ++ List.map build_text_for_embedding docs,
               ids ++ List.map doc_id docs, docs_map m docs)
  else Raise AssertionError.
Proof.
  induction docs as [|x rest IH]; intros ts ids m; simpl.
  - now rewrite !app_nil_r.
  - fold (doc_id x). unbind.
    destruct (negb (bool_decide (doc_id x ∈ E))); simpl; [|reflexivity].
    rewrite IH, <- !app_assoc. reflexivity.
Qed.

Lemma docs_map_other (docs : list doc_meta) : forall (m : gmap Z doc_meta) (z : Z),
  (forall doc, doc ∈ docs -> doc_id doc <> z) -> docs_map m docs !! z = m !! z.
Proof.
  induction docs as [|x rest IH]; intros m z H; simpl; [reflexivity|].
  unfold docs_map in *. simpl. rewrite IH.
  - apply lookup_insert_ne. apply H. left.
  - intros doc Hd. apply H. now right.
Qed.

Lemma docs_map_some (docs : list doc_meta) : forall (m : gmap Z doc_meta) (doc : doc_meta),
  doc ∈ docs -> is_Some (docs_map m docs !! doc_id doc).
Proof.
  induction docs as [|x rest IH]; intros m doc Hin; [inversion Hin|].
  unfold docs_map in *. simpl.
  destruct (decide (Exists (fun y => doc_id y = doc_id doc) rest)) as [Hex|Hex].
  - apply Exists_exists in Hex. destruct Hex as (y & Hy & Hid).
    rewrite <- Hid. now apply IH.
  - apply elem_of_cons in Hin. destruct Hin as [->|Hin].
    + fold (docs_map (<[doc_id x:=x]> m) rest). rewrite docs_map_other.
      * rewrite lookup_insert_eq. eauto.
      * intros y Hy Hid. apply Hex, Exists_exists. now exists y.
    + exfalso. apply Hex, Exists_exists. now exists doc.
Qed.

Lemma docs_map_nodup (docs : list doc_meta) : forall (m : gmap Z doc_meta) (doc : doc_meta),
  NoDup (List.map doc_id docs) -> doc ∈ docs -> docs_map m docs !! doc_id doc = Some doc.
Proof.
  induction docs as [|x rest IH]; intros m doc Hnd Hin; [inversion Hin|].
  simpl in Hnd. apply NoDup_cons in Hnd. destruct Hnd as [Hx Hnd].
  unfold docs_map in *. simpl.
  apply elem_of_cons in Hin. destruct Hin as [->|Hin]; [|now apply IH].
  fold (docs_map (<[doc_id x:=x]> m) rest). rewrite docs_map_other.
  - apply lookup_insert_eq.
  - intros y Hy Hid. apply Hx. rewrite <- Hid.
    apply list_elem_of_In, in_map, list_elem_of_In, Hy.
Qed.

Lemma metadata_by_str_id_spec (M : gmap Z doc_meta) (ids : list Z) :
  forall acc : gmap text doc_meta,
  (forall z, z ∈ ids -> is_Some (M !! z)) ->
  exists r, metadata_by_str_id M ids acc = Return r /\
            (forall z, z ∈ ids -> r !! str_of_Z z = M !! z) /\
            (forall k, (forall z, z ∈ ids -> k <> str_of_Z z) -> r !! k = acc !! k).
Proof.
  induction ids as [|z rest IH]; intros acc Hs; simpl.
  - exists acc. split; [reflexivity|]. split; [intros z Hz; inversion Hz|reflexivity].
  - destruct (Hs z) as [m Hm]; [left|]. rewrite Hm.
    destruct (IH (<[str_of_Z z:=m]> acc)) as (r & Hr & H1 & H2).
    { intros z' Hz'. apply Hs. now right. }
    exists r. split; [exact Hr|]. split.
    + intros z' Hz'. destruct (decide (z' ∈ rest)) as [Hin|Hin]; [now apply H1|].
      apply elem_of_cons in Hz'. destruct Hz' as [->|Hz']; [|contradiction].
      rewrite H2.
      * now rewrite lookup_insert_eq.
      * intros z'' Hz'' Heq. apply str_of_Z_inj in Heq. now subst.
    + intros k Hk. rewrite H2.
      * apply lookup_insert_ne. intros Heq. apply (Hk z); [left|now symmetry].
      * intros z' Hz'. apply Hk. now right.
Qed.

End IndexEngine.

Section IndexLoaded.

Variable model : SentenceTransformer.
Variable name : text.

Lemma assert_true : assert true = Return tt.
Proof. reflexivity. Qed.

Lemma ntotal_add_with_ids (index : faiss_index) (vs : list vector) (ids : list Z) :
  length ids = length vs ->
  ntotal (add_with_ids index vs ids) = (ntotal index + length vs)%nat.
Proof.
  intros H. unfold ntotal, add_with_ids. simpl.
  rewrite length_app, length_combine, H. lia.
Qed.

Lemma index_loaded_not_fresh (docs : list doc_meta) (index : faiss_index)
      (md : gmap text doc_meta) (E : gset Z) :
  forallb (fun doc => negb (bool_decide (doc_id doc ∈ E))) docs = false ->
  index_loaded docs name model index md E = Raise AssertionError.
Proof.
  intros H. unfold index_loaded. now rewrite process_documents_spec, H.
Qed.

Lemma index_loaded_fresh (docs : list doc_meta) (index : faiss_index)
      (md : gmap text doc_meta) (E : gset Z) :
  docs <> [] ->
  forallb (fun doc => negb (bool_decide (doc_id doc ∈ E))) docs = true ->
  exists new_md : gmap text doc_meta,
    (forall doc, doc ∈ docs -> survives model doc = true ->
                 new_md !! doc_key doc = docs_map ∅ docs !! doc_id doc) /\
    (forall k, (forall doc, doc ∈ docs -> survives model doc = true -> k <> doc_key doc) ->
               new_md !! k = None) /\
    index_loaded docs name model index md E =
    match List.filter (survives model) docs with
    | [] => Return (u "no_valid_vectors_error", List.map file_name docs, None)
    | _ :: _ =>
      if (ntotal index + length (List.filter (survives model) docs)
          =? size (new_md ∪ md))%nat
      then Return (u "valid_output",
                   List.map file_name (List.filter (discarded model) docs),
                   Some (save_index_and_metadata
                           (add_with_ids index
                              (List.map (doc_vector model) (List.filter (survives model) docs))
                              (List.map doc_id (List.filter (survives model) docs)))
                           (new_md ∪ md) name model))
      else Raise AssertionError
    end.
Proof.
  intros Hne Hfresh.
  set (surv := List.filter (survives model) docs).
  destruct (metadata_by_str_id_spec (docs_map ∅ docs) (List.map doc_id surv) ∅)
    as (new_md & Hrun & Hin & Hout).
  { intros z Hz. apply list_elem_of_In, in_map_iff in Hz.
    destruct Hz as (doc & <- & Hd). apply filter_In in Hd.
    apply docs_map_some, list_elem_of_In, Hd. }
  exists new_md. split; [|split].
  - intros doc Hd Hs. apply Hin. apply list_elem_of_In, in_map, filter_In.
    split; [now apply list_elem_of_In|exact Hs].
  - intros k Hk. rewrite Hout; [apply lookup_empty|].
    intros z Hz. apply list_elem_of_In, in_map_iff in Hz.
    destruct Hz as (doc & <- & Hd). apply filter_In in Hd. destruct Hd as [Hd Hs].
    apply Hk; [now apply list_elem_of_In|exact Hs].
  - unfold index_loaded. rewrite process_documents_spec, Hfresh. cbv iota.
    rewrite bind_return. cbv beta iota. rewrite !app_nil_l.
    rewrite length_map, Nat.eqb_refl, assert_true, bind_return.
    unfold encode_texts_lst. rewrite length_map.
    replace (0 <? length docs)%nat with true
      by (symmetry; apply Nat.ltb_lt; destruct docs; [contradiction|simpl; lia]).
    rewrite assert_true, bind_return, encode_docs.
    pose proof (filter_vectors_fst (doc_vector model) docs 0) as Hfst.
    pose proof (items_at_filter (doc_vector model) doc_id docs [] _ eq_refl) as Hitems.
    pose proof (names_not_at_spec model docs) as Hnames.
    rewrite survivors_filter in Hfst, Hitems. fold surv in Hfst, Hitems.
    cbn [length app] in Hitems.
    pose proof (filter_partition_length model docs) as Hlen. fold surv in Hlen.
    destruct (filter_vectors 0 (List.map (doc_vector model) docs)) as [vv vi].
    cbn [fst snd] in Hfst, Hitems, Hnames. subst vv.
    destruct surv as [|s0 srest]; [reflexivity|].
    cbn [List.map] in *. cbv iota. rewrite bind_return. cbv beta iota.
    rewrite Hitems, bind_return, Hrun, bind_return.
    rewrite ntotal_add_with_ids by (cbn [length]; now rewrite !length_map).
    cbn [length] in *. rewrite !length_map.
    destruct (ntotal index + S (length srest) =? size (new_md ∪ md))%nat; [|reflexivity].
    rewrite assert_true, bind_return. do 3 f_equal.
    rewrite Hnames.
    destruct (S (length srest) <? length docs)%nat eqn:Hlt; [reflexivity|].
    apply Nat.ltb_ge in Hlt.
    destruct (List.filter (discarded model) docs); [reflexivity|simpl in Hlen; lia].
Qed.

End IndexLoaded.

Section IndexFiles.

Variable model : SentenceTransformer.
Variable name : text.

Lemma text_eqb_eq (a b : text) : text_eqb a b = true <-> a = b.
Proof. unfold text_eqb. apply bool_decide_eq_true. Qed.

Lemma index_files_empty (files : disk) :
  index_files [] name model files = (Raise AssertionError, files).
Proof. reflexivity. Qed.

Lemma index_files_model_changed (docs : list doc_meta) (files : disk)
      (index : faiss_index) (md : gmap text doc_meta) (stored : text) :
  docs <> [] ->
  faiss_index_file files = Some index ->
  metadata_with_id_file files = Some md ->
  model_fingerprint_file files = Some (FingerprintRecord stored) ->
  stored <> get_model_fingerprint name model ->
  index_files docs name model files
  = (Return (u "model_changed_error", List.map file_name docs), files).
Proof.
  intros Hne Hi Hm Hf Hdiff. unfold index_files.
  replace (0 <? length docs)%nat with true
    by (symmetry; apply Nat.ltb_lt; destruct docs; [contradiction|simpl; lia]).
  cbn [negb]. rewrite Hi, Hm, Hf. unfold load_index.
  replace (text_eqb stored (get_model_fingerprint name model)) with false
    by (symmetry; apply not_true_is_false; rewrite text_eqb_eq; exact Hdiff).
  cbn [negb]. reflexivity.
Qed.

Lemma keys_of_map (md : gmap text doc_meta) (k : text) :
  k ∈ List.map fst (map_to_list md) <-> is_Some (md !! k).
Proof.
  rewrite list_elem_of_In, in_map_iff. split.
  - intros ([k' m] & <- & Hin). apply list_elem_of_In, elem_of_map_to_list in Hin.
    simpl. eauto.
  - intros [m Hm]. exists (k, m). split; [reflexivity|].
    now apply list_elem_of_In, elem_of_map_to_list.
Qed.

(** On a store that satisfies the invariant the set of existing ids is read
    without error, and an id is in it when its decimal form is a key. *)
Lemma existing_doc_ids_ok (md : gmap text doc_meta) :
  (forall k, is_Some (md !! k) -> exists z, k = str_of_Z z) ->
  exists E, int_keys (List.map fst (map_to_list md)) = Return E /\
            forall z, z ∈ E <-> is_Some (md !! str_of_Z z).
Proof.
  intros Hc. destruct (int_keys_canonical (List.map fst (map_to_list md))) as (E & HE & Hz).
  { intros k Hk. apply Hc. now apply keys_of_map. }
  exists E. split; [exact HE|]. intros z. now rewrite Hz, keys_of_map.
Qed.

Lemma fresh_docs_iff (E : gset Z) (md : gmap text doc_meta) (docs : list doc_meta) :
  (forall z, z ∈ E <-> is_Some (md !! str_of_Z z)) ->
  forallb (fun doc => negb (bool_decide (doc_id doc ∈ E))) docs = true <->
  forall doc, doc ∈ docs -> md !! doc_key doc = None.
Proof.
  intros HE. rewrite forallb_forall. split.
  - intros H doc Hd. specialize (H doc (proj1 (list_elem_of_In _ _) Hd)).
    apply negb_true_iff, bool_decide_eq_false in H.
    apply eq_None_not_Some. intros Hs. apply H, HE, Hs.
  - intros H doc Hd. apply negb_true_iff, bool_decide_eq_false.
    intros Hin. apply HE in Hin. unfold doc_key in H.
    rewrite H in Hin by now apply list_elem_of_In. now destruct Hin.
Qed.

(** [index_files] on a well-formed store, under the model that built it. *)
Lemma index_files_step (docs : list doc_meta) (files : disk) :
  store_inv files -> same_model name model files -> docs <> [] ->
  let md := stored_metadata files in
  let index := working_index model files in
  let surv := List.filter (survives model) docs in
  (~ (forall doc, doc ∈ docs -> md !! doc_key doc = None) /\
   index_files docs name model files = (Raise AssertionError, files)) \/
  ((forall doc, doc ∈ docs -> md !! doc_key doc = None) /\
   exists new_md : gmap text doc_meta,
     (forall doc, doc ∈ surv -> new_md !! doc_key doc = docs_map ∅ docs !! doc_id doc) /\
     (forall k, is_Some (new_md !! k) -> exists doc, doc ∈ surv /\ k = doc_key doc) /\
     index_files docs name model files =
     match surv with
     | [] => (Return (u "no_valid_vectors_error", List.map file_name docs), files)
     | _ :: _ =>
       if (ntotal index + length surv =? size (new_md ∪ md))%nat
       then (Return (u "valid_output",
                     List.map file_name (List.filter (discarded model) docs)),
             save_index_and_metadata
               (add_with_ids index (List.map (doc_vector model) surv)
                             (List.map doc_id surv))
               (new_md ∪ md) name model)
       else (Raise AssertionError, files)
     end).
Proof.
  intros Hinv Hsame Hne md index surv.
  assert (Hlen : (0 <? length docs)%nat = true)
    by (apply Nat.ltb_lt; destruct docs; [contradiction|simpl; lia]).
  assert (Hcore : forall (E : gset Z),
            (forall z, z ∈ E <-> is_Some (md !! str_of_Z z)) ->
            forall rest : outcome (text * list text * option disk) -> outcome (text * list text) * disk,
            (forall r, rest r =
               match r with
               | Return (status, invalid_files, Some written) =>
                 (Return (status, invalid_files), written)
               | Return (status, invalid_files, None) => (Return (status, invalid_files), files)
               | Raise e => (Raise e, files)
               end) ->
            (~ (forall doc, doc ∈ docs -> md !! doc_key doc = None) /\
             rest (index_loaded docs name model index md E) = (Raise AssertionError, files)) \/
            ((forall doc, doc ∈ docs -> md !! doc_key doc = None) /\
             exists new_md : gmap text doc_meta,
               (forall doc, doc ∈ surv ->
                            new_md !! doc_key doc = docs_map ∅ docs !! doc_id doc) /\
               (forall k, is_Some (new_md !! k) -> exists doc, doc ∈ surv /\ k = doc_key doc) /\
               rest (index_loaded docs name model index md E) =
               match surv with
               | [] => (Return (u "no_valid_vectors_error", List.map file_name docs), files)
               | _ :: _ =>
                 if (ntotal index + length surv =? size (new_md ∪ md))%nat
                 then (Return (u "valid_output",
                               List.map file_name (List.filter (discarded model) docs)),
                       save_index_and_metadata
                         (add_with_ids index (List.map (doc_vector model) surv)
                                       (List.map doc_id surv))
                         (new_md ∪ md) name model)
                 else (Raise AssertionError, files)
               end)).
  { intros E HE rest Hrest.
    destruct (forallb (fun doc => negb (bool_decide (doc_id doc ∈ E))) docs) eqn:Hfresh.
    - right. pose proof (proj1 (fresh_docs_iff E md docs HE) Hfresh) as Hnone.
      split; [exact Hnone|].
      destruct (index_loaded_fresh model name docs index md E Hne Hfresh)
        as (new_md & Hin & Hout & Heq).
      exists new_md. split; [|split].
      + intros doc Hd. apply list_elem_of_In, filter_In in Hd. destruct Hd as [Hd Hs].
        apply Hin; [now apply list_elem_of_In|exact Hs].
      + intros k Hk.
        destruct (decide (Exists (fun doc => k = doc_key doc) surv)) as [Hex|Hex].
        * apply Exists_exists in Hex. exact Hex.
        * exfalso. rewrite Hout in Hk; [now destruct Hk|].
          intros doc Hd Hs Heqk. apply Hex, Exists_exists. exists doc.
          split; [|exact Heqk]. apply list_elem_of_In, filter_In.
          split; [now apply list_elem_of_In|exact Hs].
      + rewrite Heq, Hrest. unfold surv.
        destruct (List.filter (survives model) docs); [reflexivity|].
        now destruct (_ =? _)%nat.
    - left. split.
      + intros Hnone. apply (fresh_docs_iff E md docs HE) in Hnone. congruence.
      + now rewrite (index_loaded_not_fresh model name docs index md E Hfresh), Hrest. }
  unfold index_files. rewrite Hlen. cbn [negb].
  destruct Hinv as [->|(index0 & md0 & fp & -> & Hcount & Hkeys)].
  - refine (Hcore ∅ _
              (fun r => match r with
                        | Return (status, invalid_files, Some written) =>
                          (Return (status, invalid_files), written)
                        | Return (status, invalid_files, None) =>
                          (Return (status, invalid_files), no_files)
                        | Raise e => (Raise e, no_files)
                        end) _); [|reflexivity].
    intros z. split; [set_solver|]. intros [? H]. unfold md in H.
    change (stored_metadata no_files) with (∅ : gmap text doc_meta) in H.
    now rewrite lookup_empty in H.
  - cbn [faiss_index_file metadata_with_id_file model_fingerprint_file].
    pose proof (Hsame fp eq_refl) as Hfp. subst fp.
    unfold load_index.
    replace (text_eqb (get_model_fingerprint name model) (get_model_fingerprint name model))
      with true by (symmetry; now apply text_eqb_eq).
    cbn [negb].
    replace (text_eqb (u "consistent") (u "changed")) with false by reflexivity.
    destruct (existing_doc_ids_ok md0 Hkeys) as (E & HE & Hz).
    rewrite HE, bind_return.
    set (files0 := {| faiss_index_file := Some index0; metadata_with_id_file := Some md0;
                      model_fingerprint_file :=
                        Some (FingerprintRecord (get_model_fingerprint name model)) |}) in *.
    refine (Hcore E Hz
              (fun r => match r with
                        | Return (status, invalid_files, Some written) =>
                          (Return (status, invalid_files), written)
                        | Return (status, invalid_files, None) =>
                          (Return (status, invalid_files), files0)
                        | Raise e => (Raise e, files0)
                        end) _). reflexivity.
Qed.

End IndexFiles.

Section StoreInvariant.

Local Open Scope nat_scope.

Lemma size_list_to_set_le (l : list text) : size (list_to_set l : gset text) <= length l.
Proof.
  induction l as [|x l IH].
  { rewrite list_to_set_nil, size_empty. reflexivity. }
  rewrite list_to_set_cons, size_union_alt, size_singleton. cbn [length].
  pose proof (subseteq_size (list_to_set l ∖ {[x]}) (list_to_set l : gset text)) as H.
  assert (size (list_to_set l ∖ {[x]} : gset text) <= size (list_to_set l : gset text))
    by (apply H; set_solver).
  lia.
Qed.

Lemma size_list_to_set_nodup (l : list text) :
  size (list_to_set l : gset text) = length l -> NoDup l.
Proof.
  induction l as [|x l IH]; [constructor|].
  rewrite list_to_set_cons. cbn [length].
  intros H. pose proof (size_list_to_set_le l) as Hle.
  destruct (decide (x ∈ l)) as [Hin|Hin].
  - exfalso. replace ({[x]} ∪ list_to_set l : gset text) with (list_to_set l : gset text) in H
      by set_solver. lia.
  - rewrite size_union, size_singleton in H by set_solver.
    constructor; [exact Hin|]. apply IH. lia.
Qed.

Lemma size_by_keys (m : gmap text doc_meta) (l : list text) :
  (forall k, is_Some (m !! k) <-> k ∈ l) -> size m = size (list_to_set l : gset text).
Proof.
  intros H. rewrite <- (size_dom (D := gset text)). f_equal.
  apply set_eq. intros k. now rewrite elem_of_dom, elem_of_list_to_set.
Qed.

Lemma keys_of_survivors (model : SentenceTransformer) (docs : list doc_meta)
      (new_md : gmap text doc_meta) :
  let surv := List.filter (survives model) docs in
  (forall doc, doc ∈ surv -> new_md !! doc_key doc = docs_map ∅ docs !! doc_id doc) ->
  (forall k, is_Some (new_md !! k) -> exists doc, doc ∈ surv /\ k = doc_key doc) ->
  forall k, is_Some (new_md !! k) <-> k ∈ List.map doc_key surv.
Proof.
  intros surv Hin Hout k. split.
  - intros Hk. destruct (Hout k Hk) as (doc & Hd & ->).
    now apply list_elem_of_In, in_map, list_elem_of_In.
  - intros Hk. apply list_elem_of_In, in_map_iff in Hk. destruct Hk as (doc & <- & Hd).
    apply list_elem_of_In in Hd. rewrite (Hin doc Hd).
    apply docs_map_some. apply list_elem_of_In, filter_In in Hd.
    now apply list_elem_of_In.
Qed.

Lemma new_entries_disjoint (model : SentenceTransformer) (docs : list doc_meta)
      (new_md md : gmap text doc_meta) :
  (forall doc, doc ∈ docs -> md !! doc_key doc = None) ->
  (forall k, is_Some (new_md !! k) ->
             exists doc, doc ∈ List.filter (survives model) docs /\ k = doc_key doc) ->
  new_md ##ₘ md.
Proof.
  intros Hfresh Hout. apply map_disjoint_alt. intros k.
  destruct (new_md !! k) as [m|] eqn:E; [right|now left].
  destruct (Hout k) as (doc & Hd & ->); [now rewrite E|].
  apply Hfresh. apply list_elem_of_In, filter_In in Hd. now apply list_elem_of_In.
Qed.

Lemma store_inv_count (model : SentenceTransformer) (files : disk) :
  store_inv files -> ntotal (working_index model files) = size (stored_metadata files).
Proof.
  intros [->|(index & md & fp & -> & Hc & _)]; [reflexivity|exact Hc].
Qed.

Lemma store_inv_keys (files : disk) (k : text) :
  store_inv files -> is_Some (stored_metadata files !! k) -> exists z, k = str_of_Z z.
Proof.
  intros [->|(index & md & fp & -> & _ & Hk)]; [|apply Hk].
  intros [? H]. change (stored_metadata no_files) with (∅ : gmap text doc_meta) in H.
  now rewrite lookup_empty in H.
Qed.

Lemma store_inv_same_model_dec (name : text) (model : SentenceTransformer) (files : disk) :
  store_inv files ->
  same_model name model files \/
  exists index md stored,
    faiss_index_file files = Some index /\ metadata_with_id_file files = Some md /\
    model_fingerprint_file files = Some (FingerprintRecord stored) /\
    stored <> get_model_fingerprint name model.
Proof.
  intros [->|(index & md & fp & -> & _ & _)].
  - left. intros stored H. discriminate.
  - destruct (decide (fp = get_model_fingerprint name model)) as [->|Hne].
    + left. intros stored [= <-]. reflexivity.
    + right. now exists index, md, fp.
Qed.

(** One call of [index_files] keeps the invariant. *)
Lemma index_files_store_inv (docs : list doc_meta) (name : text)
      (model : SentenceTransformer) (files : disk) :
  store_inv files -> store_inv (snd (index_files docs name model files)).
Proof.
  intros Hinv. destruct docs as [|d0 rest]; [exact Hinv|].
  set (docs := d0 :: rest). assert (Hne : docs <> []) by discriminate.
  destruct (store_inv_same_model_dec name model files Hinv)
    as [Hsame|(index & md & stored & Hi & Hm & Hf & Hdiff)].
  2: { now rewrite (index_files_model_changed model name docs files index md stored). }
  destruct (index_files_step model name docs files Hinv Hsame Hne)
    as [[_ ->]|(Hfresh & new_md & Hin & Hout & ->)]; [exact Hinv|].
  destruct (List.filter (survives model) docs) as [|s0 srest] eqn:Hsurv; [exact Hinv|].
  rewrite <- Hsurv in *.
  destruct (_ =? _)%nat eqn:Hcount; [|exact Hinv].
  apply Nat.eqb_eq in Hcount. right.
  eexists _, _, _. split; [reflexivity|]. split.
  - rewrite ntotal_add_with_ids by now rewrite !length_map.
    now rewrite length_map.
  - intros k Hk. apply lookup_union_is_Some in Hk. destruct Hk as [Hk|Hk].
    + destruct (Hout k Hk) as (doc & _ & ->). now exists (doc_id doc).
    + now apply (store_inv_keys files).
Qed.

Lemma reachable_store_inv (files : disk) : reachable files -> store_inv files.
Proof.
  induction 1 as [|files docs name model _ IH]; [now left|].
  now apply index_files_store_inv.
Qed.

End StoreInvariant.

Import Examples.

(** C1, as amended: for a non-empty batch, when the three files exist and the
    stored fingerprint differs from that of the active model, [index_files]
    returns [model_changed_error] with every input file name, and the files
    after the call are the files before it, so that the entry count is
    unchanged. *)
Theorem model_changed_gate (docs : list doc_meta) (name : text)
        (model : SentenceTransformer) (files : disk)
        (index : faiss_index) (md : gmap text doc_meta) (stored : text) :
  docs <> [] ->
  faiss_index_file files = Some index ->
  metadata_with_id_file files = Some md ->
  model_fingerprint_file files = Some (FingerprintRecord stored) ->
  stored <> get_model_fingerprint name model ->
  fst (index_files docs name model files)
  = Return (u "model_changed_error", List.map file_name docs) /\
  snd (index_files docs name model files) = files /\
  entry_count (snd (index_files docs name model files)) = entry_count files.
Proof.
  intros Hne Hi Hm Hf Hdiff.
  rewrite (index_files_model_changed model name docs files index md stored Hne Hi Hm Hf Hdiff).
  repeat split.
Qed.

Lemma model_changed_gate_witness :
  fst (index_files batch_B demo_name other_model files_after_A)
  = Return (u "model_changed_error", [u "d.pdf"; u "e.pptx"]) /\
  snd (index_files batch_B demo_name other_model files_after_A) = files_after_A /\
  entry_count (snd (index_files batch_B demo_name other_model files_after_A)) = 3%nat.
Proof.
  refine (model_changed_gate batch_B demo_name other_model files_after_A _ _ _ _ _ _ _ _).
  - discriminate.
  - vm_compute. reflexivity.
  - vm_compute. reflexivity.
  - vm_compute. reflexivity.
  - vm_compute. discriminate.
Defined.

(** C1 as stated fails on the empty batch: with the three files present and
    another model's fingerprint stored, the call raises [AssertionError]. *)
Lemma model_changed_gate_empty_batch :
  faiss_index_file stale_files = Some (IndexFlatIP 2) /\
  metadata_with_id_file stale_files = Some ∅ /\
  model_fingerprint_file stale_files = Some (FingerprintRecord (u "00000000")) /\
  u "00000000" <> get_model_fingerprint demo_name demo_model /\
  index_files [] demo_name demo_model stale_files = (Raise AssertionError, stale_files) /\
  fst (index_files [] demo_name demo_model stale_files)
  <> Return (u "model_changed_error", List.map file_name []).
Proof.
  split; [reflexivity|]. split; [reflexivity|]. split; [reflexivity|].
  split; [vm_compute; discriminate|]. split; [reflexivity|discriminate].
Qed.

Section VectorFilter.

Lemma invalid_vector_iff (v : vector) :
  invalid_vector v = true <->
  NaN ∈ v \/ Forall (fun x => exists q, x = Fin q /\ (Qabs q <= ATOL)%Q) v.
Proof.
  unfold invalid_vector. rewrite orb_true_iff, existsb_exists, forallb_forall. split.
  - intros [(x & Hin & Hx)|Hall].
    + left. destruct x; try discriminate. now apply list_elem_of_In.
    + right. apply Forall_forall. intros x Hx.
      specialize (Hall x (proj1 (list_elem_of_In _ _) Hx)).
      destruct x as [| |q]; try discriminate. exists q. split; [reflexivity|].
      now apply Qle_bool_iff.
  - intros [Hnan|Hall].
    + left. exists NaN. split; [now apply list_elem_of_In|reflexivity].
    + right. intros x Hx. apply list_elem_of_In in Hx.
      rewrite Forall_forall in Hall. destruct (Hall x Hx) as (q & -> & Hq).
      now apply Qle_bool_iff.
Qed.

Lemma filter_vectors_keeps (vs : list vector) (i : nat) :
  fst (filter_vectors i vs) = List.filter (fun v => negb (invalid_vector v)) vs.
Proof.
  pose proof (filter_vectors_fst (fun v : vector => v) vs i) as H.
  now rewrite !List.map_id in H.
Qed.

End VectorFilter.

Section Batches.

Variable model : SentenceTransformer.
Variable name : text.

Local Open Scope nat_scope.

Lemma NoDup_map_str_of_Z (l : list Z) : NoDup l -> NoDup (List.map str_of_Z l).
Proof.
  induction 1 as [|z l Hz _ IH]; simpl; constructor; [|exact IH].
  intros Hin. apply list_elem_of_In, in_map_iff in Hin. destruct Hin as (z' & Heq & Hin).
  apply str_of_Z_inj in Heq. subst z'. now apply Hz, list_elem_of_In.
Qed.

(** A batch of fresh documents whose surviving ids are distinct, on a store
    left by [index_files] under the same model. *)
Lemma index_files_accepts (docs : list doc_meta) (files : disk) :
  store_inv files -> same_model name model files -> docs <> [] ->
  (forall doc, doc ∈ docs -> stored_metadata files !! doc_key doc = None) ->
  NoDup (List.map doc_id (List.filter (survives model) docs)) ->
  let surv := List.filter (survives model) docs in
  match surv with
  | [] =>
    index_files docs name model files
    = (Return (u "no_valid_vectors_error", List.map file_name docs), files)
  | _ :: _ =>
    exists new_md : gmap text doc_meta,
      (forall k, is_Some (new_md !! k) <-> k ∈ List.map doc_key surv) /\
      (forall doc, doc ∈ surv -> new_md !! doc_key doc = docs_map ∅ docs !! doc_id doc) /\
      index_files docs name model files
      = (Return (u "valid_output",
                 List.map file_name (List.filter (discarded model) docs)),
         save_index_and_metadata
           (add_with_ids (working_index model files)
                         (List.map (doc_vector model) surv) (List.map doc_id surv))
           (new_md ∪ stored_metadata files) name model)
  end.
Proof.
  intros Hinv Hsame Hne Hfresh Hnd surv.
  destruct (index_files_step model name docs files Hinv Hsame Hne)
    as [[Hnot _]|(_ & new_md & Hin & Hout & Heq)]; [contradiction|].
  fold surv in Hin, Hout, Heq.
  pose proof (keys_of_survivors model docs new_md Hin Hout) as Hkeys.
  pose proof (new_entries_disjoint model docs new_md _ Hfresh Hout) as Hdisj.
  fold surv in Hkeys.
  assert (Hsize : size (new_md ∪ stored_metadata files)
                  = length surv + size (stored_metadata files)).
  { rewrite (map_size_disj_union _ _ Hdisj), (size_by_keys _ _ Hkeys).
    rewrite size_list_to_set, length_map; [reflexivity|].
    replace (List.map doc_key surv) with (List.map str_of_Z (List.map doc_id surv))
      by (rewrite List.map_map; reflexivity).
    now apply NoDup_map_str_of_Z. }
  destruct surv as [|s0 srest] eqn:Hsurv; [exact Heq|].
  exists new_md. split; [exact Hkeys|]. split; [exact Hin|].
  rewrite Heq, (store_inv_count model files Hinv), Hsize.
  replace (size (stored_metadata files) + length (s0 :: srest)
           =? length (s0 :: srest) + size (stored_metadata files)) with true
    by (symmetry; apply Nat.eqb_eq; lia).
  reflexivity.
Qed.

End Batches.

Section Tolerance.

Lemma Qabs_le_fraction (n : Z) (dn : positive) (a : Z) (b : positive) :
  (Qabs (n # dn) <= a # b)%Q <-> (Z.abs n * Z.pos b <= a * Z.pos dn)%Z.
Proof. unfold Qabs, Qle. cbn [Qnum Qden]. reflexivity. Qed.

(** On a single-precision value the three readings of the tolerance agree:
    no such value lies between 11258999 / 2^50 and the next one. *)
Lemma float32_tolerance (q : Q) :
  float32 q ->
  ((Qabs q <= ATOL)%Q <-> (Qabs q <= ATOL_float64)%Q) /\
  ((Qabs q <= ATOL)%Q <-> (Qabs q <= ATOL_float32)%Q).
Proof.
  intros (m & k & Hm & Hk & Hq). rewrite Hq.
  unfold ATOL, ATOL_float64, ATOL_float32. rewrite !Qabs_le_fraction.
  rewrite Z.abs_mul, (Z.abs_eq (2 ^ k)) by (apply Z.pow_nonneg; lia).
  pose proof (Z.abs_nonneg m) as HM. set (M := Z.abs m) in *.
  let c := eval vm_compute in (Z.pos (2 ^ 149)) in change (Z.pos (2 ^ 149)) with c.
  let c := eval vm_compute in (Z.pos (2 ^ 78)) in change (Z.pos (2 ^ 78)) with c.
  let c := eval vm_compute in (Z.pos (2 ^ 50)) in change (Z.pos (2 ^ 50)) with c.
  let c := eval vm_compute in (2 ^ 24)%Z in change (2 ^ 24)%Z with c in Hm.
  destruct (Z_le_gt_dec k 98) as [Hlo|Hhi].
  - assert (HP : (0 < 2 ^ k <= 2 ^ 98)%Z)
      by (split; [apply Z.pow_pos_nonneg; lia|apply Z.pow_le_mono_r; lia]).
    let c := eval vm_compute in (2 ^ 98)%Z in change (2 ^ 98)%Z with c in HP.
    assert (HMP : (0 <= M * 2 ^ k <= 16777215 * 2 ^ k)%Z)
      by (split; [apply Z.mul_nonneg_nonneg; lia|apply Z.mul_le_mono_nonneg_r; lia]).
    set (P := (2 ^ k)%Z) in *. set (MP := (M * P)%Z) in *. lia.
  - replace k with ((k - 99) + 99)%Z by lia. rewrite Z.pow_add_r by lia.
    let c := eval vm_compute in (2 ^ 99)%Z in change (2 ^ 99)%Z with c.
    rewrite Z.mul_assoc.
    assert (Hj : (0 <= M * 2 ^ (k - 99))%Z)
      by (apply Z.mul_nonneg_nonneg; [lia|apply Z.pow_nonneg; lia]).
    set (j := (M * 2 ^ (k - 99))%Z) in *. lia.
Qed.

End Tolerance.

Section ModelledCalls.

Lemma demo_model_normalized : normalized_output demo_model.
Proof.
  assert (H0 : float32 0).
  { exists 0%Z, 0%Z. split; [reflexivity|]. split; [lia|reflexivity]. }
  assert (H1 : float32 1).
  { exists 1%Z, 149%Z. split; [reflexivity|]. split; [lia|reflexivity]. }
  intros t. unfold demo_model. cbn [encode_text get_sentence_embedding_dimension].
  destruct (bool_decide _); (split; [reflexivity|repeat constructor; assumption]).
Qed.

Lemma non_finite_is_nan (model : SentenceTransformer) (t : text) :
  normalized_output model ->
  Exists (fun x => isfinite x = false) (encode_text model t) <-> NaN ∈ encode_text model t.
Proof.
  intros Hn. destruct (Hn t) as [_ Hall]. rewrite Forall_forall in Hall.
  rewrite Exists_exists. split.
  - intros (x & Hx & Hf). specialize (Hall x Hx).
    destruct x; [exact Hx|contradiction|discriminate].
  - intros H. now exists NaN.
Qed.

Lemma built_reachable (files : disk) : built files -> reachable files.
Proof.
  induction 1 as [|files docs name model _ IH _]; [constructor|].
  now apply reachable_index_files.
Qed.

Lemma docs_map_elem (docs : list doc_meta) : forall (acc : gmap Z doc_meta) (z : Z) (m : doc_meta),
  docs_map acc docs !! z = Some m -> m ∈ docs \/ acc !! z = Some m.
Proof.
  induction docs as [|x rest IH]; intros acc z m H; [now right|].
  unfold docs_map in *. simpl in H. apply IH in H. destruct H as [H|H].
  - left. now right.
  - destruct (decide (doc_id x = z)) as [Heq|Hne].
    + subst z. rewrite lookup_insert_eq in H. injection H as ->. left. left.
    + rewrite lookup_insert_ne in H by exact Hne. now right.
Qed.

Lemma index_files_serialisable (docs : list doc_meta) (name : text)
      (model : SentenceTransformer) (files : disk) :
  store_inv files -> forallb serialisable docs = true -> serialisable_store files ->
  serialisable_store (snd (index_files docs name model files)).
Proof.
  intros Hinv Hdocs Hs.
  destruct docs as [|d0 rest]; [exact Hs|].
  set (docs := d0 :: rest) in *. assert (Hne : docs <> []) by discriminate.
  destruct (store_inv_same_model_dec name model files Hinv)
    as [Hsame|(index & md & stored & Hi & Hm & Hf & Hdiff)].
  2: { now rewrite (index_files_model_changed model name docs files index md stored). }
  destruct (index_files_step model name docs files Hinv Hsame Hne)
    as [[_ ->]|(Hfresh & new_md & Hin & Hout & ->)]; [exact Hs|].
  destruct (List.filter (survives model) docs) as [|s0 srest] eqn:Hsurv; [exact Hs|].
  rewrite <- Hsurv in *.
  destruct (_ =? _)%nat; [|exact Hs].
  intros k m Hkm.
  change (stored_metadata (snd (_, save_index_and_metadata _ _ _ _)))
    with (new_md ∪ stored_metadata files) in Hkm.
  apply lookup_union_Some_raw in Hkm. destruct Hkm as [Hnew|[_ Hold]]; [|now apply (Hs k)].
  destruct (Hout k) as (doc & Hd & ->); [now rewrite Hnew|].
  rewrite (Hin doc Hd) in Hnew. apply docs_map_elem in Hnew.
  destruct Hnew as [Hm|Hm]; [|rewrite lookup_empty in Hm; discriminate].
  rewrite forallb_forall in Hdocs. now apply Hdocs, list_elem_of_In.
Qed.

Lemma built_serialisable (files : disk) : built files -> serialisable_store files.
Proof.
  induction 1 as [|files docs name model Hb IH (Hdocs & _)].
  - intros k m H. change (stored_metadata no_files) with (∅ : gmap text doc_meta) in H.
    rewrite lookup_empty in H. discriminate.
  - apply index_files_serialisable; [|exact Hdocs|exact IH].
    now apply reachable_store_inv, built_reachable.
Qed.

Lemma demo_call (docs : list doc_meta) (files : disk) :
  forallb serialisable docs = true ->
  d (working_index demo_model files) = 2%N ->
  modelled_call docs demo_model files.
Proof. intros Hd Hi. split; [exact Hd|]. split; [exact demo_model_normalized|exact Hi]. Qed.

End ModelledCalls.

(** C4, as amended.  The encoder returns normalised single-precision
    vectors, so that a component that is not finite is a NaN.  A vector is
    discarded exactly when it has a component that is not finite or all its
    components are within the tolerance of zero, whichever of the readings
    of 1e-8 the comparison is made with, and [encode_texts_lst] keeps the
    other vectors.  For a non-empty batch of serialisable documents that are
    not in the store yet, on a store built by [index_files] under the same
    model, with the dimension of the model and with distinct ids among the
    survivors: when no vector survives the call returns
    [no_valid_vectors_error] with every file name and leaves the files as
    they were; when at least one survives it returns [valid_output] with the
    file names of the discarded inputs in the invalid list, the surviving
    vectors added to the index under their ids and their metadata merged
    into the stored mapping. *)
Theorem degenerate_vectors_filtered :
  (forall (model : SentenceTransformer) (t : text),
     normalized_output model ->
     let v := encode_text model t in
     (invalid_vector v = true <->
      Exists (fun x => isfinite x = false) v \/
      Forall (fun x => exists q, x = Fin q /\ (Qabs q <= ATOL)%Q) v) /\
     (forall q, Fin q ∈ v ->
        ((Qabs q <= ATOL)%Q <-> (Qabs q <= ATOL_float64)%Q) /\
        ((Qabs q <= ATOL)%Q <-> (Qabs q <= ATOL_float32)%Q))) /\
  (forall (vs : list vector) (i : nat),
     fst (filter_vectors i vs) = List.filter (fun v => negb (invalid_vector v)) vs) /\
  (forall (name : text) (model : SentenceTransformer) (docs : list doc_meta) (files : disk),
     built files -> modelled_call docs model files ->
     same_model name model files -> docs <> [] ->
     (forall doc, doc ∈ docs -> stored_metadata files !! doc_key doc = None) ->
     NoDup (List.map doc_id (List.filter (survives model) docs)) ->
     let surv := List.filter (survives model) docs in
     match surv with
     | [] =>
       index_files docs name model files
       = (Return (u "no_valid_vectors_error", List.map file_name docs), files)
     | _ :: _ =>
       exists new_md : gmap text doc_meta,
         (forall k, is_Some (new_md !! k) <-> k ∈ List.map doc_key surv) /\
         (forall doc, doc ∈ surv -> new_md !! doc_key doc = docs_map ∅ docs !! doc_id doc) /\
         index_files docs name model files
         = (Return (u "valid_output",
                    List.map file_name (List.filter (discarded model) docs)),
            save_index_and_metadata
              (add_with_ids (working_index model files)
                            (List.map (doc_vector model) surv) (List.map doc_id surv))
              (new_md ∪ stored_metadata files) name model)
     end).
Proof.
  split; [|split; [exact filter_vectors_keeps|]].
  - intros model t Hn v. split.
    + unfold v. rewrite (non_finite_is_nan model t Hn). apply invalid_vector_iff.
    + intros q Hq. apply float32_tolerance.
      destruct (Hn t) as [_ Hall]. rewrite Forall_forall in Hall.
      exact (Hall (Fin q) Hq).
  - intros name model docs files Hbuilt _. apply index_files_accepts.
    now apply reachable_store_inv, built_reachable.
Qed.

Lemma degenerate_vectors_filtered_witness :
  invalid_vector (encode_text demo_model (u "Budget!")) = true /\
  fst (index_files batch_with_zero demo_name demo_model no_files)
  = Return (u "valid_output", [u "b.pdf"]) /\
  (ntotal <$> faiss_index_file (snd (index_files batch_with_zero demo_name demo_model no_files)))
  = Some 2%nat.
Proof.
  split.
  - apply (proj1 (proj1 degenerate_vectors_filtered demo_model (u "Budget!")
                    demo_model_normalized)).
    right. repeat constructor; exists 0%Q; (split; [reflexivity|discriminate]).
  - pose proof (proj2 (proj2 degenerate_vectors_filtered)
                  demo_name demo_model batch_with_zero no_files) as H.
    assert (Hs : List.filter (survives demo_model) batch_with_zero
                 = [ doc "a.pdf" "/docs/a.pdf" "Plan for the first quarter";
                     doc "c.pptx" "/docs/c.pptx" "Slides of the review" ])
      by (vm_compute; reflexivity).
    cbv zeta in H. rewrite Hs in H.
    destruct H as (new_md & _ & _ & Heq).
    + apply built_no_files.
    + apply demo_call; [vm_compute; reflexivity|reflexivity].
    + intros stored Hst. discriminate Hst.
    + discriminate.
    + intros d0 _. apply lookup_empty.
    + refine (bool_decide_unpack _ _). vm_compute. exact I.
    + rewrite Heq. split; vm_compute; reflexivity.
Defined.

(** C4 as stated fails on a batch that names one document twice: the two
    vectors survive the filter, and the call raises at the count check
    instead of returning [valid_output]; nothing is added to the store. *)
Lemma surviving_duplicates_are_not_added :
  modelled_call batch_twice demo_model no_files /\
  List.filter (survives demo_model) batch_twice = batch_twice /\
  index_files batch_twice demo_name demo_model no_files = (Raise AssertionError, no_files) /\
  (forall invalid,
     fst (index_files batch_twice demo_name demo_model no_files)
     <> Return (u "valid_output", invalid)) /\
  entry_count (snd (index_files batch_twice demo_name demo_model no_files)) = 0%nat.
Proof.
  split; [apply demo_call; [vm_compute; reflexivity|reflexivity]|].
  split; [vm_compute; reflexivity|].
  assert (H : index_files batch_twice demo_name demo_model no_files
              = (Raise AssertionError, no_files)) by (vm_compute; reflexivity).
  rewrite H. split; [reflexivity|]. split; [intros invalid; discriminate|reflexivity].
Qed.

Section Incremental.

Local Open Scope nat_scope.

Lemma entry_count_size (files : disk) : entry_count files = size (stored_metadata files).
Proof.
  unfold entry_count, stored_metadata.
  destruct (metadata_with_id_file files); simpl; [reflexivity|].
  symmetry. apply map_size_empty.
Qed.

Lemma returned_parts (s1 s2 : text) (i1 i2 : list text) (f1 f2 : disk) :
  (Return (s1, i1), f1) = (Return (s2, i2), f2) -> s1 = s2 /\ i1 = i2 /\ f1 = f2.
Proof. intros H. inversion H. repeat split. Qed.

Lemma status_texts_differ :
  u "model_changed_error" <> u "valid_output" /\
  u "no_valid_vectors_error" <> u "valid_output".
Proof. split; vm_compute; discriminate. Qed.

End Incremental.

(** C2: a call of [index_files] that returns [valid_output] on a store left
    by earlier calls keeps every entry of the store with its metadata, adds
    one entry for each surviving document of the batch (their keys are
    distinct and were not in the store; with distinct ids in the batch each
    entry holds the document's own metadata), so that the entry count grows
    by the number of survivors, and leaves as many vectors in the index as
    entries in the metadata mapping. *)
Theorem incremental_indexing (docs : list doc_meta) (name : text)
        (model : SentenceTransformer) (files files' : disk) (invalid : list text) :
  reachable files ->
  index_files docs name model files = (Return (u "valid_output", invalid), files') ->
  let surv := List.filter (survives model) docs in
  exists (index' : faiss_index) (new_md : gmap text doc_meta),
    faiss_index_file files' = Some index' /\
    metadata_with_id_file files' = Some (new_md ∪ stored_metadata files) /\
    (forall k m, stored_metadata files !! k = Some m ->
                 stored_metadata files' !! k = Some m) /\
    (forall k, is_Some (new_md !! k) <-> k ∈ List.map doc_key surv) /\
    NoDup (List.map doc_key surv) /\
    (forall doc, doc ∈ docs -> stored_metadata files !! doc_key doc = None) /\
    (NoDup (List.map doc_id docs) ->
     forall doc, doc ∈ surv -> stored_metadata files' !! doc_key doc = Some doc) /\
    entry_count files' = (entry_count files + length surv)%nat /\
    ntotal index' = entry_count files'.
Proof.
  intros Hreach Hcall surv.
  pose proof (reachable_store_inv files Hreach) as Hinv.
  destruct status_texts_differ as [Hd1 Hd2].
  assert (Hne : docs <> []).
  { intros ->. rewrite index_files_empty in Hcall. discriminate. }
  destruct (store_inv_same_model_dec name model files Hinv)
    as [Hsame|(index & md & stored & Hi & Hm & Hf & Hdiff)].
  2: { rewrite (index_files_model_changed model name docs files index md stored) in Hcall
         by assumption.
       apply returned_parts in Hcall. destruct Hcall as [Hst _]. now apply Hd1 in Hst. }
  destruct (index_files_step model name docs files Hinv Hsame Hne)
    as [[_ Heq]|(Hfresh & new_md & Hin & Hout & Heq)];
    rewrite Heq in Hcall; [discriminate|].
  fold surv in Hin, Hout, Hcall.
  pose proof (keys_of_survivors model docs new_md Hin Hout) as Hkeys. fold surv in Hkeys.
  pose proof (new_entries_disjoint model docs new_md _ Hfresh Hout) as Hdisj.
  destruct surv as [|s0 srest] eqn:Hsurv.
  { apply returned_parts in Hcall. destruct Hcall as [Hst _]. now apply Hd2 in Hst. }
  rewrite <- Hsurv in *.
  destruct (_ =? _)%nat eqn:Hcount; [|discriminate].
  apply Nat.eqb_eq in Hcount.
  apply returned_parts in Hcall. destruct Hcall as (_ & _ & <-).
  rewrite (store_inv_count model files Hinv), (map_size_disj_union _ _ Hdisj) in Hcount.
  rewrite (size_by_keys _ _ Hkeys) in Hcount.
  assert (Hnd : NoDup (List.map doc_key surv)).
  { apply size_list_to_set_nodup. rewrite length_map. lia. }
  eexists _, new_md. split; [reflexivity|]. split; [reflexivity|].
  change (stored_metadata (save_index_and_metadata _ _ _ _))
    with (new_md ∪ stored_metadata files).
  split; [|split; [exact Hkeys|split; [exact Hnd|split; [exact Hfresh|split; [|split]]]]].
  - intros k m Hk. rewrite lookup_union_r; [exact Hk|].
    destruct (proj1 (map_disjoint_alt _ _) Hdisj k) as [H|H]; [exact H|congruence].
  - intros Hids doc Hd. apply lookup_union_Some_l. rewrite (Hin doc Hd).
    apply docs_map_nodup; [exact Hids|].
    subst surv. apply list_elem_of_In, filter_In in Hd. now apply list_elem_of_In.
  - rewrite !entry_count_size.
    change (stored_metadata (save_index_and_metadata _ _ _ _))
      with (new_md ∪ stored_metadata files).
    rewrite (map_size_disj_union _ _ Hdisj), (size_by_keys _ _ Hkeys). lia.
  - rewrite entry_count_size.
    change (stored_metadata (save_index_and_metadata _ _ _ _))
      with (new_md ∪ stored_metadata files).
    rewrite ntotal_add_with_ids by now rewrite !length_map.
    rewrite (store_inv_count model files Hinv), length_map,
      (map_size_disj_union _ _ Hdisj), (size_by_keys _ _ Hkeys). lia.
Qed.

Lemma incremental_indexing_witness :
  entry_count files_after_A = 3%nat /\
  entry_count (snd (index_files batch_B demo_name demo_model files_after_A)) = 5%nat /\
  (forall k m, stored_metadata files_after_A !! k = Some m ->
     stored_metadata (snd (index_files batch_B demo_name demo_model files_after_A)) !! k
     = Some m).
Proof.
  assert (Hreach : reachable files_after_A)
    by (apply reachable_index_files, reachable_no_files).
  assert (Hcall : index_files batch_B demo_name demo_model files_after_A
                  = (Return (u "valid_output", []),
                     snd (index_files batch_B demo_name demo_model files_after_A))).
  { apply injective_projections; [vm_compute; reflexivity|reflexivity]. }
  destruct (incremental_indexing batch_B demo_name demo_model files_after_A _ [] Hreach Hcall)
    as (index' & new_md & _ & _ & Hkeep & _ & _ & _ & _ & Hcount & _).
  split; [vm_compute; reflexivity|]. split; [|exact Hkeep].
  rewrite Hcount. vm_compute. reflexivity.
Defined.

(** ** The search path *)

Section SearchPath.

Variable index_search : faiss_index -> vector -> nat -> list float * list Z.

Lemma search_files_trace (query : text) (top_k : nat) (model : SentenceTransformer)
      (files : disk) :
  snd (search_files index_search query top_k model files)
  = match metadata_with_id_file files, faiss_index_file files with
    | Some _, Some _ =>
      [ Encode [u "query: " ++ strip query]; ReadIndex;
        Search (encode_text model (u "query: " ++ strip query)) top_k; ReadMetadata ]
    | _, _ => [ShowError]
    end.
Proof.
  unfold search_files, search_by_embedding.
  destruct (metadata_with_id_file files), (faiss_index_file files); try reflexivity.
  now destruct (index_search _ _ _).
Qed.

Lemma build_text_for_embedding_prefix (m : doc_meta) :
  exists rest, build_text_for_embedding m = u "passage: " ++ rest.
Proof. unfold build_text_for_embedding. eauto. Qed.

End SearchPath.

(** C3, as amended: whatever the query, the only text a search through
    [search_files] hands to the encoder is "query: " followed by the query
    without the blanks at its ends, and the top-k search runs after it, on
    the vector of that text; when the two store files exist the run is
    exactly: encode, read the index, search, read the metadata.
    [search_by_embedding] itself encodes the text it is given as it is: the
    prefix is its caller's.  The prefix differs from "passage: ", with
    which every canonical embedding text starts. *)
Theorem search_encodes_prefixed_query
        (index_search : faiss_index -> vector -> nat -> list float * list Z)
        (query : text) (top_k : nat) (model : SentenceTransformer) (files : disk) :
  let trace := snd (search_files index_search query top_k model files) in
  let sent := u "query: " ++ strip query in
  (forall texts, Encode texts ∈ trace -> texts = [sent]) /\
  (forall vec k, Search vec k ∈ trace ->
     vec = encode_text model sent /\ k = top_k /\
     exists before after,
       trace = before ++ Search vec k :: after /\ Encode [sent] ∈ before) /\
  (is_Some (faiss_index_file files) -> is_Some (metadata_with_id_file files) ->
   trace = [Encode [sent]; ReadIndex; Search (encode_text model sent) top_k; ReadMetadata]) /\
  (forall texts,
     Encode texts ∈ snd (search_by_embedding index_search query model files top_k) ->
     texts = [query]) /\
  u "query: " <> u "passage: " /\
  (forall m, exists rest, build_text_for_embedding m = u "passage: " ++ rest).
Proof.
  intros trace sent. subst trace. rewrite search_files_trace. fold sent.
  split; [|split; [|split; [|split; [|split]]]].
  - intros texts H.
    destruct (metadata_with_id_file files), (faiss_index_file files);
      repeat (apply elem_of_cons in H; destruct H as [H|H]; [congruence|]);
      inversion H.
  - intros vec k H.
    destruct (metadata_with_id_file files), (faiss_index_file files);
      repeat (apply elem_of_cons in H; destruct H as [H|H];
              [try discriminate H|]); try (now inversion H).
    injection H as -> ->. split; [reflexivity|]. split; [reflexivity|].
    exists [Encode [sent]; ReadIndex], [ReadMetadata]. split; [reflexivity|left].
  - intros [? ->] [? ->]. reflexivity.
  - intros texts H. unfold search_by_embedding in H.
    destruct (faiss_index_file files), (metadata_with_id_file files);
      try (now inversion H).
    destruct (index_search _ _ _). cbn [snd] in H.
    repeat (apply elem_of_cons in H; destruct H as [H|H]; [congruence|]);
      inversion H.
  - vm_compute. discriminate.
  - apply build_text_for_embedding_prefix.
Qed.

Lemma search_encodes_prefixed_query_witness :
  snd (search_files (fun _ _ _ => ([Fin 1], [compute_document_id (u "/docs/a.pdf")]))
                    (u "  quarterly plan ") 5 demo_model files_after_A)
  = [ Encode [u "query: quarterly plan"]; ReadIndex;
      Search [Fin 1; Fin 0] 5; ReadMetadata ].
Proof.
  refine (proj1 (proj2 (proj2
            (search_encodes_prefixed_query
               (fun _ _ _ => ([Fin 1], [compute_document_id (u "/docs/a.pdf")]))
               (u "  quarterly plan ") 5 demo_model files_after_A))) _ _).
  - eexists. vm_compute. reflexivity.
  - eexists. vm_compute. reflexivity.
Defined.

(** C3 as stated fails in two places: [search_by_embedding] encodes the
    query it is given with no prefix, and through [search_files] a query
    with blanks around it is encoded without them, which is not the prefix
    followed by the query. *)
Lemma search_by_embedding_adds_no_prefix :
  snd (search_by_embedding
         (fun _ _ _ => ([Fin 1], [compute_document_id (u "/docs/a.pdf")]))
         (u "quarterly plan") demo_model files_after_A 5)
  = [ Encode [u "quarterly plan"]; ReadIndex; Search [Fin 1; Fin 0] 5; ReadMetadata ] /\
  u "quarterly plan" <> u "query: " ++ u "quarterly plan" /\
  snd (search_files (fun _ _ _ => ([Fin 1], [compute_document_id (u "/docs/a.pdf")]))
                    (u "  quarterly plan ") 5 demo_model files_after_A)
  = [ Encode [u "query: quarterly plan"]; ReadIndex;
      Search [Fin 1; Fin 0] 5; ReadMetadata ] /\
  u "query: quarterly plan" <> u "query: " ++ u "  quarterly plan ".
Proof.
  split; [vm_compute; reflexivity|]. split; [vm_compute; discriminate|].
  split; [vm_compute; reflexivity|]. vm_compute. discriminate.
Qed.

(** ** The summarisation step *)

Import Json Replies.

Section BraceSpan.

Local Open Scope nat_scope.

Lemma star_any_greedy (n : nat) (k : text -> option text) (t : text) : forall fuel,
  length t <= fuel ->
  star_loop (run n any) k fuel t = greedy_any k t.
Proof.
  induction t as [|c t IH]; intros fuel Hf.
  - destruct fuel; reflexivity.
  - destruct fuel as [|fuel]; [simpl in Hf; lia|].
    cbn [star_loop greedy_any run any length].
    replace (length t <? S (length t)) with true by (symmetry; apply Nat.ltb_lt; lia).
    rewrite IH by (simpl in Hf; lia). reflexivity.
Qed.

Lemma run_braces (n : nat) (s : text) :
  run n BRACES s Some =
  match s with
  | c :: t => if (0x7B =? c)%N then greedy_any closing_brace t else None
  | [] => None
  end.
Proof.
  destruct s as [|c t]; [reflexivity|].
  unfold BRACES. cbn [seqs run lit]. destruct (0x7B =? c)%N; [|reflexivity].
  rewrite star_any_greedy by reflexivity.
  f_equal.
Qed.

Lemma greedy_no_brace (t : text) : 0x7D%N ∉ t -> greedy_any closing_brace t = None.
Proof.
  induction t as [|c t IH]; intros H; [reflexivity|].
  cbn [greedy_any]. rewrite IH by (intros Hin; apply H; now right).
  cbn [closing_brace].
  replace (0x7D =? c)%N with false; [reflexivity|].
  symmetry. apply N.eqb_neq. intros <-. apply H. left.
Qed.

Lemma greedy_last_brace (body post : text) :
  0x7D%N ∉ post -> greedy_any closing_brace (body ++ 0x7D%N :: post) = Some post.
Proof.
  intros H. induction body as [|c body IH].
  - cbn [app greedy_any]. rewrite (greedy_no_brace post H). reflexivity.
  - cbn [app greedy_any]. now rewrite IH.
Qed.

Lemma search_braces_none (n : nat) (s : text) :
  0x7D%N ∉ s -> search_from n BRACES s = None.
Proof.
  induction s as [|c t IH]; intros H.
  - reflexivity.
  - cbn [search_from]. rewrite run_braces.
    assert (Ht : 0x7D%N ∉ t) by (intros Hin; apply H; now right).
    rewrite (greedy_no_brace t Ht). destruct (0x7B =? c)%N; now apply IH.
Qed.

Lemma search_braces_skip (n : nat) (pre rest : text) :
  0x7B%N ∉ pre -> search_from n BRACES (pre ++ rest) = search_from n BRACES rest.
Proof.
  induction pre as [|c pre IH]; intros H; [reflexivity|].
  cbn [app search_from]. rewrite run_braces.
  replace (0x7B =? c)%N with false
    by (symmetry; apply N.eqb_neq; intros <-; apply H; left).
  apply IH. intros Hin. apply H. now right.
Qed.

Lemma search_braces_span (pre body post : text) :
  0x7B%N ∉ pre -> 0x7D%N ∉ post ->
  re_search BRACES (pre ++ 0x7B%N :: body ++ 0x7D%N :: post)
  = Some (0x7B%N :: body ++ [0x7D%N]).
Proof.
  intros Hpre Hpost. unfold re_search. rewrite search_braces_skip by exact Hpre.
  cbn [search_from]. rewrite run_braces. cbn [N.eqb Pos.eqb].
  change (0x7B =? 0x7B)%N with true. cbv iota.
  rewrite (greedy_last_brace body post Hpost). f_equal.
  unfold consumed. cbn [length]. rewrite length_app. cbn [length].
  replace (S (length body + S (length post)) - length post) with (S (S (length body))) by lia.
  cbn [take]. f_equal.
  replace (S (length body)) with (length (body ++ [0x7D%N]))
    by (rewrite length_app; simpl; lia).
  replace (body ++ 0x7D%N :: post) with ((body ++ [0x7D%N]) ++ post)
    by now rewrite <- app_assoc.
  apply take_app_length.
Qed.

Lemma search_braces_missing (out : text) :
  (0x7B%N ∉ out \/ exists pre rest, out = pre ++ 0x7B%N :: rest /\ 0x7B%N ∉ pre /\ 0x7D%N ∉ rest) ->
  re_search BRACES out = None.
Proof.
  unfold re_search. intros [H|(pre & rest & -> & Hpre & Hrest)].
  - rewrite <- (app_nil_r out). rewrite search_braces_skip by exact H. reflexivity.
  - rewrite search_braces_skip by exact Hpre.
    cbn [search_from]. rewrite run_braces. change (0x7B =? 0x7B)%N with true. cbv iota.
    rewrite (greedy_no_brace rest Hrest). now apply search_braces_none.
Qed.

End BraceSpan.

Section ReadOutput.

Lemma read_output_not_sentinel (out fname : text) :
  not_sentinel out ->
  read_output out fname =
  match re_search BRACES out with
  | None => Return (u "json_parse_error", None, None)
  | Some json_str =>
    info ← loads json_str;
    match read_info info fname with
    | Raise e => if caught e then Return (u "json_parse_error", None, None) else Raise e
    | r => r
    end
  end.
Proof.
  intros [H1 H2]. unfold read_output.
  replace (text_eqb out (u "http_request_error")) with false
    by (symmetry; apply not_true_is_false; now rewrite text_eqb_eq).
  replace (text_eqb out (u "unknown_ollama_error")) with false
    by (symmetry; apply not_true_is_false; now rewrite text_eqb_eq).
  reflexivity.
Qed.

Lemma summarize_result (ollama : nat -> text -> http_reply) (blocks : list text) (fname : text) :
  summarize_file_by_llm ollama blocks fname
  = (read_output (fst (retry_loop ollama (prompt_of fname blocks) max_retries [] [])) fname,
     snd (retry_loop ollama (prompt_of fname blocks) max_retries [] [])).
Proof. unfold summarize_file_by_llm. now destruct (retry_loop _ _ _ _ _). Qed.

End ReadOutput.

(** The span the pattern finds and the statuses that do not depend on the
    decoder: the span runs from the first opening brace to the last closing
    brace; a response without such a span, and a decoded object without the
    key "summary", or with a string summary and without the key "keywords",
    give [json_parse_error]. *)
Lemma json_span_and_parse_error :
  (forall pre body post : text,
     0x7B ∉ pre -> 0x7D ∉ post ->
     re_search BRACES (pre ++ 0x7B :: body ++ 0x7D :: post) = Some (0x7B :: body ++ [0x7D])) /\
  (forall out fname : text,
     not_sentinel out ->
     (0x7B ∉ out \/
      exists pre rest, out = pre ++ 0x7B :: rest /\ 0x7B ∉ pre /\ 0x7D ∉ rest) ->
     read_output out fname = Return (u "json_parse_error", None, None)) /\
  (forall (out fname json_str : text) (members : list (text * json)),
     not_sentinel out ->
     re_search BRACES out = Some json_str ->
     loads json_str = Return (JObject members) ->
     (member (u "summary") members = None \/
      ((exists s, member (u "summary") members = Some (JString s)) /\
       member (u "keywords") members = None)) ->
     read_output out fname = Return (u "json_parse_error", None, None)).
Proof.
  split; [exact search_braces_span|]. split.
  - intros out fname Hs Hmiss.
    now rewrite (read_output_not_sentinel out fname Hs), (search_braces_missing out Hmiss).
  - intros out fname json_str members Hs Hfind Hload Hkeys.
    rewrite (read_output_not_sentinel out fname Hs), Hfind, Hload, bind_return.
    unfold read_info, getitem.
    destruct Hkeys as [->|[[s ->] Hk]]; [reflexivity|].
    rewrite bind_return. cbn [strip_method]. rewrite bind_return, Hk. reflexivity.
Qed.

(** Whatever the response, when the span does not decode the error of the
    decoder leaves the call: [json.loads] is called before the [try]
    block. *)
Lemma undecodable_span_raises (out fname span : text) (e : exn) :
  not_sentinel out -> re_search BRACES out = Some span -> loads span = Raise e ->
  read_output out fname = Raise JSONDecodeError.
Proof.
  intros Hs Hfind Hload.
  assert (He : e = JSONDecodeError).
  { unfold loads in Hload. destruct (parse_value _ _) as [[v rest]|]; [|congruence].
    destruct (skip_ws rest); congruence. }
  subst e. now rewrite (read_output_not_sentinel out fname Hs), Hfind, Hload.
Qed.

(** C5: on a response that holds a JSON object followed by a remark in
    braces, and on a response whose braces hold no JSON, the call raises
    [JSONDecodeError] where the claim has the status [json_parse_error]
    returned.  The first top-level JSON object of the first response is the
    well-formed answer, which alone gives [valid_output]; the program hands
    the decoder the span up to the last closing brace, and calls the decoder
    before the [try] block whose [except] clause names this very
    exception. *)
Theorem json_decode_error_escapes :
  first_top_level_json_object response_with_remark = Some good_response /\
  re_search BRACES response_with_remark = Some response_with_remark /\
  response_with_remark <> good_response /\
  read_output good_response (u "a.pdf")
  = Return (u "valid_output",
            Some (JArray [JString (u "plan"); JString (u "budget")]),
            Some (u "The document sets out the plan and the budget of the first quarter in detail.")) /\
  read_output response_with_remark (u "a.pdf") = Raise JSONDecodeError /\
  read_output (u "{oops}") (u "a.pdf") = Raise JSONDecodeError /\
  caught JSONDecodeError = true /\
  fst (summarize_file_by_llm (fun _ _ => Body (Some response_with_remark))
                             [u "Plan for the first quarter"] (u "a.pdf"))
  = Raise JSONDecodeError.
Proof.
  split; [vm_compute; reflexivity|]. split; [vm_compute; reflexivity|].
  split; [intros H; apply (f_equal length) in H; vm_compute in H; discriminate|].
  split; [vm_compute; reflexivity|]. split; [vm_compute; reflexivity|].
  split; [vm_compute; reflexivity|]. split; [reflexivity|].
  rewrite summarize_result. cbn [fst].
  replace (fst (retry_loop _ _ _ _ _)) with response_with_remark; [vm_compute; reflexivity|].
  unfold max_retries. cbn [retry_loop]. vm_compute. reflexivity.
Qed.

Section Retries.

Local Open Scope nat_scope.

Variable ollama : nat -> text -> http_reply.
Variable prompt : text.

Lemma long_enough (o : text) :
  (0 <? length o) && (100 <=? length o) = negb (length o <? 100).
Proof.
  destruct (length o <? 100) eqn:H.
  - apply Nat.ltb_lt in H. apply andb_false_iff. right. apply Nat.leb_gt. lia.
  - apply Nat.ltb_ge in H. apply andb_true_iff. split; [apply Nat.ltb_lt|apply Nat.leb_le]; lia.
Qed.

(** The three turns of the loop, written out. *)
Lemma retry_loop_three :
  snd (retry_loop ollama prompt max_retries [] []) =
  let r0 := ollama 0 prompt in
  let r1 := ollama 1 prompt in
  let r2 := ollama 2 prompt in
  if length (output_of r0) <? 100
  then if length (output_of r1) <? 100 then [r0; r1; r2] else [r0; r1]
  else [r0].
Proof.
  unfold max_retries. cbn [retry_loop length app]. rewrite !long_enough. cbv zeta.
  destruct (length (output_of (ollama 0 prompt)) <? 100); [|reflexivity].
  cbn [negb]. cbv iota.
  destruct (length (output_of (ollama 1 prompt)) <? 100); [|reflexivity].
  cbn [negb]. cbv iota.
  now destruct (length (output_of (ollama 2 prompt)) <? 100).
Qed.

Lemma transport_failure_is_short : length (output_of RequestException) = 18.
Proof. vm_compute. reflexivity. Qed.

End Retries.

(** C6, as amended: a run makes at least one and at most three requests; the
    request after the one of index [i] is made exactly when [i + 1 < 3] and
    the text returned for request [i] is shorter than 100 characters.  The
    text returned for a request that failed at the transport level is the
    18 characters of "http_request_error", so such a request, unless it is
    the third, is followed by another. *)
Theorem summarize_retries (ollama : nat -> text -> http_reply)
        (text_blocks : list text) (file_name : text) :
  let log := snd (summarize_file_by_llm ollama text_blocks file_name) in
  (1 <= length log <= 3)%nat /\
  (forall i r, log !! i = Some r -> r = ollama i (prompt_of file_name text_blocks)) /\
  (forall i r, log !! i = Some r ->
     (is_Some (log !! S i) <-> (S i < 3)%nat /\ (length (output_of r) < 100)%nat)) /\
  (forall i, log !! i = Some RequestException -> (S i < 3)%nat -> is_Some (log !! S i)).
Proof.
  intros log.
  assert (Hlog : log =
            let r0 := ollama 0%nat (prompt_of file_name text_blocks) in
            let r1 := ollama 1%nat (prompt_of file_name text_blocks) in
            let r2 := ollama 2%nat (prompt_of file_name text_blocks) in
            if (length (output_of r0) <? 100)%nat
            then if (length (output_of r1) <? 100)%nat then [r0; r1; r2] else [r0; r1]
            else [r0]).
  { subst log. rewrite summarize_result. apply retry_loop_three. }
  cbv zeta in Hlog. clearbody log.
  assert (Hiff : forall i r, log !! i = Some r ->
            (is_Some (log !! S i) <-> (S i < 3)%nat /\ (length (output_of r) < 100)%nat)).
  { intros i r Hi. subst log.
    destruct (length (output_of (ollama 0%nat _)) <? 100)%nat eqn:H0;
      [destruct (length (output_of (ollama 1%nat _)) <? 100)%nat eqn:H1|];
      destruct i as [|[|[|i]]]; simpl in Hi; try discriminate;
      injection Hi as <-; simpl;
      repeat match goal with
             | H : (_ <? _)%nat = true |- _ => apply Nat.ltb_lt in H
             | H : (_ <? _)%nat = false |- _ => apply Nat.ltb_ge in H
             end;
      (split; [intros [? Hs]; try discriminate Hs; split; lia
              |intros [? ?]; try lia; eauto]). }
  split; [|split; [|split]].
  - subst log. destruct (_ <? _)%nat; [destruct (_ <? _)%nat|]; simpl; lia.
  - intros i r Hi. subst log.
    destruct (_ <? _)%nat; [destruct (_ <? _)%nat|];
      destruct i as [|[|[|i]]]; simpl in Hi; try discriminate; now injection Hi.
  - exact Hiff.
  - intros i Hi Hlt. apply (Hiff i RequestException Hi). split; [exact Hlt|].
    rewrite transport_failure_is_short. lia.
Qed.

Lemma summarize_retries_witness :
  snd (summarize_file_by_llm unreachable [u "Plan of the quarter"] (u "a.pdf")) !! 0%nat
  = Some RequestException /\
  is_Some (snd (summarize_file_by_llm unreachable [u "Plan of the quarter"] (u "a.pdf")) !! 1%nat).
Proof.
  assert (H0 : snd (summarize_file_by_llm unreachable [u "Plan of the quarter"] (u "a.pdf"))
               !! 0%nat = Some RequestException) by (vm_compute; reflexivity).
  split; [exact H0|].
  apply (proj2 (proj2 (proj2 (summarize_retries unreachable [u "Plan of the quarter"]
                                                  (u "a.pdf")))) 0%nat H0).
  lia.
Defined.

(** C6 as stated fails on a service whose first request fails at the
    transport level: a second request follows, and its answer is used. *)
Lemma transport_failure_is_retried :
  flaky 0%nat (prompt_of (u "a.pdf") [u "Plan of the quarter"]) = RequestException /\
  snd (summarize_file_by_llm flaky [u "Plan of the quarter"] (u "a.pdf"))
  = [RequestException; Body (Some good_response)] /\
  fst (summarize_file_by_llm flaky [u "Plan of the quarter"] (u "a.pdf"))
  = Return (u "valid_output",
            Some (JArray [JString (u "plan"); JString (u "budget")]),
            Some (u "The document sets out the plan and the budget of the first quarter in detail.")).
Proof. repeat split; vm_compute; reflexivity. Qed.

(** * Further properties of the code *)

(** ** Identifiers and fingerprints *)

Section Digests.

Lemma le_bytes_small (k : nat) : forall n, Forall (fun b => b < 256) (Md5.le_bytes k n).
Proof.
  induction k as [|k IH]; intros n; simpl; constructor; [|apply IH].
  apply N.mod_upper_bound. lia.
Qed.

Lemma le_bytes_length (k : nat) : forall n, length (Md5.le_bytes k n) = k.
Proof. induction k as [|k IH]; intros n; simpl; [reflexivity|now rewrite IH]. Qed.

Lemma digest_small (msg : list N) : Forall (fun b => b < 256) (Md5.digest msg).
Proof.
  unfold Md5.digest. destruct (fold_left _ _ _) as [[[a b] c] d].
  repeat (apply Forall_app; split); apply le_bytes_small.
Qed.

Lemma digest_length (msg : list N) : length (Md5.digest msg) = 16%nat.
Proof.
  unfold Md5.digest. destruct (fold_left _ _ _) as [[[a b] c] d].
  now rewrite !length_app, !le_bytes_length.
Qed.

Lemma hex_digit_char (n : N) : n < 16 -> is_hex_char (Md5.hex_digit n).
Proof.
  intros H. unfold Md5.hex_digit, is_hex_char.
  destruct (n <? 10) eqn:E; [apply N.ltb_lt in E|apply N.ltb_ge in E]; lia.
Qed.

Lemma hexdigest_chars (msg : list N) : Forall is_hex_char (Md5.hexdigest msg).
Proof.
  unfold Md5.hexdigest. pose proof (digest_small msg) as H.
  induction H as [|b l Hb _ IH]; simpl; [constructor|].
  constructor; [|constructor; [|exact IH]]; apply hex_digit_char.
  - apply N.Div0.div_lt_upper_bound. lia.
  - apply N.mod_upper_bound. lia.
Qed.

Lemma hexdigest_length (msg : list N) : length (Md5.hexdigest msg) = 32%nat.
Proof.
  unfold Md5.hexdigest. pose proof (digest_length msg) as H.
  assert (G : forall l : list N,
             length (List.flat_map
                       (fun b => [Md5.hex_digit (b / 16); Md5.hex_digit (b mod 16)]) l)
             = (2 * length l)%nat).
  { induction l as [|b l IH]; simpl; [reflexivity|]. rewrite IH. lia. }
  rewrite G, H. reflexivity.
Qed.

Lemma hex_value_small (c : N) : is_hex_char c -> Md5.hex_value c < 16.
Proof.
  intros [[H1 H2]|[H1 H2]]; unfold Md5.hex_value.
  - replace ((48 <=? c) && (c <=? 57)) with true
      by (symmetry; apply andb_true_iff; split; apply N.leb_le; lia). lia.
  - replace ((48 <=? c) && (c <=? 57)) with false
      by (symmetry; apply andb_false_iff; right; apply N.leb_gt; lia).
    replace ((97 <=? c) && (c <=? 102)) with true
      by (symmetry; apply andb_true_iff; split; apply N.leb_le; lia). lia.
Qed.

Lemma int16_bound (s : text) : forall acc,
  Forall is_hex_char s ->
  fold_left (fun a c => a * 16 + Md5.hex_value c) s acc < (acc + 1) * 16 ^ N.of_nat (length s).
Proof.
  induction s as [|c s IH]; intros acc H; simpl fold_left.
  - simpl. lia.
  - inversion H as [|? ? Hc Hs]; subst. pose proof (hex_value_small c Hc) as Hv.
    eapply N.lt_le_trans; [apply IH, Hs|].
    replace (N.of_nat (length (c :: s))) with (N.succ (N.of_nat (length s)))
      by (simpl length; lia).
    rewrite N.pow_succ_r'. nia.
Qed.

End Digests.

(** X1: for a path that UTF-8 can encode, the id of the document is a
    non-negative 32-bit integer. *)
Theorem compute_document_id_range (path : text) :
  encodable path = true ->
  (0 <= compute_document_id path < 2 ^ 32)%Z.
Proof.
  intros _. unfold compute_document_id, Md5.int16. split; [lia|].
  set (s := take 8 (Md5.hexdigest (utf8_encode path))).
  assert (Hs : Forall is_hex_char s) by (apply Forall_take, hexdigest_chars).
  assert (Hl : length s = 8%nat)
    by (unfold s; rewrite length_take, hexdigest_length; reflexivity).
  pose proof (int16_bound s 0 Hs) as H. rewrite Hl in H.
  change ((0 + 1) * 16 ^ N.of_nat 8) with 4294967296 in H.
  change (2 ^ 32)%Z with 4294967296%Z. lia.
Qed.

Lemma compute_document_id_range_witness :
  (0 <= compute_document_id (u "/docs/a.pdf") < 2 ^ 32)%Z.
Proof. apply compute_document_id_range. vm_compute. reflexivity. Defined.

(** X2: a model fingerprint is a text of 8 lower-case hexadecimal digits. *)
Theorem get_model_fingerprint_shape (name : text) (model : SentenceTransformer) :
  length (get_model_fingerprint name model) = 8%nat /\
  Forall is_hex_char (get_model_fingerprint name model).
Proof.
  unfold get_model_fingerprint. split.
  - now rewrite length_take, hexdigest_length.
  - apply Forall_take, hexdigest_chars.
Qed.

(** X3: the key under which [index_files] stores a document's metadata,
    [str(doc_id)], is read back by [int] as the document's id. *)
Theorem metadata_key_round_trip (doc : doc_meta) :
  int (doc_key doc) = Return (doc_id doc).
Proof. apply int_str_of_Z. Qed.

(** ** What [index_files] writes *)

Section Writes.

Local Open Scope nat_scope.

Lemma index_loaded_results (docs : list doc_meta) (name : text) (model : SentenceTransformer)
      (index : faiss_index) (md : gmap text doc_meta) (E : gset Z) :
  match index_loaded docs name model index md E with
  | Return (status, invalid, Some written) =>
    status = u "valid_output" /\
    exists index' md',
      written = save_index_and_metadata index' md' name model /\ ntotal index' = size md'
  | Return (status, invalid, None) => status = u "no_valid_vectors_error"
  | Raise _ => True
  end.
Proof.
  unfold index_loaded. rewrite process_documents_spec.
  destruct (forallb _ docs); [|exact I].
  rewrite bind_return. cbv beta iota.
  destruct (assert _) as [[]|]; [|exact I]. rewrite bind_return.
  destruct (encode_texts_lst _ model) as [[[vv vi]|]|]; [| |exact I].
  2: { rewrite bind_return. reflexivity. }
  rewrite bind_return.
  destruct (items_at _ vi) as [ids|]; [|exact I]. rewrite bind_return.
  destruct (metadata_by_str_id _ ids ∅) as [new_md|]; [|exact I]. rewrite bind_return.
  unfold assert. destruct (_ =? _) eqn:Hc; [|exact I]. rewrite bind_return.
  split; [reflexivity|].
  eexists _, _. split; [reflexivity|]. now apply Nat.eqb_eq.
Qed.

Lemma index_files_outcomes (docs : list doc_meta) (name : text)
      (model : SentenceTransformer) (files : disk) :
  (exists e, index_files docs name model files = (Raise e, files)) \/
  (exists status invalid,
     index_files docs name model files = (Return (status, invalid), files) /\
     (status = u "model_changed_error" \/ status = u "no_valid_vectors_error")) \/
  (exists invalid index md,
     index_files docs name model files
     = (Return (u "valid_output", invalid), save_index_and_metadata index md name model) /\
     ntotal index = size md).
Proof.
  unfold index_files. destruct (negb _); [left; eauto|].
  assert (Hfin : forall r : outcome (text * list text * option disk),
            match r with
            | Return (status, invalid, Some written) =>
              status = u "valid_output" /\
              exists index' md',
                written = save_index_and_metadata index' md' name model /\
                ntotal index' = size md'
            | Return (status, invalid, None) =>
              status = u "model_changed_error" \/ status = u "no_valid_vectors_error"
            | Raise _ => True
            end ->
            (exists e, match r with
                       | Return (status, invalid_files, Some written) =>
                         (Return (status, invalid_files), written)
                       | Return (status, invalid_files, None) =>
                         (Return (status, invalid_files), files)
                       | Raise e => (Raise e, files)
                       end = (Raise e, files)) \/
            (exists status invalid,
               match r with
               | Return (status, invalid_files, Some written) =>
                 (Return (status, invalid_files), written)
               | Return (status, invalid_files, None) =>
                 (Return (status, invalid_files), files)
               | Raise e => (Raise e, files)
               end = (Return (status, invalid), files) /\
               (status = u "model_changed_error" \/ status = u "no_valid_vectors_error")) \/
            (exists invalid index md,
               match r with
               | Return (status, invalid_files, Some written) =>
                 (Return (status, invalid_files), written)
               | Return (status, invalid_files, None) =>
                 (Return (status, invalid_files), files)
               | Raise e => (Raise e, files)
               end = (Return (u "valid_output", invalid),
                      save_index_and_metadata index md name model) /\
               ntotal index = size md)).
  { intros [[[status invalid] [written|]]|e] H.
    - destruct H as (-> & index' & md' & -> & Hn). right. right.
      now exists invalid, index', md'.
    - right. left. now exists status, invalid.
    - left. now exists e. }
  apply Hfin.
  assert (Hloaded : forall index md E,
            match index_loaded docs name model index md E with
            | Return (status, invalid, Some written) =>
              status = u "valid_output" /\
              exists index' md',
                written = save_index_and_metadata index' md' name model /\
                ntotal index' = size md'
            | Return (status, invalid, None) =>
              status = u "model_changed_error" \/ status = u "no_valid_vectors_error"
            | Raise _ => True
            end).
  { intros index md E. pose proof (index_loaded_results docs name model index md E) as H.
    destruct (index_loaded docs name model index md E) as [[[st inv] [w|]]|]; auto. }
  destruct (faiss_index_file files) as [index|];
    [destruct (metadata_with_id_file files) as [md|];
     [destruct (model_fingerprint_file files) as [fp|]|]|];
    try apply Hloaded.
  destruct (load_index name model index fp) as [fi mc].
  destruct (text_eqb mc (u "changed")); [now left|].
  destruct (int_keys _) as [E|]; [|exact I].
  rewrite bind_return. apply Hloaded.
Qed.

End Writes.

(** X4: a call of [index_files] for serialisable documents, over a store
    of serialisable entries and with an encoder of normalised vectors of the
    dimension of the index, ends in one of three ways: it raises, and the
    files are as they were; it returns [model_changed_error] or
    [no_valid_vectors_error], and the files are as they were; or it returns
    [valid_output], having written an index with as many vectors as the
    metadata mapping has entries, and the fingerprint of the model in use. *)
Theorem index_files_writes_only_on_success (docs : list doc_meta) (name : text)
        (model : SentenceTransformer) (files : disk) :
  modelled_call docs model files -> serialisable_store files ->
  (exists e, index_files docs name model files = (Raise e, files)) \/
  (exists status invalid,
     index_files docs name model files = (Return (status, invalid), files) /\
     (status = u "model_changed_error" \/ status = u "no_valid_vectors_error")) \/
  (exists invalid index md,
     index_files docs name model files
     = (Return (u "valid_output", invalid),
        {| faiss_index_file := Some index;
           metadata_with_id_file := Some md;
           model_fingerprint_file :=
             Some (FingerprintRecord (get_model_fingerprint name model)) |}) /\
     ntotal index = size md).
Proof. intros _ _. apply index_files_outcomes. Qed.

Lemma index_files_writes_only_on_success_witness :
  (exists e, index_files batch_A demo_name demo_model no_files = (Raise e, no_files)) \/
  (exists status invalid,
     index_files batch_A demo_name demo_model no_files = (Return (status, invalid), no_files) /\
     (status = u "model_changed_error" \/ status = u "no_valid_vectors_error")) \/
  (exists invalid index md,
     index_files batch_A demo_name demo_model no_files
     = (Return (u "valid_output", invalid),
        {| faiss_index_file := Some index;
           metadata_with_id_file := Some md;
           model_fingerprint_file :=
             Some (FingerprintRecord (get_model_fingerprint demo_name demo_model)) |}) /\
     ntotal index = size md).
Proof.
  apply index_files_writes_only_on_success.
  - apply demo_call; [vm_compute; reflexivity|reflexivity].
  - apply built_serialisable, built_no_files.
Defined.

(** X5: after a call that returned [valid_output], a call for a non-empty
    batch under a model with another fingerprint returns
    [model_changed_error] with every file name and leaves the files as the
    first call wrote them. *)
Theorem model_change_detected_after_indexing
        (docs docs2 : list doc_meta) (name name2 : text)
        (model model2 : SentenceTransformer) (files files' : disk) (invalid : list text) :
  index_files docs name model files = (Return (u "valid_output", invalid), files') ->
  docs2 <> [] ->
  get_model_fingerprint name model <> get_model_fingerprint name2 model2 ->
  index_files docs2 name2 model2 files'
  = (Return (u "model_changed_error", List.map file_name docs2), files').
Proof.
  intros Hcall Hne Hdiff. destruct status_texts_differ as [Hd1 Hd2].
  assert (Hw : exists index md, files' = save_index_and_metadata index md name model).
  { destruct (index_files_outcomes docs name model files)
      as [[e He]|[(st & inv' & He & Hst)|(inv' & index & md & He & _)]];
      rewrite He in Hcall.
    - discriminate.
    - apply returned_parts in Hcall. destruct Hcall as (-> & _ & _).
      destruct Hst as [Hst|Hst]; symmetry in Hst; [now apply Hd1 in Hst|now apply Hd2 in Hst].
    - apply returned_parts in Hcall. destruct Hcall as (_ & _ & <-). now exists index, md. }
  destruct Hw as (index & md & ->).
  apply (index_files_model_changed model2 name2 docs2 _ index md
           (get_model_fingerprint name model)); try reflexivity; assumption.
Qed.

Lemma model_change_detected_after_indexing_witness :
  index_files batch_B demo_name other_model files_after_A
  = (Return (u "model_changed_error", [u "d.pdf"; u "e.pptx"]), files_after_A).
Proof.
  refine (model_change_detected_after_indexing batch_A batch_B demo_name demo_name
            demo_model other_model no_files files_after_A [] _ _ _).
  - apply injective_projections; [vm_compute; reflexivity|reflexivity].
  - discriminate.
  - vm_compute. discriminate.
Defined.

(** ** The store across calls *)

Section StoreAcrossCalls.

Local Open Scope nat_scope.

Lemma well_formed_store_inv (files : disk) : well_formed_store files -> store_inv files.
Proof.
  intros [->|(index & md & fp & -> & Hc & Hk & _)]; [now left|].
  right. exists index, md, fp. split; [reflexivity|]. split; [exact Hc|].
  intros k Hs. destruct (Hk k Hs) as (z & -> & _). now exists z.
Qed.

Lemma working_index_ids (model : SentenceTransformer) (files : disk) :
  well_formed_store files ->
  index_ids_stored (working_index model files) (stored_metadata files).
Proof.
  intros [->|(index & md & fp & -> & _ & _ & Hids)]; [|exact Hids].
  intros z v H. inversion H.
Qed.

Lemma index_files_well_formed (docs : list doc_meta) (name : text)
      (model : SentenceTransformer) (files : disk) :
  well_formed_store files -> well_formed_store (snd (index_files docs name model files)).
Proof.
  intros Hwf. pose proof (well_formed_store_inv files Hwf) as Hinv.
  destruct docs as [|d0 rest]; [exact Hwf|].
  set (docs := d0 :: rest). assert (Hne : docs <> []) by discriminate.
  destruct (store_inv_same_model_dec name model files Hinv)
    as [Hsame|(index & md & stored & Hi & Hm & Hf & Hdiff)].
  2: { now rewrite (index_files_model_changed model name docs files index md stored). }
  destruct (index_files_step model name docs files Hinv Hsame Hne)
    as [[_ ->]|(Hfresh & new_md & Hin & Hout & ->)]; [exact Hwf|].
  pose proof (keys_of_survivors model docs new_md Hin Hout) as Hkeys.
  destruct (List.filter (survives model) docs) as [|s0 srest] eqn:Hsurv; [exact Hwf|].
  rewrite <- Hsurv in *.
  destruct (_ =? _) eqn:Hcount; [|exact Hwf].
  apply Nat.eqb_eq in Hcount. right.
  eexists _, _, _. split; [reflexivity|]. split; [|split].
  - rewrite ntotal_add_with_ids by now rewrite !length_map.
    now rewrite length_map.
  - intros k Hk. apply lookup_union_is_Some in Hk. destruct Hk as [Hk|Hk].
    + destruct (Hout k Hk) as (doc & _ & ->). exists (doc_id doc).
      split; [reflexivity|apply int_str_of_Z].
    + destruct (store_inv_keys files k Hinv Hk) as [z ->]. exists z.
      split; [reflexivity|apply int_str_of_Z].
  - intros z v Hzv. unfold add_with_ids in Hzv. cbn [entries] in Hzv.
    apply elem_of_app in Hzv. apply lookup_union_is_Some. destruct Hzv as [Hold|Hnew].
    + right. now apply (working_index_ids model files Hwf z v).
    + left. apply Hkeys. apply list_elem_of_In, in_combine_l, in_map_iff in Hnew.
      destruct Hnew as (doc & <- & Hd). change (str_of_Z (doc_id doc)) with (doc_key doc).
      now apply list_elem_of_In, in_map.
Qed.

Lemma reachable_well_formed (files : disk) : reachable files -> well_formed_store files.
Proof.
  induction 1 as [|files docs name model _ IH]; [now left|].
  now apply index_files_well_formed.
Qed.



End StoreAcrossCalls.

(** X6: whatever calls of [index_files] were made since there were no files,
    each for serialisable documents and with an encoder of normalised
    vectors of the dimension of the index, every stored entry is
    serialisable and the files are either all absent or all present, and
    then the index has as many vectors as the metadata mapping has entries,
    every key of the mapping is the decimal form of an id that [int] reads
    back, and every vector of the index has its metadata entry. *)
Theorem reachable_store_well_formed (files : disk) :
  built files ->
  serialisable_store files /\
  (files = no_files \/
   exists index md fp,
     files = {| faiss_index_file := Some index; metadata_with_id_file := Some md;
                model_fingerprint_file := Some (FingerprintRecord fp) |} /\
     ntotal index = size md /\
     (forall k, is_Some (md !! k) -> exists z, k = str_of_Z z /\ int k = Return z) /\
     (forall z v, (z, v) ∈ entries index -> is_Some (md !! str_of_Z z))).
Proof.
  intros Hb. split; [now apply built_serialisable|].
  now apply reachable_well_formed, built_reachable.
Qed.

Lemma reachable_store_well_formed_witness :
  serialisable_store files_after_A /\
  (files_after_A = no_files \/
   exists index md fp,
     files_after_A
     = {| faiss_index_file := Some index; metadata_with_id_file := Some md;
          model_fingerprint_file := Some (FingerprintRecord fp) |} /\
     ntotal index = size md /\
     (forall k, is_Some (md !! k) -> exists z, k = str_of_Z z /\ int k = Return z) /\
     (forall z v, (z, v) ∈ entries index -> is_Some (md !! str_of_Z z))).
Proof.
  apply (reachable_store_well_formed files_after_A).
  apply (built_index_files no_files batch_A demo_name demo_model built_no_files).
  apply demo_call; [vm_compute; reflexivity|reflexivity].
Defined.

(** X7: on such a store, no call of [index_files] for serialisable
    documents, with an encoder of normalised vectors of the dimension of the
    index, removes or changes an entry of the metadata mapping, whatever the
    call returns or raises. *)
Theorem index_files_keeps_entries (docs : list doc_meta) (name : text)
        (model : SentenceTransformer) (files : disk) (k : text) (m : doc_meta) :
  built files -> modelled_call docs model files ->
  stored_metadata files !! k = Some m ->
  stored_metadata (snd (index_files docs name model files)) !! k = Some m.
Proof.
  intros Hbuilt _ Hk.
  pose proof (reachable_store_inv files (built_reachable files Hbuilt)) as Hinv.
  destruct docs as [|d0 rest]; [exact Hk|].
  set (docs := d0 :: rest). assert (Hne : docs <> []) by discriminate.
  destruct (store_inv_same_model_dec name model files Hinv)
    as [Hsame|(index & md & stored & Hi & Hm & Hf & Hdiff)].
  2: { now rewrite (index_files_model_changed model name docs files index md stored). }
  destruct (index_files_step model name docs files Hinv Hsame Hne)
    as [[_ ->]|(Hfresh & new_md & Hin & Hout & ->)]; [exact Hk|].
  pose proof (new_entries_disjoint model docs new_md _ Hfresh Hout) as Hdisj.
  destruct (List.filter (survives model) docs) as [|s0 srest]; [exact Hk|].
  destruct (_ =? _)%nat; [|exact Hk].
  change (stored_metadata (snd (_, save_index_and_metadata _ _ _ _)))
    with (new_md ∪ stored_metadata files).
  rewrite lookup_union_r; [exact Hk|].
  destruct (proj1 (map_disjoint_alt _ _) Hdisj k) as [H|H]; [exact H|congruence].
Qed.

Lemma index_files_keeps_entries_witness :
  stored_metadata (snd (index_files batch_B demo_name demo_model files_after_A))
    !! doc_key (doc "a.pdf" "/docs/a.pdf" "Plan for the first quarter")
  = Some (doc "a.pdf" "/docs/a.pdf" "Plan for the first quarter").
Proof.
  apply index_files_keeps_entries.
  - apply (built_index_files no_files batch_A demo_name demo_model built_no_files).
    apply demo_call; [vm_compute; reflexivity|reflexivity].
  - apply demo_call; [vm_compute; reflexivity|vm_compute; reflexivity].
  - vm_compute. reflexivity.
Defined.





(** ** Results of a search *)

Section SearchResults.

Local Open Scope nat_scope.

Lemma collect_results_mapM (md : gmap text doc_meta) (pairs : list (Z * float)) :
  collect_results md pairs
  = match mapM (fun p => result ← md !! str_of_Z (fst p); Some (result, snd p))
               (List.filter (fun p => negb (fst p =? -1)%Z) pairs) with
    | Some l => Return l
    | None => Raise KeyError
    end.
Proof.
  induction pairs as [|[z s] rest IH]; [reflexivity|].
  cbn [collect_results List.filter fst]. destruct (z =? -1)%Z; cbn [negb]; [exact IH|].
  rewrite IH. cbn [mapM fst snd]. destruct (md !! str_of_Z z) as [m|]; [|reflexivity].
  cbn. now destruct (mapM _ _).
Qed.

Lemma collect_results_stored (md : gmap text doc_meta) (pairs : list (Z * float)) :
  Forall (fun p => fst p = (-1)%Z \/ is_Some (md !! str_of_Z (fst p))) pairs ->
  exists l, collect_results md pairs = Return l /\
            length l <= length pairs /\
            Forall (fun r => exists k, md !! k = Some (fst r)) l.
Proof.
  induction 1 as [|[z s] rest Hz _ IH].
  - exists []. repeat split; [reflexivity|constructor].
  - destruct IH as (l & Hl & Hlen & Hall). cbn [collect_results]. cbn [fst] in Hz.
    destruct (Z.eqb_spec z (-1)) as [->|Hne].
    + exists l. repeat split; [exact Hl|cbn [length]; lia|exact Hall].
    + destruct Hz as [Hz|[m Hm]]; [contradiction|]. rewrite Hm, Hl.
      exists ((m, s) :: l). repeat split; [cbn [length]; lia|].
      constructor; [now exists (str_of_Z z)|exact Hall].
Qed.

End SearchResults.

(** X10: the loop of [search_by_embedding] over the ids and scores drops the
    entries whose id is the sentinel -1, looks every other id up under its
    decimal form, and keeps the order and the scores; it raises [KeyError]
    exactly when one of these ids has no metadata entry. *)
Theorem collect_results_filters_and_looks_up
        (md : gmap text doc_meta) (pairs : list (Z * float)) :
  let wanted := List.filter (fun p => negb (fst p =? -1)%Z) pairs in
  (Forall (fun p => is_Some (md !! str_of_Z (fst p))) wanted /\
   exists l, collect_results md pairs = Return l /\
             List.map snd l = List.map snd wanted /\
             Forall2 (fun r p => md !! str_of_Z (fst p) = Some (fst r)) l wanted) \/
  (Exists (fun p => md !! str_of_Z (fst p) = None) wanted /\
   collect_results md pairs = Raise KeyError).
Proof.
  intros wanted. rewrite collect_results_mapM. fold wanted.
  induction wanted as [|[z s] rest IH].
  - left. split; [constructor|]. exists []. repeat split; constructor.
  - cbn [mapM fst snd]. destruct (md !! str_of_Z z) as [m|] eqn:Hm.
    + cbn. destruct IH as [(Hall & l & Hl & Hs & Hf)|(Hex & Hl)].
      * left. split; [constructor; [cbn; eauto|exact Hall]|].
        destruct (mapM _ rest) as [l'|]; [|discriminate]. injection Hl as ->.
        exists ((m, s) :: l). cbn. repeat split; [now rewrite Hs|].
        constructor; [exact Hm|exact Hf].
      * right. split; [now apply Exists_cons_tl|].
        destruct (mapM _ rest); [discriminate|reflexivity].
    + right. split; [now apply Exists_cons_hd|reflexivity].
Qed.



(** X12: over files that calls of [index_files] built, a search whose
    vector store answers only with ids it holds, or with the sentinel -1,
    raises nothing: it returns at most one result per id of the answer, and
    every result is an entry of the stored metadata. *)
Theorem search_over_indexed_store
        (index_search : faiss_index -> vector -> nat -> list float * list Z)
        (query : text) (top_k : nat) (model : SentenceTransformer)
        (files : disk) (index : faiss_index) :
  reachable files ->
  faiss_index_file files = Some index ->
  (forall z, z ∈ snd (index_search index (encode_text model (u "query: " ++ strip query)) top_k) ->
             z = (-1)%Z \/ exists v, (z, v) ∈ entries index) ->
  exists l,
    fst (search_files index_search query top_k model files) = Return l /\
    (length l
     <= length (snd (index_search index (encode_text model (u "query: " ++ strip query)) top_k)))%nat /\
    Forall (fun r => exists k, stored_metadata files !! k = Some (fst r)) l.
Proof.
  intros Hreach Hidx Hids.
  destruct (reachable_well_formed files Hreach)
    as [->|(index' & md & fp & -> & _ & _ & Hstored)]; [discriminate|].
  cbn in Hidx. injection Hidx as ->.
  unfold search_files, search_by_embedding.
  cbn [metadata_with_id_file faiss_index_file stored_metadata].
  destruct (index_search _ _ _) as [scores ids]. cbn [fst snd] in *.
  destruct (collect_results_stored md (List.combine ids scores)) as (l & Hl & Hlen & Hall).
  - apply Forall_forall. intros [z s] Hin. cbn [fst].
    apply list_elem_of_In, in_combine_l, list_elem_of_In in Hin.
    destruct (Hids z Hin) as [->|[v Hv]]; [now left|right].
    now apply (Hstored z v).
  - exists l. split; [exact Hl|]. split; [|exact Hall].
    etransitivity; [exact Hlen|]. rewrite length_combine. lia.
Qed.

Lemma search_over_indexed_store_witness :
  exists l,
    fst (search_files (fun _ _ _ => ([Fin 1; Fin 0], [compute_document_id (u "/docs/a.pdf"); (-1)%Z]))
                      (u "  quarterly plan ") 5 demo_model files_after_A) = Return l /\
    (length l <= 2)%nat /\
    Forall (fun r => exists k, stored_metadata files_after_A !! k = Some (fst r)) l.
Proof.
  refine (search_over_indexed_store
            (fun _ _ _ => ([Fin 1; Fin 0], [compute_document_id (u "/docs/a.pdf"); (-1)%Z]))
            (u "  quarterly plan ") 5 demo_model files_after_A _ _ _ _).
  - apply reachable_index_files, reachable_no_files.
  - vm_compute. reflexivity.
  - intros z Hz. cbn [snd] in Hz.
    apply elem_of_cons in Hz. destruct Hz as [->|Hz].
    + right. eexists. vm_compute. left.
    + apply elem_of_cons in Hz. destruct Hz as [->|Hz]; [now left|inversion Hz].
Defined.

(** ** What a summarisation returns *)

Section SummaryOutcomes.

Local Open Scope nat_scope.

Lemma strip_strip (s : text) : strip (strip s) = strip s.
Proof.
  destruct (strip_shape s) as [E|(a & t & b & E & Ha & Hl & Hb)]; [now rewrite E|].
  now apply (strip_fixed _ a b t).
Qed.

Lemma loads_raises (s : text) (e : exn) : loads s = Raise e -> e = JSONDecodeError.
Proof.
  unfold loads. destruct (parse_value _ _) as [[v rest]|]; [|congruence].
  destruct (skip_ws rest); congruence.
Qed.

(** The outcomes of the [try] block. *)
Lemma read_info_outcomes (info : json) (fname : text) :
  (exists e, read_info info fname = Raise e /\ (caught e = true \/ e = AttributeError)) \/
  read_info info fname = Return (u "invalid_output_error", None, None) \/
  (exists keywords summary n,
     read_info info fname = Return (u "valid_output", Some keywords, Some summary) /\
     50 <= length summary /\ strip summary = summary /\
     len keywords = Return n /\ 1 <= n).
Proof.
  unfold read_info.
  destruct (getitem info (u "summary")) as [v|e] eqn:Hv.
  2: { left. exists e. split; [reflexivity|left].
       unfold getitem in Hv. destruct info; try (injection Hv as <-; reflexivity).
       destruct (member _ _); [discriminate|]. injection Hv as <-. reflexivity. }
  rewrite bind_return.
  destruct v as [| | |s| |]; try (left; exists AttributeError; split; [reflexivity|now right]).
  cbn [strip_method]. rewrite bind_return.
  destruct (getitem info (u "keywords")) as [kw|e] eqn:Hk.
  2: { left. exists e. split; [reflexivity|left].
       unfold getitem in Hk. destruct info; try (injection Hk as <-; reflexivity).
       destruct (member _ _); [discriminate|]. injection Hk as <-. reflexivity. }
  rewrite bind_return. cbv zeta.
  destruct (length (strip (remove_all fname (strip s))) <? 50) eqn:Hlen; [now right; left|].
  apply Nat.ltb_ge in Hlen.
  destruct (len kw) as [n|e] eqn:Hn.
  2: { left. exists e. split; [reflexivity|left].
       destruct kw; cbn in Hn; try discriminate; injection Hn as <-; reflexivity. }
  rewrite bind_return. destruct (n <? 1) eqn:H1; [now right; left|].
  apply Nat.ltb_ge in H1. right; right.
  exists kw, (strip (remove_all fname (strip s))), n.
  split; [reflexivity|]. split; [exact Hlen|]. split; [apply strip_strip|]. now split.
Qed.

Lemma retry_loop_last (ollama : nat -> text -> http_reply) (prompt : text) :
  exists r, last (snd (retry_loop ollama prompt max_retries [] [])) = Some r /\
            fst (retry_loop ollama prompt max_retries [] []) = output_of r.
Proof.
  unfold max_retries. cbn [retry_loop length app]. rewrite !long_enough. cbv zeta.
  destruct (length (output_of (ollama 0 prompt)) <? 100); cbn [negb]; cbv iota;
    [|now exists (ollama 0 prompt)].
  destruct (length (output_of (ollama 1 prompt)) <? 100); cbn [negb]; cbv iota;
    [|now exists (ollama 1 prompt)].
  destruct (length (output_of (ollama 2 prompt)) <? 100); cbn [negb]; cbv iota;
    now exists (ollama 2 prompt).
Qed.

Lemma read_output_failed_request (r : http_reply) (fname : text) :
  r = RequestException \/ r = OtherException ->
  read_output (output_of r) fname = Return (output_of r, None, None) /\
  length (output_of r) < 100.
Proof. intros [-> | ->]; split; vm_compute; try reflexivity; lia. Qed.

End SummaryOutcomes.

Lemma read_output_cases (out fname : text) :
  (exists status,
     read_output out fname = Return (status, None, None) /\
     status ∈ [u "http_request_error"; u "unknown_ollama_error";
               u "json_parse_error"; u "invalid_output_error"]) \/
  (exists keywords summary n,
     read_output out fname = Return (u "valid_output", Some keywords, Some summary) /\
     (50 <= length summary)%nat /\ strip summary = summary /\
     len keywords = Return n /\ (1 <= n)%nat) \/
  ((read_output out fname = Raise JSONDecodeError \/
    read_output out fname = Raise AttributeError) /\
   not_sentinel out /\ is_Some (re_search BRACES out)).
Proof.
  destruct (text_eqb out (u "http_request_error")) eqn:H1.
  { left. exists out. unfold read_output. rewrite H1. split; [reflexivity|].
    apply text_eqb_eq in H1. rewrite H1. left. }
  destruct (text_eqb out (u "unknown_ollama_error")) eqn:H2.
  { left. exists out. unfold read_output. rewrite H1, H2. split; [reflexivity|].
    apply text_eqb_eq in H2. rewrite H2. right; left. }
  assert (Hs : not_sentinel out).
  { split; intros E; apply text_eqb_eq in E; congruence. }
  rewrite (read_output_not_sentinel out fname Hs).
  destruct (re_search BRACES out) as [json_str|] eqn:Hfind.
  2: { left. eexists. split; [reflexivity|]. right; right; left. }
  destruct (loads json_str) as [info|e] eqn:Hload.
  2: { right; right. rewrite (loads_raises _ _ Hload). split; [now left|]. split; eauto. }
  rewrite bind_return.
  destruct (read_info_outcomes info fname)
    as [(e & -> & [Hc| ->])|[->|(kw & summary & n & -> & Hrest)]].
  - rewrite Hc. left. eexists. split; [reflexivity|]. right; right; left.
  - right; right. split; [now right|]. split; eauto.
  - left. eexists. split; [reflexivity|]. right; right; right; left.
  - right; left. now exists kw, summary, n.
Qed.

(** X13: what [summarize_file_by_llm] returns for the last output, when it
    returns: one of four failure statuses with no keywords and no summary,
    or [valid_output] with a summary of at least 50 characters that has no
    blank at its ends and keywords of length at least 1.  It does return,
    with a failure status, on the marker of a failed request and on an
    output without a brace span, where the decoder is not called. *)
Theorem read_output_outcomes (out fname : text) :
  (forall (status : text) (keywords : option json) (summary : option text),
     read_output out fname = Return (status, keywords, summary) ->
     (keywords = None /\ summary = None /\
      status ∈ [u "http_request_error"; u "unknown_ollama_error";
                u "json_parse_error"; u "invalid_output_error"]) \/
     (status = u "valid_output" /\
      exists kw s n,
        keywords = Some kw /\ summary = Some s /\
        (50 <= length s)%nat /\ strip s = s /\ len kw = Return n /\ (1 <= n)%nat)) /\
  (~ not_sentinel out \/ re_search BRACES out = None ->
   exists status,
     read_output out fname = Return (status, None, None) /\
     status ∈ [u "http_request_error"; u "unknown_ollama_error"; u "json_parse_error"]).
Proof.
  split.
  - intros status keywords summary Hret.
    destruct (read_output_cases out fname)
      as [(st & He & Hst)|[(kw & s & n & He & Hrest)|([He|He] & _)]];
      rewrite He in Hret; try discriminate; injection Hret as <- <- <-.
    + left. now repeat split.
    + right. split; [reflexivity|]. now exists kw, s, n.
  - intros Hcase.
    destruct (text_eqb out (u "http_request_error")) eqn:H1.
    { exists out. unfold read_output. rewrite H1. split; [reflexivity|].
      apply text_eqb_eq in H1. rewrite H1. left. }
    destruct (text_eqb out (u "unknown_ollama_error")) eqn:H2.
    { exists out. unfold read_output. rewrite H1, H2. split; [reflexivity|].
      apply text_eqb_eq in H2. rewrite H2. right; left. }
    assert (Hs : not_sentinel out).
    { split; intros E; apply text_eqb_eq in E; congruence. }
    destruct Hcase as [Hn|Hnone]; [contradiction|].
    rewrite (read_output_not_sentinel out fname Hs), Hnone.
    eexists. split; [reflexivity|]. right; right; left.
Qed.

Lemma read_output_outcomes_witness :
  ((None : option json) = None /\ (None : option text) = None /\
   u "json_parse_error" ∈ [u "http_request_error"; u "unknown_ollama_error";
                           u "json_parse_error"; u "invalid_output_error"]) \/
  (u "json_parse_error" = u "valid_output" /\
   exists kw s n,
     (None : option json) = Some kw /\ (None : option text) = Some s /\
     (50 <= length s)%nat /\ strip s = s /\ len kw = Return n /\ (1 <= n)%nat).
Proof.
  apply (proj1 (read_output_outcomes (u "No summary, sorry.") (u "a.pdf"))).
  vm_compute. reflexivity.
Defined.

(** X14: the result of [summarize_file_by_llm] is read from the last reply
    only, whatever its length; when the three requests all fail, by a
    transport error or by any other exception, three requests are made and
    the status is the one of the third failure. *)
Theorem summarize_reads_last_reply (ollama : nat -> text -> http_reply)
        (text_blocks : list text) (file_name : text) :
  let prompt := prompt_of file_name text_blocks in
  (exists r, last (snd (summarize_file_by_llm ollama text_blocks file_name)) = Some r /\
             fst (summarize_file_by_llm ollama text_blocks file_name)
             = read_output (output_of r) file_name) /\
  ((forall i, (i < 3)%nat ->
      ollama i prompt = RequestException \/ ollama i prompt = OtherException) ->
   summarize_file_by_llm ollama text_blocks file_name
   = (Return (output_of (ollama 2%nat prompt), None, None),
      [ollama 0%nat prompt; ollama 1%nat prompt; ollama 2%nat prompt])).
Proof.
  intros prompt. rewrite summarize_result. fold prompt. cbn [fst snd]. split.
  - destruct (retry_loop_last ollama prompt) as (r & Hr & ->). now exists r.
  - intros Hfail.
    destruct (read_output_failed_request _ file_name (Hfail 0%nat ltac:(lia))) as [_ H0].
    destruct (read_output_failed_request _ file_name (Hfail 1%nat ltac:(lia))) as [_ H1].
    destruct (read_output_failed_request _ file_name (Hfail 2%nat ltac:(lia))) as [H2 _].
    pose proof (retry_loop_three ollama prompt) as Hlog. cbv zeta in Hlog.
    apply Nat.ltb_lt in H0, H1. rewrite H0, H1 in Hlog.
    destruct (retry_loop_last ollama prompt) as (r & Hr & Hout).
    rewrite Hlog in Hr. change (Some (ollama 2%nat prompt) = Some r) in Hr.
    injection Hr as <-.
    now rewrite Hout, Hlog, H2.
Qed.

Lemma summarize_reads_last_reply_witness :
  summarize_file_by_llm unreachable [u "Plan for the first quarter"] (u "a.pdf")
  = (Return (u "http_request_error", None, None),
     [RequestException; RequestException; RequestException]).
Proof.
  apply (proj2 (summarize_reads_last_reply unreachable [u "Plan for the first quarter"]
                  (u "a.pdf"))).
  intros i _. left. reflexivity.
Defined.

(** ** More on lines: what [strip], the normaliser and the classifier keep *)

Section LinesMore.

Local Open Scope nat_scope.

Lemma lstrip_parts (s : text) :
  exists pre, s = pre ++ lstrip s /\ Forall (fun c => isspace c = true) pre.
Proof.
  induction s as [|c t (pre & E & Hpre)]; [now exists []|].
  simpl. destruct (isspace c) eqn:Hc.
  - exists (c :: pre). split; [simpl; congruence|now constructor].
  - now exists [].
Qed.

Lemma rstrip_parts (s : text) :
  exists post, s = rstrip s ++ post /\ Forall (fun c => isspace c = true) post.
Proof.
  induction s as [|c t (post & E & Hpost)]; [now exists []|].
  simpl. destruct (rstrip t) as [|y r].
  - simpl in E. subst t. destruct (isspace c) eqn:Hc.
    + exists (c :: post). split; [reflexivity|now constructor].
    + now exists post.
  - exists post. split; [simpl; f_equal; exact E|exact Hpost].
Qed.

Lemma strip_parts (s : text) :
  exists pre post, s = pre ++ strip s ++ post /\
                   Forall (fun c => isspace c = true) pre /\
                   Forall (fun c => isspace c = true) post.
Proof.
  destruct (lstrip_parts s) as (pre & E1 & Hpre).
  destruct (rstrip_parts (lstrip s)) as (post & E2 & Hpost).
  exists pre, post. unfold strip. split; [congruence|now split].
Qed.

Lemma length_strip (s : text) : length (strip s) <= length s.
Proof.
  destruct (strip_parts s) as (pre & post & E & _).
  rewrite E at 2. rewrite !length_app. lia.
Qed.

Lemma Forall_strip (P : N -> Prop) (s : text) : Forall P s -> Forall P (strip s).
Proof.
  destruct (strip_parts s) as (pre & post & E & _). intros H. rewrite E in H.
  apply Forall_app in H. destruct H as [_ H]. apply Forall_app in H. tauto.
Qed.


Lemma lstrip_keeps (pre w post : text) (a : N) (w0 : text) :
  w = a :: w0 -> isspace a = false ->
  exists pre', lstrip (pre ++ w ++ post) = pre' ++ w ++ post.
Proof.
  intros -> Ha. induction pre as [|c pre (pre' & IH)].
  - exists []. simpl. now rewrite Ha.
  - simpl. destruct (isspace c); [now exists pre'|now exists (c :: pre)].
Qed.

Lemma rstrip_keeps_word (w post : text) (b : N) :
  last w = Some b -> isspace b = false ->
  exists post', rstrip (w ++ post) = w ++ post'.
Proof.
  intros Hl Hb. induction w as [|a w IH]; [discriminate|].
  destruct w as [|a1 w].
  - simpl in Hl. injection Hl as ->. simpl.
    destruct (rstrip post) as [|y r]; [rewrite Hb; now exists []|now exists (y :: r)].
  - rewrite last_cons_cons in Hl. destruct (IH Hl) as (post' & E).
    exists post'.
    change (rstrip ((a :: a1 :: w) ++ post)) with
      (match rstrip ((a1 :: w) ++ post) with
       | [] => if isspace a then [] else [a]
       | r => a :: r
       end).
    now rewrite E.
Qed.

Lemma rstrip_keeps (x w post : text) (b : N) :
  last w = Some b -> isspace b = false ->
  exists post', rstrip (x ++ w ++ post) = x ++ w ++ post'.
Proof.
  intros Hl Hb. destruct (rstrip_keeps_word w post b Hl Hb) as (post' & E).
  exists post'. induction x as [|c x IH]; [exact E|].
  change (rstrip ((c :: x) ++ w ++ post)) with
    (match rstrip (x ++ w ++ post) with
     | [] => if isspace c then [] else [c]
     | r => c :: r
     end).
  rewrite IH. destruct (x ++ w ++ post') eqn:E'; [|simpl; now rewrite E'].
  apply app_eq_nil in E'. destruct E' as [_ E']. apply app_eq_nil in E'.
  destruct E' as [-> _]. discriminate.
Qed.

(** A word that neither starts nor ends with a blank stays in the stripped
    line. *)
Lemma strip_keeps (pre w post : text) (a b : N) (w0 : text) :
  w = a :: w0 -> isspace a = false -> last w = Some b -> isspace b = false ->
  exists pre' post', strip (pre ++ w ++ post) = pre' ++ w ++ post'.
Proof.
  intros Hw Ha Hl Hb. unfold strip.
  destruct (lstrip_keeps pre w post a w0 Hw Ha) as (pre' & ->).
  destruct (rstrip_keeps pre' w post b Hl Hb) as (post' & ->).
  now exists pre', post'.
Qed.

Lemma filter_drop_spaces (s : text) : forall prev,
  List.filter (fun c => negb (c =? SPACE)%N) (drop_spaces_from prev s)
  = List.filter (fun c => negb (c =? SPACE)%N) s.
Proof.
  induction s as [|c t IH]; intros prev; [reflexivity|].
  cbn [drop_spaces_from List.filter].
  destruct (c =? SPACE)%N eqn:Hc; cbn [negb orb].
  - destruct (is_english prev || is_english (head t)); [|apply IH].
    cbn [List.filter]. rewrite Hc. apply IH.
  - cbn [List.filter]. rewrite Hc. cbn [negb]. f_equal. apply IH.
Qed.

Lemma filter_merge_spaces (s : text) : forall b,
  List.filter (fun c => negb (c =? SPACE)%N) (merge_spaces_from b s)
  = List.filter (fun c => negb (c =? SPACE)%N) s.
Proof.
  induction s as [|c t IH]; intros b; [reflexivity|].
  cbn [merge_spaces_from List.filter].
  destruct (c =? SPACE)%N eqn:Hc; cbn [negb].
  - destruct b; [apply IH|]. cbn [List.filter].
    change (SPACE =? SPACE)%N with true. apply IH.
  - cbn [List.filter]. rewrite Hc. cbn [negb]. f_equal. apply IH.
Qed.

Lemma length_drop_spaces (s : text) : forall prev,
  length (drop_spaces_from prev s) <= length s.
Proof.
  induction s as [|c t IH]; intros prev; [reflexivity|].
  cbn [drop_spaces_from]. destruct (_ || _); cbn [length];
    specialize (IH (Some c)); lia.
Qed.

Lemma length_merge_spaces (s : text) : forall b,
  length (merge_spaces_from b s) <= length s.
Proof.
  induction s as [|c t IH]; intros b; [reflexivity|].
  cbn [merge_spaces_from]. destruct (c =? SPACE)%N; [destruct b|]; cbn [length];
    [specialize (IH true)|specialize (IH true)|specialize (IH false)]; lia.
Qed.

Lemma no_space_unchanged (s : text) :
  Forall (fun c => c <> SPACE) s ->
  forall prev b, merge_spaces_from b (drop_spaces_from prev s) = s.
Proof.
  induction 1 as [|c t Hc _ IH]; intros prev b; [reflexivity|].
  cbn [drop_spaces_from]. apply N.eqb_neq in Hc. rewrite Hc. cbn [negb orb].
  cbn [merge_spaces_from]. rewrite Hc. f_equal. apply IH.
Qed.

Lemma star_loop_some {A : Type} (body : text -> (text -> option A) -> option A)
      (k : text -> option A) (fuel : nat) (s : text) :
  (forall t, is_Some (k t)) -> is_Some (star_loop body k fuel s).
Proof.
  intros Hk. destruct fuel as [|fuel]; [apply Hk|].
  cbn [star_loop]. destruct (body s _); [eauto|apply Hk].
Qed.

Lemma run_wordi {A : Type} (n : nat) (w w' post : text) (k : text -> option A) :
  Forall2 (fun p c => ci_eq p c = true) w w' ->
  run n (wordi w) (w' ++ post) k = k post.
Proof.
  unfold wordi. induction 1 as [|p c w w' Hpc Hrest IH]; [reflexivity|].
  destruct w as [|p2 w2].
  - inversion Hrest; subst. cbn [List.map seqs app run liti]. now rewrite Hpc.
  - cbn [List.map seqs]. cbn [List.map] in IH.
    cbn [app run liti]. now rewrite Hpc.
Qed.

Lemma search_from_hit (n : nat) (r : regex) (pre s : text) :
  is_Some (run n r s Some) -> matches (search_from n r (pre ++ s)) = true.
Proof.
  intros [x Hx]. induction pre as [|c pre IH].
  - cbn [app]. destruct s; cbn [search_from]; now rewrite Hx.
  - cbn [app search_from]. now destruct (run n r (c :: pre ++ s) Some).
Qed.

Lemma isspace_not_upper (c : N) : isspace c = true -> ascii_lower c = c.
Proof.
  intros H. unfold ascii_lower.
  destruct ((0x41 <=? c)%N && (c <=? 0x5A)%N) eqn:E; [|reflexivity].
  exfalso. apply andb_true_iff in E. destruct E as [E1 E2].
  apply N.leb_le in E1, E2. unfold isspace in H.
  repeat (apply orb_true_iff in H; destruct H as [H|H]);
    try (apply andb_true_iff in H; destruct H as [H1 H2]; apply N.leb_le in H1, H2; lia);
    apply N.eqb_eq in H; lia.
Qed.

Lemma ci_eq_not_space (p c : N) :
  isspace (ascii_lower p) = false -> ci_eq p c = true -> isspace c = false.
Proof.
  intros Hp H. unfold ci_eq in H. cbv zeta in H.
  repeat (apply orb_true_iff in H; destruct H as [H|H]).
  - apply N.eqb_eq in H. destruct (isspace c) eqn:Hc; [|reflexivity].
    rewrite (isspace_not_upper c Hc) in H. congruence.
  - apply andb_true_iff in H. destruct H as [_ H].
    apply orb_true_iff in H. destruct H as [H|H]; apply N.eqb_eq in H; now subst c.
  - apply andb_true_iff in H. destruct H as [_ H]. apply N.eqb_eq in H. now subst c.
  - apply andb_true_iff in H. destruct H as [_ H]. apply N.eqb_eq in H. now subst c.
Qed.

Lemma ci_word_ends (kw w : text) :
  forallb (fun p => negb (isspace (ascii_lower p))) kw = true ->
  kw <> [] ->
  Forall2 (fun p c => ci_eq p c = true) kw w ->
  exists a w0 b, w = a :: w0 /\ isspace a = false /\ last w = Some b /\ isspace b = false.
Proof.
  intros Hkw Hne H.
  assert (Hall : Forall (fun c => isspace c = false) w).
  { clear Hne. induction H as [|p c kw w Hpc _ IH]; [constructor|].
    cbn [forallb] in Hkw. apply andb_true_iff in Hkw. destruct Hkw as [Hp Hkw].
    constructor; [|now apply IH].
    apply (ci_eq_not_space p c); [now apply negb_true_iff|exact Hpc]. }
  destruct H as [|p c kw w _ _]; [contradiction|].
  destruct (last (c :: w)) as [b|] eqn:Hl.
  - exists c, w, b. split; [reflexivity|]. split; [now inversion Hall|]. split; [reflexivity|].
    apply last_Some in Hl. destruct Hl as [l' E].
    rewrite E in Hall. apply Forall_app in Hall. destruct Hall as [_ Hb]. now inversion Hb.
  - apply last_None in Hl. discriminate.
Qed.

Lemma rejected_by_pattern (pat : regex) (line : text) (min_line_len : nat) :
  In pat REMOVE_PATTERNS ->
  matches (re_search pat (strip line)) = true ->
  check_line_validity line min_line_len = false.
Proof.
  intros Hin Hm. unfold check_line_validity. cbv zeta.
  destruct (_ <=? _); [reflexivity|].
  destruct (matches (re_match _ _)); [reflexivity|].
  destruct (is_catalog_line _); [reflexivity|].
  replace (existsb _ REMOVE_PATTERNS) with true; [reflexivity|].
  symmetry. apply existsb_exists. now exists pat.
Qed.

Lemma isspace_values (c : N) :
  isspace c = true ->
  In c [0x09; 0x0A; 0x0B; 0x0C; 0x0D; 0x1C; 0x1D; 0x1E; 0x1F; 0x20; 0x85; 0xA0; 0x1680;
        0x2000; 0x2001; 0x2002; 0x2003; 0x2004; 0x2005; 0x2006; 0x2007; 0x2008; 0x2009;
        0x200A; 0x2028; 0x2029; 0x202F; 0x205F; 0x3000]%N.
Proof.
  intros H. unfold isspace in H.
  repeat (apply orb_true_iff in H; destruct H as [H|H]);
    try (apply andb_true_iff in H; destruct H as [H1 H2]; apply N.leb_le in H1, H2);
    try apply N.eqb_eq in H; cbn [In]; lia.
Qed.

Lemma isdecimal_not_space (c : N) : isdecimal c = true -> isspace c = false.
Proof.
  intros Hd. destruct (isspace c) eqn:Hs; [|reflexivity].
  apply isspace_values in Hs. cbn [In] in Hs.
  repeat (destruct Hs as [<-|Hs]; [vm_compute in Hd; discriminate Hd|]).
  contradiction.
Qed.

End LinesMore.

Section LineVerdicts.

Local Open Scope nat_scope.

Lemma run_class_line (p : N -> bool) (s : text) :
  s <> [] -> Forall (fun c => p c = true) s ->
  is_Some (run (length s) (seqs [Bol; plus (Cls p); Eol]) s Some).
Proof.
  destruct s as [|c t]; [contradiction|]. intros _ Hs.
  apply Forall_cons in Hs. destruct Hs as [Hc Ht].
  pose proof (star_class_reaches (length (c :: t)) p
                (fun s1 => run (length (c :: t)) Eol s1 Some) t [] (length t)) as H.
  rewrite app_nil_r in H. specialize (H Ht (Nat.le_refl _)).
  cbn [seqs plus run]. rewrite Nat.eqb_refl, Hc. cbn [run] in H. apply H. now exists [].
Qed.

Lemma keyword_pattern_hits (n : nat) (kw w pre post : text) :
  Forall2 (fun p c => ci_eq p c = true) kw w ->
  matches (search_from n (seqs [wordi kw; Star dot]) (pre ++ w ++ post)) = true.
Proof.
  intros Hw. apply search_from_hit.
  change (run n (seqs [wordi kw; Star dot]) (w ++ post) Some)
    with (run n (wordi kw) (w ++ post) (fun s1 => run n (Star dot) s1 Some)).
  rewrite (run_wordi n kw w post _ Hw).
  change (is_Some (star_loop (run n dot) Some (length post) post)).
  apply star_loop_some. intros t. now exists t.
Qed.

Lemma page_pattern_hits (n : nat) (w sp pre post : text) (d : N) :
  Forall2 (fun p c => ci_eq p c = true) (u "Page") w ->
  Forall (fun c => isspace c = true) sp -> isdecimal d = true ->
  matches (search_from n (seqs [wordi (u "Page"); Star space; plus digit])
                       (pre ++ w ++ sp ++ d :: post)) = true.
Proof.
  intros Hw Hsp Hd. apply search_from_hit.
  change (run n (seqs [wordi (u "Page"); Star space; plus digit]) (w ++ sp ++ d :: post) Some)
    with (run n (wordi (u "Page")) (w ++ sp ++ d :: post)
              (fun s1 => run n (Star space) s1 (fun s2 => run n (plus digit) s2 Some))).
  rewrite (run_wordi n (u "Page") w (sp ++ d :: post) _ Hw).
  change (is_Some (star_loop (run n (Cls isspace))
                             (fun s2 => run n (plus digit) s2 Some)
                             (length (sp ++ d :: post)) (sp ++ d :: post))).
  apply star_class_reaches; [exact Hsp|reflexivity|].
  cbn [plus run digit]. rewrite Hd.
  apply star_loop_some. intros t. now exists t.
Qed.

End LineVerdicts.

(** X15: [clean_whitespace] removes nothing but blanks at the ends and
    spaces inside: the characters of its result other than the space are
    those of the stripped line, in the same order; the result is never
    longer than the line, stripping it again changes nothing, and a line
    without a space inside is only stripped. *)
Theorem clean_whitespace_only_drops_spaces (s : text) :
  List.filter (fun c => negb (c =? SPACE)) (clean_whitespace s)
  = List.filter (fun c => negb (c =? SPACE)) (strip s) /\
  (length (clean_whitespace s) <= length s)%nat /\
  strip (clean_whitespace s) = clean_whitespace s /\
  (Forall (fun c => c <> SPACE) (strip s) -> clean_whitespace s = strip s).
Proof.
  split; [|split; [|split]].
  - rewrite clean_whitespace_unfold. now rewrite filter_merge_spaces, filter_drop_spaces.
  - rewrite clean_whitespace_unfold.
    pose proof (length_merge_spaces (drop_spaces_from None (strip s)) false).
    pose proof (length_drop_spaces (strip s) None).
    pose proof (length_strip s). lia.
  - destruct (clean_whitespace_ends s) as [E|(a & t & b & E & Ha & Hl & Hb)]; [now rewrite E|].
    now apply (strip_fixed _ a b t).
  - intros H. rewrite clean_whitespace_unfold. now apply no_space_unchanged.
Qed.

Lemma clean_whitespace_only_drops_spaces_witness :
  clean_whitespace (u "  第3章　概要") = strip (u "  第3章　概要").
Proof.
  apply (proj2 (proj2 (proj2 (clean_whitespace_only_drops_spaces (u "  第3章　概要"))))).
  vm_compute. repeat constructor; discriminate.
Defined.

(** X16: a line made only of decimal digits, blanks and the punctuation of
    the class of [check_line_validity] is rejected, whatever the minimum
    length. *)
Theorem digit_and_punctuation_lines_rejected (line : text) (min_line_len : nat) :
  Forall (fun c => digit_punct_class c = true) line ->
  check_line_validity line min_line_len = false.
Proof.
  intros H. apply (Forall_strip _ line) in H.
  unfold check_line_validity. cbv zeta.
  destruct (length (strip line) <=? min_line_len)%nat eqn:Hlen; [reflexivity|].
  apply Nat.leb_gt in Hlen.
  assert (Hne : strip line <> []) by (intros E; rewrite E in Hlen; simpl in Hlen; lia).
  destruct (run_class_line digit_punct_class (strip line) Hne H) as [rest Hrest].
  unfold re_match. now rewrite Hrest.
Qed.

Lemma digit_and_punctuation_lines_rejected_witness :
  check_line_validity (u " 2024-03-15 (12.5%) ") DEFAULT_MIN_LINE_LEN = false.
Proof.
  apply digit_and_punctuation_lines_rejected.
  apply Forall_forall. intros c Hc. apply list_elem_of_In in Hc. vm_compute in Hc.
  repeat (destruct Hc as [<-|Hc]; [vm_compute; reflexivity|]). contradiction.
Defined.

(** X17: a line that holds one of the notice words 版权所有, 保密,
    Confidential, 免责声明 anywhere, in any letter case, is rejected,
    whatever stands around the word and whatever the minimum length. *)
Theorem notice_lines_rejected (kw pre w post : text) (min_line_len : nat) :
  In kw [u "版权所有"; u "保密"; u "Confidential"; u "免责声明"] ->
  Forall2 (fun p c => ci_eq p c = true) kw w ->
  check_line_validity (pre ++ w ++ post) min_line_len = false.
Proof.
  intros Hkw Hw.
  assert (Hfacts : forallb (fun p => negb (isspace (ascii_lower p))) kw = true /\
                   kw <> [] /\ In (seqs [wordi kw; Star dot]) REMOVE_PATTERNS).
  { cbn [In] in Hkw. destruct Hkw as [<-|[<-|[<-|[<-|[]]]]];
      (split; [vm_compute; reflexivity|split; [vm_compute; discriminate|]]);
      unfold REMOVE_PATTERNS; cbn [In].
    - do 3 right. left. reflexivity.
    - do 4 right. left. reflexivity.
    - do 5 right. left. reflexivity.
    - do 6 right. left. reflexivity. }
  destruct Hfacts as (Hns & Hne & Hpat).
  destruct (ci_word_ends kw w Hns Hne Hw) as (a & w0 & b & Ew & Ha & Hl & Hb).
  destruct (strip_keeps pre w post a b w0 Ew Ha Hl Hb) as (pre' & post' & E).
  apply (rejected_by_pattern _ _ _ Hpat).
  rewrite E. unfold re_search. now apply keyword_pattern_hits.
Qed.

Lemma notice_lines_rejected_witness :
  check_line_validity (u "Strictly " ++ u "CONFIDENTIAL" ++ u " - do not distribute") 0 = false.
Proof.
  apply (notice_lines_rejected (u "Confidential")).
  - do 2 right. left. reflexivity.
  - vm_compute. repeat constructor.
Defined.

(** X18: a line that holds the word Page, in any letter case, followed by
    any number of blanks and a decimal digit is rejected, whatever stands
    around it and whatever the minimum length. *)
Theorem page_number_lines_rejected (pre w sp post : text) (d : N) (min_line_len : nat) :
  Forall2 (fun p c => ci_eq p c = true) (u "Page") w ->
  Forall (fun c => isspace c = true) sp ->
  isdecimal d = true ->
  check_line_validity (pre ++ w ++ sp ++ d :: post) min_line_len = false.
Proof.
  intros Hw Hsp Hd.
  assert (Hns : forallb (fun p => negb (isspace (ascii_lower p))) (u "Page") = true)
    by (vm_compute; reflexivity).
  assert (Hne : u "Page" <> []) by (vm_compute; discriminate).
  destruct (ci_word_ends (u "Page") w Hns Hne Hw) as (a & w0 & b & Ew & Ha & _).
  assert (Hl : last (w ++ sp ++ [d]) = Some d).
  { rewrite app_assoc. apply last_snoc. }
  assert (Ew' : w ++ sp ++ [d] = a :: (w0 ++ sp ++ [d])) by now rewrite Ew.
  destruct (strip_keeps pre (w ++ sp ++ [d]) post a d _ Ew' Ha Hl (isdecimal_not_space d Hd))
    as (pre' & post' & E).
  assert (Hpat : In (seqs [wordi (u "Page"); Star space; plus digit]) REMOVE_PATTERNS).
  { unfold REMOVE_PATTERNS. cbn [In]. right. left. reflexivity. }
  apply (rejected_by_pattern _ _ _ Hpat).
  replace (pre ++ w ++ sp ++ d :: post) with (pre ++ (w ++ sp ++ [d]) ++ post)
    by (now rewrite <- !app_assoc).
  rewrite E. replace (pre' ++ (w ++ sp ++ [d]) ++ post') with (pre' ++ w ++ sp ++ d :: post')
    by (now rewrite <- !app_assoc).
  unfold re_search. now apply page_pattern_hits.
Qed.

Lemma page_number_lines_rejected_witness :
  check_line_validity (u "see " ++ u "PAGE" ++ u "  " ++ 0x37 :: u " of the report") 0 = false.
Proof.
  apply page_number_lines_rejected.
  - vm_compute. repeat constructor.
  - vm_compute. repeat constructor.
  - vm_compute. reflexivity.
Defined.

(** ** The extractors *)

Section ExtractorFacts.

Local Open Scope nat_scope.

Lemma clean_whitespace_again (s : text) :
  clean_whitespace (clean_whitespace s) = clean_whitespace s.
Proof.
  pose proof (clean_whitespace_tidy s) as Ht.
  destruct (clean_whitespace_ends s) as [E|(a & t & b & E & Ha & Hl & Hb)]; [now rewrite E|].
  rewrite (clean_whitespace_unfold (clean_whitespace s)).
  rewrite (strip_fixed _ a b t E Ha Hl Hb).
  rewrite (tidy_drop_spaces _ _ Ht).
  apply (tidy_merge_spaces None); [exact Ht|discriminate].
Qed.

Lemma strip_clean_whitespace (s : text) : strip (clean_whitespace s) = clean_whitespace s.
Proof.
  destruct (clean_whitespace_ends s) as [E|(a & t & b & E & Ha & Hl & Hb)]; [now rewrite E|].
  now apply (strip_fixed _ a b t).
Qed.

Lemma clean_whitespace_nonempty (s : text) : strip s <> [] -> clean_whitespace s <> [].
Proof.
  intros Hne. rewrite clean_whitespace_unfold.
  destruct (strip_shape s) as [E|(a & t & b & E & Ha & _)]; [contradiction|].
  rewrite E. pose proof (merge_drop_head a t (isspace_SPACE _ Ha)) as Hh.
  intros E0. rewrite E0 in Hh. discriminate.
Qed.

Lemma kept_paragraph_spec (para : paragraph) (t : text) :
  kept_paragraph para = Some t -> t <> [] /\ clean_whitespace t = t.
Proof.
  unfold kept_paragraph. cbv zeta. destruct (_ && _) eqn:H; [|discriminate].
  intros [= <-]. apply andb_true_iff in H. destruct H as [H _]. apply Nat.ltb_lt in H.
  split; [|apply clean_whitespace_again].
  apply clean_whitespace_nonempty. rewrite strip_strip.
  intros E. rewrite E in H. simpl in H. lia.
Qed.

Lemma slide_paragraphs_spec (sl : slide) :
  Forall (fun t => t <> [] /\ clean_whitespace t = t) (slide_paragraphs sl).
Proof.
  apply Forall_forall. intros t Ht. apply list_elem_of_In in Ht.
  unfold slide_paragraphs in Ht. apply in_flat_map in Ht.
  destruct Ht as (sh & _ & Ht). destruct (has_text_frame sh); [|contradiction].
  apply list_elem_of_In, list_elem_of_omap in Ht. destruct Ht as (para & _ & Hk).
  now apply (kept_paragraph_spec para).
Qed.

Lemma join_nonempty (sep : text) (parts : list text) :
  parts <> [] -> Forall (fun t => t <> []) parts -> join sep parts <> [].
Proof.
  destruct parts as [|p rest]; [contradiction|]. intros _ H.
  apply Forall_cons in H. destruct H as [Hp _].
  destruct rest as [|q rest]; [exact Hp|].
  cbn [join]. intros E. apply app_eq_nil in E. tauto.
Qed.

Lemma scan_paragraphs_outcomes (sh_top : option Z) (ps : list paragraph) :
  forall font_size shape_texts,
    (exists r, scan_paragraphs sh_top ps font_size shape_texts = Return r) \/
    scan_paragraphs sh_top ps font_size shape_texts = Raise UnboundLocalError.
Proof.
  induction ps as [|para rest IH]; intros font_size shape_texts; [left; eauto|].
  cbn [scan_paragraphs]. destruct (_ || _); [apply IH|]. cbv zeta.
  destruct (scan_runs _ _); [apply IH|now right].
Qed.

Lemma scan_shapes_outcomes (shapes : list shape) :
  forall font_size shape_texts,
    (exists r, scan_shapes shapes font_size shape_texts = Return r) \/
    scan_shapes shapes font_size shape_texts = Raise UnboundLocalError.
Proof.
  induction shapes as [|sh rest IH]; intros font_size shape_texts; [left; eauto|].
  cbn [scan_shapes]. destruct (negb _); [apply IH|].
  destruct (scan_paragraphs_outcomes (top sh) (paragraphs sh) font_size shape_texts)
    as [[[fs sts] ->]| ->]; [|now right].
  rewrite bind_return. apply IH.
Qed.

Lemma scan_slides_outcomes (fs rk : Z) (slides : presentation) :
  forall font_size all_headers,
    (exists hs, scan_slides fs rk slides font_size all_headers = Return hs /\
                length hs <= length all_headers + length slides) \/
    scan_slides fs rk slides font_size all_headers = Raise UnboundLocalError \/
    scan_slides fs rk slides font_size all_headers = Raise TypeError.
Proof.
  induction slides as [|sl rest IH]; intros font_size all_headers.
  - left. exists all_headers. split; [reflexivity|simpl; lia].
  - cbn [scan_slides].
    destruct (scan_shapes_outcomes sl font_size []) as [[[f sts] ->]| ->];
      [|right; now left].
    rewrite bind_return.
    destruct (sort_by_top_outcomes sts) as [[sorted ->]| ->]; [|right; now right].
    rewrite bind_return. cbv zeta.
    match goal with |- context [scan_slides fs rk rest f ?acc] =>
      destruct (IH f acc) as [(hs & -> & Hlen)|[-> | ->]];
        [|right; now left|right; now right];
      assert (Hacc : length acc <= S (length all_headers))
    end.
    { destruct (slide_headers _ _ _); [lia|]. rewrite length_app. simpl. lia. }
    left. exists hs. split; [reflexivity|]. simpl. lia.
Qed.

Lemma scan_slides_returns (fs rk : Z) (prs : presentation) :
  kept_have_runs prs ->
  Forall (fun sl => Forall (fun sh => has_text_frame sh = true -> is_Some (top sh)) sl) prs ->
  forall font_size all_headers,
    exists hs, scan_slides fs rk prs font_size all_headers = Return hs.
Proof.
  induction 1 as [|sl rest Hsl _ IH]; intros Hplaced font_size all_headers; [eauto|].
  apply Forall_cons in Hplaced. destruct Hplaced as [Hp Hrest].
  cbn [scan_slides].
  destruct (scan_shapes_items sl Hsl font_size []) as [f ->]. cbn [app].
  rewrite bind_return.
  destruct (sort_by_top_spec (kept_items sl) (kept_items_placed sl Hp)) as (sorted & -> & _).
  rewrite bind_return. now apply IH.
Qed.

Lemma Qlt_bool_false (a b : Q) : Qlt_bool a b = false -> (b <= a)%Q.
Proof.
  unfold Qlt_bool. intros H. apply negb_false_iff in H. now apply Qle_bool_iff.
Qed.

Lemma block_text_spec (ph : Q) (m h f : Z) (b : pdf_block) (t : text) :
  block_text ph m h f b = Some t ->
  block_type b = 0%Z /\ (inject_Z h <= y0 b)%Q /\ (y1 b <= ph - inject_Z f)%Q /\
  block_kept_lines b <> [] /\
  t = clean_whitespace (join [SPACE] (block_kept_lines b)) /\
  (m <= Z.of_nat (length t))%Z.
Proof.
  unfold block_text. destruct (Z.eqb_spec (block_type b) 0) as [Hty|]; [|discriminate].
  cbn [negb]. destruct (Qlt_bool (y0 b) _) eqn:Hy0; [discriminate|].
  destruct (Qlt_bool _ (y1 b)) eqn:Hy1; [discriminate|]. cbn [orb].
  destruct (block_kept_lines b) as [|l ls] eqn:Hl; [discriminate|]. cbv zeta.
  rewrite strip_clean_whitespace.
  destruct (Z.ltb_spec (Z.of_nat (length (clean_whitespace (join [SPACE] (l :: ls))))) m);
    [discriminate|].
  intros [= <-]. split; [exact Hty|]. split; [now apply Qlt_bool_false|].
  split; [now apply Qlt_bool_false|]. split; [discriminate|]. now split.
Qed.

Lemma length_omap_le {A B : Type} (g : A -> option B) (l : list A) :
  length (omap g l) <= length l.
Proof.
  induction l as [|x l IH]; [reflexivity|].
  change (omap g (x :: l)) with (match g x with Some y => y :: omap g l | None => omap g l end).
  destruct (g x); cbn [length]; lia.
Qed.

End ExtractorFacts.

(** X19: [parse_ppt_by_slide] gives at most one text per slide; each is the
    lines kept of one slide joined by newlines, the slide has at least one,
    and every line is a non-empty text that [clean_whitespace] leaves as
    it is, so that no text of the result is empty. *)
Theorem parse_ppt_by_slide_texts (prs : presentation) :
  (length (parse_ppt_by_slide prs) <= length prs)%nat /\
  Forall (fun t =>
            t <> [] /\
            exists sl, In sl prs /\ slide_paragraphs sl <> [] /\
                       t = join [0x0A] (slide_paragraphs sl) /\
                       Forall (fun l => l <> [] /\ clean_whitespace l = l)
                              (slide_paragraphs sl))
         (parse_ppt_by_slide prs).
Proof.
  split.
  - unfold parse_ppt_by_slide. induction prs as [|sl rest IH]; [reflexivity|].
    cbn [List.flat_map]. rewrite length_app. cbn [length].
    destruct (slide_paragraphs sl); cbn [length]; lia.
  - apply Forall_forall. intros t Ht. apply list_elem_of_In in Ht.
    unfold parse_ppt_by_slide in Ht. apply in_flat_map in Ht.
    destruct Ht as (sl & Hsl & Ht).
    pose proof (slide_paragraphs_spec sl) as Hlines.
    destruct (slide_paragraphs sl) as [|l ls] eqn:E; [contradiction|].
    destruct Ht as [<-|[]]. split.
    + apply join_nonempty; [discriminate|].
      eapply Forall_impl; [exact Hlines|]. now intros x [Hx _].
    + exists sl. rewrite E. repeat split; [exact Hsl|discriminate|exact Hlines].
Qed.

(** X20: [parse_ppt_to_get_headers] returns at most one header text per
    slide, or raises [UnboundLocalError] or [TypeError].  It returns when
    every paragraph it keeps has a run and every shape with a text frame
    has a position.  It raises [UnboundLocalError] when the first paragraph
    of the deck it keeps has no run, the variable [font_size] being read
    before any assignment, and [TypeError] when the first slide, whose kept
    paragraphs have runs, has two kept paragraphs or more and one of them in
    a shape without a position: the sort then compares [None]. *)
Theorem parse_ppt_to_get_headers_outcomes (prs : presentation) (fs rk : Z) :
  ((exists hs, parse_ppt_to_get_headers prs fs rk = Return hs /\
               (length hs <= length prs)%nat) \/
   parse_ppt_to_get_headers prs fs rk = Raise UnboundLocalError \/
   parse_ppt_to_get_headers prs fs rk = Raise TypeError) /\
  (kept_have_runs prs ->
   Forall (fun sl => Forall (fun sh => has_text_frame sh = true -> is_Some (top sh)) sl) prs ->
   exists hs, parse_ppt_to_get_headers prs fs rk = Return hs) /\
  (forall sh shapes slides para ps,
     prs = (sh :: shapes) :: slides ->
     has_text_frame sh = true -> paragraphs sh = para :: ps ->
     para_text para <> [] ->
     check_line_validity (para_text para) DEFAULT_MIN_LINE_LEN = true ->
     para_runs para = [] ->
     parse_ppt_to_get_headers prs fs rk = Raise UnboundLocalError) /\
  (forall sl slides,
     prs = sl :: slides -> kept_have_runs [sl] ->
     (2 <= length (kept_items sl))%nat ->
     Exists (fun x => st_top x = None) (kept_items sl) ->
     parse_ppt_to_get_headers prs fs rk = Raise TypeError).
Proof.
  unfold parse_ppt_to_get_headers. split; [|split; [|split]].
  - destruct (scan_slides_outcomes fs rk prs None []) as [(hs & E & Hlen)|E];
      [left; exists hs; now split|now right].
  - intros H Hp. now apply scan_slides_returns.
  - intros sh shapes slides para ps -> Hf Hps Htext Hvalid Hruns.
    cbn [scan_slides scan_shapes]. rewrite Hf, Hps. cbn [negb scan_paragraphs].
    rewrite Hvalid, Hruns. destruct (para_text para); [contradiction|]. reflexivity.
  - intros sl slides -> Hruns Hlen Hex.
    apply Forall_cons in Hruns. destruct Hruns as [Hruns _].
    cbn [scan_slides].
    destruct (scan_shapes_items sl Hruns None []) as [f ->]. cbn [app].
    rewrite bind_return. now rewrite (sort_by_top_unplaced _ Hlen Hex).
Qed.

Lemma parse_ppt_to_get_headers_outcomes_witness :
  parse_ppt_to_get_headers
    [[ {| has_text_frame := true; top := Some 0%Z;
          paragraphs := [ {| para_text := u "Quarterly plan"; para_runs := [] |} ] |} ]]
    DEFAULT_MIN_HEADER_FONTSIZE DEFAULT_MIN_HEADER_RANK
  = Raise UnboundLocalError /\
  (exists hs,
     parse_ppt_to_get_headers [review_slide]
       DEFAULT_MIN_HEADER_FONTSIZE DEFAULT_MIN_HEADER_RANK
     = Return hs) /\
  parse_ppt_to_get_headers [unplaced_slide]
    DEFAULT_MIN_HEADER_FONTSIZE DEFAULT_MIN_HEADER_RANK
  = Raise TypeError.
Proof.
  split; [|split].
  - eapply (proj1 (proj2 (proj2 (parse_ppt_to_get_headers_outcomes _ _ _)))).
    + reflexivity.
    + reflexivity.
    + reflexivity.
    + vm_compute. discriminate.
    + vm_compute. reflexivity.
    + reflexivity.
  - apply (proj1 (proj2 (parse_ppt_to_get_headers_outcomes _ _ _))).
    + repeat constructor; intros _; discriminate.
    + repeat constructor; intros _; eexists; reflexivity.
  - apply (proj2 (proj2 (proj2 (parse_ppt_to_get_headers_outcomes _ _ _)))
             unplaced_slide []).
    + reflexivity.
    + repeat constructor; intros _; discriminate.
    + vm_compute. lia.
    + vm_compute. apply Exists_cons_tl, Exists_cons_hd. reflexivity.
Defined.

(** X21: every text [parse_pdf_to_block_info] returns comes from a text
    block that lies under the header band and above the footer band of its
    page and has a line that is kept; it is the normalised join of these
    lines, has at least [min_block_len] characters, and neither the final
    [strip] nor another normalisation changes it.  There are at most as
    many texts as blocks. *)
Theorem parse_pdf_to_block_info_texts (doc : pdf_document)
        (min_block_len header_height footer_height : Z) :
  (length (parse_pdf_to_block_info doc min_block_len header_height footer_height)
   <= length (List.flat_map page_blocks doc))%nat /\
  Forall (fun t =>
            exists page b,
              In page doc /\ In b (page_blocks page) /\ block_type b = 0%Z /\
              (inject_Z header_height <= y0 b)%Q /\
              (y1 b <= page_height page - inject_Z footer_height)%Q /\
              block_kept_lines b <> [] /\
              t = clean_whitespace (join [SPACE] (block_kept_lines b)) /\
              (min_block_len <= Z.of_nat (length t))%Z /\
              strip t = t /\ clean_whitespace t = t)
         (parse_pdf_to_block_info doc min_block_len header_height footer_height).
Proof.
  unfold parse_pdf_to_block_info. split.
  - induction doc as [|page rest IH]; [reflexivity|].
    cbn [List.flat_map]. rewrite !length_app.
    pose proof (length_omap_le
                  (block_text (page_height page) min_block_len header_height footer_height)
                  (page_blocks page)). lia.
  - apply Forall_forall. intros t Ht. apply list_elem_of_In, in_flat_map in Ht.
    destruct Ht as (page & Hpage & Ht).
    apply list_elem_of_In, list_elem_of_omap in Ht. destruct Ht as (b & Hb & Hbt).
    destruct (block_text_spec _ _ _ _ _ _ Hbt) as (Hty & Hy0 & Hy1 & Hne & Ht & Hlen).
    exists page, b. split; [exact Hpage|]. split; [now apply list_elem_of_In|].
    repeat (split; [assumption|]).
    rewrite Ht. split; [apply strip_clean_whitespace|apply clean_whitespace_again].
Qed.

(** ** The dispatcher and the display helper *)

Section CutText.

Local Open Scope Z_scope.

Lemma char_length_pos (c : N) : 1 <= char_length c <= 2.
Proof. unfold char_length. destruct (127 <? c)%N; lia. Qed.

Lemma calculate_length_app (p q : text) :
  calculate_length (p ++ q) = calculate_length p + calculate_length q.
Proof.
  unfold calculate_length. induction p as [|c p IH]; [reflexivity|].
  cbn [app fold_right]. rewrite IH. lia.
Qed.

Lemma calculate_length_cons (c : N) (s : text) :
  calculate_length (c :: s) = char_length c + calculate_length s.
Proof. reflexivity. Qed.

Lemma cut_loop_spec (max_length : Z) (s : text) : forall current_length,
  current_length <= max_length ->
  max_length < current_length + calculate_length s ->
  exists p c rest,
    s = p ++ c :: rest /\ cut_loop max_length current_length s = p /\
    current_length + calculate_length p <= max_length
    < current_length + calculate_length p + char_length c.
Proof.
  induction s as [|c t IH]; intros cur Hcur Hover.
  - cbn in Hover. lia.
  - cbn [cut_loop]. rewrite calculate_length_cons in Hover.
    destruct (Z.ltb_spec max_length (cur + char_length c)) as [Hlt|Hge].
    + exists [], c, t. repeat split; cbn; lia.
    + destruct (IH (cur + char_length c) Hge ltac:(lia)) as (p & c' & rest & E & Hp & Hb).
      exists (c :: p), c', rest. rewrite calculate_length_cons.
      split; [now rewrite E|]. split; [now rewrite Hp|]. lia.
Qed.

End CutText.

(** X22: [cut_text] returns a text that fits unchanged; otherwise, for a
    limit that is not negative, it returns the longest prefix of the text
    whose width is within the limit, followed by three dots, so that the
    width of the result never exceeds the limit by more than 3. *)
Theorem cut_text_longest_prefix (s : text) (max_length : Z) :
  (0 <= max_length)%Z ->
  (calculate_length (cut_text s max_length) <= max_length + 3)%Z /\
  ((calculate_length s <= max_length)%Z /\ cut_text s max_length = s \/
   exists p c rest,
     s = p ++ c :: rest /\ cut_text s max_length = p ++ u "..." /\
     (calculate_length p <= max_length < calculate_length p + char_length c)%Z).
Proof.
  intros Hmax. unfold cut_text.
  destruct (Z.leb_spec (calculate_length s) max_length) as [Hfit|Hover].
  - split; [lia|]. left. now split.
  - destruct (cut_loop_spec max_length s 0%Z Hmax ltac:(lia)) as (p & c & rest & E & Hp & Hb).
    rewrite Hp, calculate_length_app.
    change (calculate_length (u "...")) with 3%Z.
    split; [lia|]. right. exists p, c, rest. split; [exact E|]. split; [reflexivity|]. lia.
Qed.

Lemma cut_text_longest_prefix_witness :
  (calculate_length (cut_text (u "第一季度经营计划.pdf") 9) <= 9 + 3)%Z.
Proof.
  apply (proj1 (cut_text_longest_prefix (u "第一季度经营计划.pdf") 9 ltac:(lia))).
Defined.

Section Dispatch.

Lemma load_existing_file_names_spec (files : disk) (k : text) (m : doc_meta) :
  stored_metadata files !! k = Some m ->
  exists names, load_existing_file_names files = Some names /\ file_name m ∈ names.
Proof.
  unfold stored_metadata, load_existing_file_names.
  destruct (metadata_with_id_file files) as [md|]; cbn [default]; [|now rewrite lookup_empty].
  intros Hk. apply elem_of_map_to_list in Hk.
  assert (Hin : file_name m ∈ List.map (fun kv => file_name (snd kv)) (map_to_list md)).
  { apply list_elem_of_In, in_map_iff. exists (k, m). split; [reflexivity|].
    now apply list_elem_of_In. }
  destruct (List.map _ (map_to_list md)) as [|n ns]; [inversion Hin|].
  now exists (n :: ns).
Qed.

Lemma parse_by_type_outcomes (w : world) (file_path file_name : text) :
  (exists r, parse_by_type w file_path file_name = Return r /\
             (is_Some r -> endswith (u ".pdf") file_name = true \/
                           endswith (u ".pptx") file_name = true)) \/
  parse_by_type w file_path file_name = Raise ValueError.
Proof.
  unfold parse_by_type. destruct (endswith (u ".pdf") file_name).
  - destruct (open_pdf w file_path); [left; eexists; split; [reflexivity|now left]|now right].
  - destruct (endswith (u ".pptx") file_name).
    + destruct (open_pptx w file_path); [|now right].
      destruct (parse_ppt_to_get_headers _ _ _); [|now right].
      left. eexists. split; [reflexivity|now right].
    + left. exists None. split; [reflexivity|]. intros [? H]. discriminate H.
Qed.

Lemma indexed_name_is_skipped (w : world) (file_path : text) (files : disk)
      (k : text) (m : doc_meta) :
  stored_metadata files !! k = Some m ->
  basename file_path = file_name m ->
  parse_document w file_path files = Return None.
Proof.
  intros Hk Hname. unfold parse_document.
  destruct (path_exists w file_path); cbn [negb]; [|reflexivity]. cbv zeta.
  destruct (load_existing_file_names_spec files k m Hk) as (names & -> & Hin).
  rewrite Hname. now rewrite (bool_decide_eq_true_2 _ Hin).
Qed.

End Dispatch.

(** X23: once a document is in the store, [parse_document] returns [None]
    for every path whose base name is the file name of that document, in
    whatever directory it lies, and opens no file for it: documents are told
    apart by name here, and by path in [index_files]. *)
Theorem parse_document_skips_indexed_names (w : world) (file_path : text) (files : disk)
        (k : text) (m : doc_meta) :
  stored_metadata files !! k = Some m ->
  basename file_path = file_name m ->
  parse_document w file_path files = Return None.
Proof. apply indexed_name_is_skipped. Qed.

Lemma parse_document_skips_indexed_names_witness :
  parse_document {| path_exists := fun _ => true;
                    open_pdf := fun _ => Some [];
                    open_pptx := fun _ => None |}
                 (u "/archive/2023/a.pdf") files_after_A
  = Return None.
Proof.
  apply (parse_document_skips_indexed_names _ _ _
           (doc_key (doc "a.pdf" "/docs/a.pdf" "Plan for the first quarter"))
           (doc "a.pdf" "/docs/a.pdf" "Plan for the first quarter")).
  - vm_compute. reflexivity.
  - vm_compute. reflexivity.
Defined.

(** X24: [parse_document] raises nothing but [ValueError], whatever the
    readers raise; when it returns texts the path exists, its base name
    ends in ".pdf" or ".pptx", and no stored document has that file name. *)
Theorem parse_document_outcomes (w : world) (file_path : text) (files : disk) :
  (exists r,
     parse_document w file_path files = Return r /\
     (is_Some r ->
      path_exists w file_path = true /\
      (endswith (u ".pdf") (basename file_path) = true \/
       endswith (u ".pptx") (basename file_path) = true) /\
      forall k m, stored_metadata files !! k = Some m -> file_name m <> basename file_path)) \/
  parse_document w file_path files = Raise ValueError.
Proof.
  destruct (parse_document w file_path files) as [r|e] eqn:Hpd.
  - left. exists r. split; [reflexivity|]. intros Hr.
    assert (Hfresh : forall k m, stored_metadata files !! k = Some m ->
                                 file_name m <> basename file_path).
    { intros k m Hk Hname.
      rewrite (indexed_name_is_skipped w file_path files k m Hk (eq_sym Hname))
        in Hpd.
      injection Hpd as <-. destruct Hr as [? Hr]. discriminate Hr. }
    unfold parse_document in Hpd.
    destruct (path_exists w file_path); cbn [negb] in Hpd;
      [|injection Hpd as <-; destruct Hr as [? Hr]; discriminate Hr].
    split; [reflexivity|]. split; [|exact Hfresh]. cbv zeta in Hpd.
    destruct (parse_by_type_outcomes w file_path (basename file_path))
      as [(r' & Hr' & Hext)|Hraise].
    + destruct (load_existing_file_names files) as [names|].
      * destruct (bool_decide _);
          [injection Hpd as <-; destruct Hr as [? Hr]; discriminate Hr|].
        rewrite Hr' in Hpd. injection Hpd as ->. now apply Hext.
      * rewrite Hr' in Hpd. injection Hpd as ->. now apply Hext.
    + destruct (load_existing_file_names files) as [names|].
      * destruct (bool_decide _);
          [injection Hpd as <-; destruct Hr as [? Hr]; discriminate Hr|congruence].
      * congruence.
  - right. unfold parse_document in Hpd.
    destruct (path_exists w file_path); cbn [negb] in Hpd; [|discriminate]. cbv zeta in Hpd.
    destruct (parse_by_type_outcomes w file_path (basename file_path))
      as [(r' & Hr' & _)|Hraise].
    + destruct (load_existing_file_names files) as [names|];
        [destruct (bool_decide _); [discriminate|]|]; congruence.
    + destruct (load_existing_file_names files) as [names|];
        [destruct (bool_decide _); [discriminate|]|]; congruence.
Qed.

Lemma parse_document_outcomes_witness :
  path_exists {| path_exists := fun _ => true; open_pdf := fun _ => Some [];
                 open_pptx := fun _ => None |} (u "/docs/new.pdf") = true /\
  (endswith (u ".pdf") (basename (u "/docs/new.pdf")) = true \/
   endswith (u ".pptx") (basename (u "/docs/new.pdf")) = true) /\
  forall k m, stored_metadata files_after_A !! k = Some m ->
              file_name m <> basename (u "/docs/new.pdf").
Proof.
  destruct (parse_document_outcomes
              {| path_exists := fun _ => true; open_pdf := fun _ => Some [];
                 open_pptx := fun _ => None |} (u "/docs/new.pdf") files_after_A)
    as [(r & Hr & H)|Hraise].
  - vm_compute in Hr. injection Hr as <-. apply H. eexists. reflexivity.
  - vm_compute in Hraise. discriminate Hraise.
Defined.

Section EmbeddingTextShape.

Local Open Scope nat_scope.

Lemma before_first_dot_prefix (s : text) :
  0x2E%N ∉ before_first_dot s /\
  exists rest, s = before_first_dot s ++ rest /\ (rest = [] \/ head rest = Some 0x2E%N).
Proof.
  induction s as [|c t (Hno & rest & E & Hrest)].
  - split; [intros H; inversion H|]. exists []. split; [reflexivity|now left].
  - cbn [before_first_dot]. destruct (N.eqb_spec c 0x2E) as [->|Hne].
    + split; [intros H; inversion H|]. exists (0x2E%N :: t). split; [reflexivity|now right].
    + split.
      * intros H. apply elem_of_cons in H. destruct H as [H|H]; [congruence|contradiction].
      * exists rest. split; [cbn [app]; now rewrite <- E|exact Hrest].
Qed.

Lemma cleaned_keywords_spec (kws : list text) :
  Forall (fun k => k <> [] /\ strip k = k)
         (List.map strip (List.filter (fun kw => 0 <? length (strip kw)) kws)).
Proof.
  apply Forall_forall. intros k Hk. apply list_elem_of_In, in_map_iff in Hk.
  destruct Hk as (kw & <- & Hin). apply filter_In in Hin. destruct Hin as [_ Hlen].
  apply Nat.ltb_lt in Hlen. split; [|apply strip_strip].
  intros E. rewrite E in Hlen. simpl in Hlen. lia.
Qed.

End EmbeddingTextShape.

(** X25: the text [build_text_for_embedding] builds is "passage: ", the
    file name up to its first dot, " - ", the keywords joined by ", ",
    " - " and the summary; the part of the name has no dot, and what it
    leaves of the name is empty or starts with a dot; the keywords are the
    first five, at most, of the given ones that are not blank, each
    stripped. *)
Theorem build_text_for_embedding_shape (m : doc_meta) :
  exists stem rest ks,
    build_text_for_embedding m
    = u "passage: " ++ stem ++ u " - " ++ join (u ", ") ks ++ u " - " ++ summary m /\
    file_name m = stem ++ rest /\ 0x2E ∉ stem /\ (rest = [] \/ head rest = Some 0x2E) /\
    ks = take 5 (List.filter (fun k => negb (text_eqb k [])) (List.map strip (keywords m))) /\
    (length ks <= 5)%nat /\
    Forall (fun k => k <> [] /\ strip k = k) ks.
Proof.
  destruct (before_first_dot_prefix (file_name m)) as (Hno & rest & E & Hrest).
  exists (before_first_dot (file_name m)), rest.
  set (cleaned := List.map strip
                    (List.filter (fun kw => (0 <? length (strip kw))%nat) (keywords m))).
  assert (Htake : take (Nat.min (length cleaned) 5) cleaned = take 5 cleaned).
  { destruct (Nat.le_ge_cases (length cleaned) 5) as [Hl|Hl].
    - rewrite Nat.min_l by exact Hl. now rewrite !take_ge by lia.
    - now rewrite Nat.min_r by exact Hl. }
  exists (take 5 cleaned).
  split; [|split; [exact E|split; [exact Hno|split; [exact Hrest|split; [|split]]]]].
  - unfold build_text_for_embedding. cbv zeta. fold cleaned. rewrite Htake.
    now destruct (take 5 cleaned).
  - unfold cleaned. rewrite cleaned_keywords_agree. f_equal.
    apply filter_ext. intros k. destruct k; reflexivity.
  - rewrite length_take. lia.
  - apply Forall_take. apply cleaned_keywords_spec.
Qed.

(** ** One file from parsing to summary *)

Section SummarizeFileFacts.

Local Open Scope nat_scope.

Lemma returned_status {A B : Type} (s1 s2 : text) (a1 a2 : A) (b1 b2 : B) :
  Return (s1, a1, b1) = Return (s2, a2, b2) -> s1 = s2.
Proof. intros H. now inversion H. Qed.

Lemma basename_suffix (s : text) : exists pre, s = pre ++ basename s.
Proof.
  induction s as [|c t (pre & E)]; [now exists []|].
  cbn [basename]. destruct (existsb _ (c :: t)); [|now exists []].
  exists (c :: pre). cbn [app]. now rewrite <- E.
Qed.

Lemma basename_after_slash (a b : text) : basename (a ++ 0x2F%N :: b) = basename b.
Proof.
  induction a as [|c a IH].
  - cbn [app basename existsb]. now rewrite N.eqb_refl.
  - cbn [app basename]. replace (existsb _ (c :: a ++ 0x2F%N :: b)) with true; [exact IH|].
    symmetry. apply existsb_exists. exists 0x2F%N. split; [|reflexivity].
    right. apply in_or_app. right. left. reflexivity.
Qed.

Lemma ends_with_slash (a : text) :
  endswith [0x2F%N] a = true -> exists a', a = a' ++ [0x2F%N].
Proof.
  unfold endswith. cbn [rev app]. destruct (rev a) as [|c r] eqn:E; [discriminate|].
  cbn [startswith]. rewrite andb_true_r. intros H. apply N.eqb_eq in H. subst c.
  exists (rev r). apply (f_equal (@rev N)) in E. rewrite rev_involutive in E.
  now rewrite E.
Qed.

Lemma basename_join (a b : text) : basename (os_path_join a b) = basename b.
Proof.
  unfold os_path_join. destruct (startswith _ b); [reflexivity|].
  destruct (length a =? 0) eqn:Hlen.
  - apply Nat.eqb_eq in Hlen. destruct a; [reflexivity|discriminate].
  - cbn [orb]. destruct (endswith _ a) eqn:He.
    + destruct (ends_with_slash a He) as [a' ->]. rewrite <- app_assoc.
      apply basename_after_slash.
    + apply basename_after_slash.
Qed.

Lemma startswith_app (p x y : text) :
  startswith p x = true -> startswith p (x ++ y) = true.
Proof.
  revert x. induction p as [|a p IH]; intros x H; [reflexivity|].
  destruct x as [|b x]; [discriminate|]. cbn [app startswith] in *.
  apply andb_true_iff in H. destruct H as [-> H]. now rewrite IH.
Qed.

Lemma endswith_basename (ext s : text) :
  endswith ext (basename s) = true -> endswith ext s = true.
Proof.
  destruct (basename_suffix s) as [pre E]. intros H. rewrite E.
  unfold endswith in *. rewrite rev_app_distr. now apply startswith_app.
Qed.

Lemma parse_document_texts (w : world) (file_path : text) (files : disk) (ts : list text) :
  parse_document w file_path files = Return (Some ts) ->
  endswith (u ".pdf") (basename file_path) = true \/
  endswith (u ".pptx") (basename file_path) = true.
Proof.
  unfold parse_document. destruct (negb _); [discriminate|]. cbv zeta.
  destruct (parse_by_type_outcomes w file_path (basename file_path))
    as [(r & Hr & Hext)|Hraise].
  - destruct (load_existing_file_names files) as [names|];
      [destruct (bool_decide _); [discriminate|]|];
      rewrite Hr; intros [= ->]; apply Hext; eauto.
  - destruct (load_existing_file_names files) as [names|];
      [destruct (bool_decide _); [discriminate|]|]; congruence.
Qed.

Lemma summarize_file_by_llm_statuses (ollama : nat -> text -> http_reply)
      (blocks : list text) (fname status : text) (kw : option json) (s : option text) :
  fst (summarize_file_by_llm ollama blocks fname) = Return (status, kw, s) ->
  status ∈ [u "http_request_error"; u "unknown_ollama_error"; u "json_parse_error";
            u "invalid_output_error"; u "valid_output"].
Proof.
  rewrite summarize_result. cbn [fst].
  destruct (read_output_cases (fst (retry_loop ollama (prompt_of fname blocks) max_retries [] []))
              fname)
    as [(st & -> & Hst)|[(k & sm & n & -> & _)|[[-> | ->] _]]]; try discriminate.
  - intros H. apply returned_status in H. rewrite <- H.
    repeat (apply elem_of_cons in Hst; destruct Hst as [->|Hst]);
      [| | | |inversion Hst].
    + left.
    + right; left.
    + do 2 right; left.
    + do 3 right; left.
  - intros H. apply returned_status in H. rewrite <- H. do 4 right; left.
Qed.

End SummarizeFileFacts.

(** X26: [summarize_file] never returns the status [file_type_error]:
    texts come back from [parse_document] only for a path whose base name
    ends in ".pdf" or ".pptx", and the base name of the joined path is the
    one of the file name, so that the branch for other file types is never
    taken.  The status returned is one of seven. *)
Theorem summarize_file_statuses
        (w : world) (select_top_text_blocks : list text -> nat -> outcome (list text))
        (ollama : nat -> text -> http_reply) (file_folder file_name : text) (files : disk)
        (status : text) (kw : option json) (s : option text) :
  fst (summarize_file w select_top_text_blocks ollama file_folder file_name files)
  = Return (status, kw, s) ->
  status <> u "file_type_error" /\
  status ∈ [u "text_blocks_error"; u "top_text_blocks_error"; u "http_request_error";
            u "unknown_ollama_error"; u "json_parse_error"; u "invalid_output_error";
            u "valid_output"].
Proof.
  intros H.
  assert (Hin : status ∈ [u "text_blocks_error"; u "top_text_blocks_error";
                          u "http_request_error"; u "unknown_ollama_error";
                          u "json_parse_error"; u "invalid_output_error"; u "valid_output"]).
  { unfold summarize_file in H.
    destruct (parse_document w (os_path_join file_folder file_name) files)
      as [[ts|]|e] eqn:Hpd; [| |discriminate H].
    2: { apply returned_status in H. rewrite <- H. left. }
    apply parse_document_texts in Hpd. rewrite basename_join in Hpd.
    cbv zeta in H.
    destruct (endswith (u ".pptx") file_name) eqn:Hpptx.
    - destruct (select_top_text_blocks ts 10%nat) as [sel|e].
      + apply summarize_file_by_llm_statuses in H. now do 2 right.
      + destruct e; try discriminate H.
        apply returned_status in H. rewrite <- H. right; left.
    - destruct (endswith (u ".pdf") file_name) eqn:Hpdf.
      + destruct (select_top_text_blocks ts 20%nat) as [sel|e].
        * apply summarize_file_by_llm_statuses in H. now do 2 right.
        * destruct e; try discriminate H.
          apply returned_status in H. rewrite <- H. right; left.
      + destruct Hpd as [Hpd|Hpd]; apply endswith_basename in Hpd; congruence. }
  split; [|exact Hin].
  intros ->. repeat (apply elem_of_cons in Hin; destruct Hin as [Hin|Hin];
                     [vm_compute in Hin; discriminate Hin|]).
  inversion Hin.
Qed.

Lemma summarize_file_statuses_witness :
  u "text_blocks_error" <> u "file_type_error" /\
  u "text_blocks_error"
    ∈ [u "text_blocks_error"; u "top_text_blocks_error"; u "http_request_error";
       u "unknown_ollama_error"; u "json_parse_error"; u "invalid_output_error";
       u "valid_output"].
Proof.
  apply (summarize_file_statuses
           {| path_exists := fun _ => true; open_pdf := fun _ => Some [];
              open_pptx := fun _ => None |}
           (fun blocks _ => Return blocks) steady (u "/docs") (u "notes.txt") no_files
           (u "text_blocks_error") None None).
  vm_compute. reflexivity.
Defined.

(** ** Catalog lines *)

Section CatalogLines.

Local Open Scope nat_scope.

Lemma run_times {A : Type} (n : nat) (p : N -> bool) (w post : text) (k : text -> option A) :
  Forall (fun c => p c = true) w ->
  run n (times (length w) (Cls p)) (w ++ post) k = k post.
Proof.
  induction 1 as [|c w Hc _ IH]; [reflexivity|].
  cbn [length times app run]. now rewrite Hc.
Qed.

Lemma separator_run_found (n : nat) (pre seps post : text) :
  Forall (fun c => separator_class c = true) seps -> 6 <= length seps ->
  matches (search_from n (at_least 6 (Cls separator_class)) (pre ++ seps ++ post)) = true.
Proof.
  intros Hseps Hlen. apply search_from_hit.
  rewrite <- (take_drop 6 seps), <- app_assoc.
  assert (H6 : length (take 6 seps) = 6) by (rewrite length_take; lia).
  unfold at_least. cbn [run]. rewrite <- H6 at 1.
  rewrite run_times by now apply Forall_take.
  apply star_loop_some. intros t. now exists t.
Qed.

Lemma closing_numeral_found (n : nat) (pre : text) (c : N) :
  roman_or_digit_class c = true ->
  matches (search_from n (Seq (rep 1 5 (Cls roman_or_digit_class)) Eol) (pre ++ [c])) = true.
Proof.
  intros Hc. apply search_from_hit. cbn. rewrite Hc. now exists [].
Qed.

Lemma outline_number_matched (ds rest : text) (sp : N) :
  ds <> [] -> Forall (fun c => isdecimal c = true) ds -> isspace sp = true ->
  matches (re_match (seqs [Bol; plus digit; Star (Seq (lit 0x2E) (plus digit)); space])
                    (ds ++ sp :: rest)) = true.
Proof.
  intros Hne Hds Hsp. destruct ds as [|d ds]; [contradiction|].
  apply Forall_cons in Hds. destruct Hds as [Hd Hds].
  unfold re_match. set (n := length ((d :: ds) ++ sp :: rest)).
  assert (Hrun : is_Some (run n (seqs [Bol; plus digit; Star (Seq (lit 0x2E) (plus digit)); space])
                              ((d :: ds) ++ sp :: rest) Some)).
  { cbn [seqs plus run app digit]. unfold n at 1. cbn [app]. rewrite Nat.eqb_refl, Hd.
    pose proof (star_class_reaches n isdecimal
                  (fun s1 => run n (Seq (Star (Seq (lit 0x2E) (plus digit))) space) s1 Some)
                  ds (sp :: rest) (length (ds ++ sp :: rest)) Hds (Nat.le_refl _)) as H.
    cbn [run plus digit space lit] in H. apply H. clear H.
    destruct (length (sp :: rest)) as [|fuel]; cbn [star_loop].
    - rewrite Hsp. now exists rest.
    - replace (0x2E =? sp)%N with false; [rewrite Hsp; now exists rest|].
      symmetry. apply N.eqb_neq. intros <-. vm_compute in Hsp. discriminate. }
  destruct Hrun as [x ->]. reflexivity.
Qed.

Lemma catalog_line_rejected (line : text) (min_line_len : nat) :
  is_catalog_line (strip line) = true -> check_line_validity line min_line_len = false.
Proof.
  intros H. unfold check_line_validity. cbv zeta.
  destruct (_ <=? _); [reflexivity|].
  destruct (matches (re_match _ _)); [reflexivity|]. now rewrite H.
Qed.

Lemma is_catalog_line_strip (line : text) : is_catalog_line (strip line) = is_catalog_line line.
Proof. unfold is_catalog_line. now rewrite strip_strip. Qed.

End CatalogLines.

(** X27: a line whose stripped text starts with a number followed by a
    blank, as an entry of a table of contents or a numbered heading does,
    and has at least ten characters is a catalog line, and
    [check_line_validity] rejects it, whatever the minimum length. *)
Theorem outline_lines_rejected (line ds rest : text) (sp : N) (min_line_len : nat) :
  strip line = ds ++ sp :: rest ->
  ds <> [] -> Forall (fun c => isdecimal c = true) ds -> isspace sp = true ->
  (10 <= length (strip line))%nat ->
  is_catalog_line line = true /\ check_line_validity line min_line_len = false.
Proof.
  intros E Hne Hds Hsp Hlen.
  assert (Hcat : is_catalog_line line = true).
  { unfold is_catalog_line. cbv zeta.
    replace (length (strip line) <? 10)%nat with false
      by (symmetry; apply Nat.ltb_ge; exact Hlen).
    rewrite E, (outline_number_matched ds rest sp Hne Hds Hsp).
    now destruct (_ && _). }
  split; [exact Hcat|].
  apply catalog_line_rejected. now rewrite is_catalog_line_strip.
Qed.

Lemma outline_lines_rejected_witness :
  is_catalog_line (u "  12 Market overview and outlook") = true /\
  check_line_validity (u "  12 Market overview and outlook") DEFAULT_MIN_LINE_LEN = false.
Proof.
  apply (outline_lines_rejected _ (u "12") (u "Market overview and outlook") 0x20).
  - vm_compute. reflexivity.
  - discriminate.
  - apply Forall_forall. intros c Hc. apply list_elem_of_In in Hc. vm_compute in Hc.
    repeat (destruct Hc as [<-|Hc]; [vm_compute; reflexivity|]). contradiction.
  - reflexivity.
  - vm_compute. lia.
Defined.

(** X28: a line whose stripped text has at least ten characters, holds a
    run of six dots, bullets or blanks, as the leader of an entry of a table
    of contents is, and ends with a digit or one of the letters i, x, v in
    either case is a catalog line, and [check_line_validity] rejects it,
    whatever the minimum length. *)
Theorem dotted_leader_lines_rejected (line pre seps post : text) (c : N)
        (min_line_len : nat) :
  strip line = pre ++ seps ++ post ++ [c] ->
  Forall (fun x => separator_class x = true) seps -> (6 <= length seps)%nat ->
  roman_or_digit_class c = true ->
  (10 <= length (strip line))%nat ->
  is_catalog_line line = true /\ check_line_validity line min_line_len = false.
Proof.
  intros E Hseps H6 Hc Hlen.
  assert (Hcat : is_catalog_line line = true).
  { unfold is_catalog_line. cbv zeta.
    replace (length (strip line) <? 10)%nat with false
      by (symmetry; apply Nat.ltb_ge; exact Hlen).
    pose proof (separator_run_found (length (strip line)) pre seps (post ++ [c]) Hseps H6)
      as H1.
    pose proof (closing_numeral_found (length (strip line)) (pre ++ seps ++ post) c Hc) as H2.
    rewrite <- !app_assoc in H2. rewrite <- E in H1, H2.
    unfold re_search. now rewrite H1, H2. }
  split; [exact Hcat|].
  apply catalog_line_rejected. now rewrite is_catalog_line_strip.
Qed.

Lemma dotted_leader_lines_rejected_witness :
  is_catalog_line (u "Appendix ........ xiv") = true /\
  check_line_validity (u "Appendix ........ xiv") DEFAULT_MIN_LINE_LEN = false.
Proof.
  apply (dotted_leader_lines_rejected _ (u "Appendix ") (u "........") (u " xi") 0x76).
  - vm_compute. reflexivity.
  - apply Forall_forall. intros c Hc. apply list_elem_of_In in Hc. vm_compute in Hc.
    repeat (destruct Hc as [<-|Hc]; [vm_compute; reflexivity|]). contradiction.
  - vm_compute. lia.
  - vm_compute. reflexivity.
  - vm_compute. lia.
Defined.
